(** * Memory forensics core: pattern scanner, big-integer readers, shuffle cipher

    A shallow embedding of the reading and decryption core of the
    memory-forensics tool:

    - [ProcessManager::ReadMemory] and the typed readers of [MemoryScanner]
      (memory_scanner.hpp / memory_scanner.cpp / process_manager.cpp);
    - [MemoryScanner::ScanRegionForPattern] (memory_scanner.cpp);
    - [DotNetBigIntegerReader] (dotnet_biginteger_reader.cpp);
    - [ObscuredBigIntegerReader] (obscured_biginteger_reader.cpp).

    Conventions.  The target is a 64-bit little-endian machine (the source
    reads pointers with [ReadUInt64]): [size_t], [uintptr_t] and
    [MemoryAddress] are integers modulo 2^64, [uint32_t] is an integer
    modulo 2^32 and [int32_t] is its two's-complement reading.  All of them
    are carried as [Z] with the wrap-around written out.  A [std::optional]
    is an [option]; [std::nullopt] is [None].  Logging has no effect on the
    values computed and is left out.

    A [ProcessManager.t] is the target at one moment.  Two further models
    cover what it leaves out: [Live] threads the calls of [ReadMemory]
    through the readers, for a target whose memory changes while it is
    read, and [Allocating] writes out the buffer allocations that come
    before a read and can throw. *)

From Stdlib Require Import ZArith NArith Lia List Sorted.
From Stdlib Require Import Strings.Byte Strings.Ascii Strings.String.
From stdpp Require Import base option list numbers.

Local Open Scope Z_scope.

(** ** Machine integers *)

(** [uint32_t] arithmetic. *)
Definition wrap32 (z : Z) : Z := z mod 2 ^ 32.

(** [size_t] / [uintptr_t] arithmetic. *)
Definition wrap64 (z : Z) : Z := z mod 2 ^ 64.

(** [static_cast<int32_t>(z)]: the two's-complement reading of the low 32
    bits of [z]. *)
Definition to_int32 (z : Z) : Z := (z + 2 ^ 31) mod 2 ^ 32 - 2 ^ 31.

Definition is_uint32 (z : Z) : Prop := 0 <= z < 2 ^ 32.
Definition is_int32 (z : Z) : Prop := - 2 ^ 31 <= z < 2 ^ 31.

(** Little-endian decoding of a byte buffer, as [memcpy] into an integer
    object does on the target. *)
Fixpoint le_decode (bs : list byte) : Z :=
  match bs with
  | [] => 0
  | b :: bs' => Z.of_N (Byte.to_N b) + 256 * le_decode bs'
  end.

(** ** common.hpp *)

Definition MAX_READ_SIZE : Z := 0x1000000.

Record MemoryRegion := {
  base_address : Z;
  size : Z;
  protection : Z;
  name : string
}.

(** ** common.cpp *)

(** [static_cast<uint8_t>(z)]. *)
Definition to_uint8 (z : Z) : byte :=
  match Byte.of_N (Z.to_N (z mod 256)) with
  | Some b => b
  | None => x00
  end.

(** [std::isxdigit] and [std::toupper] in the "C" locale. *)
Definition isxdigit (c : ascii) : bool :=
  let n := N_of_ascii c in
  ((48 <=? n) && (n <=? 57) || (65 <=? n) && (n <=? 70)
   || (97 <=? n) && (n <=? 102))%N.

Definition toupper (c : ascii) : ascii :=
  let n := N_of_ascii c in
  if ((97 <=? n) && (n <=? 122))%N then ascii_of_N (n - 32) else c.

(** The value of a hexadecimal digit, as [std::stoul] with base 16 reads
    it. *)
Definition hex_digit_value (c : ascii) : option Z :=
  let n := N_of_ascii c in
  if ((48 <=? n) && (n <=? 57))%N then Some (Z.of_N (n - 48))
  else if ((65 <=? n) && (n <=? 70))%N then Some (Z.of_N (n - 55))
  else if ((97 <=? n) && (n <=? 102))%N then Some (Z.of_N (n - 87))
  else None.

(** [std::stoul(str, nullptr, 16)] on a string that starts with neither
    white space, a sign nor a 0x prefix (the strings it is given here consist
    of characters kept by [isxdigit]): the value of the longest prefix of
    digits, or an exception ([None]) when there is no digit. *)
Fixpoint stoul16_digits (str : list ascii) (value : Z) : Z :=
  match str with
  | [] => value
  | c :: str' =>
    match hex_digit_value c with
    | Some digit => stoul16_digits str' (16 * value + digit)
    | None => value
    end
  end.

Definition stoul16 (str : list ascii) : option Z :=
  match str with
  | [] => None
  | c :: _ =>
    match hex_digit_value c with
    | Some _ => Some (stoul16_digits str 0)
    | None => None
    end
  end.

(** The first loop of [HexStringToBytes]: the hexadecimal digits of the
    input, in upper case. *)
Fixpoint clean_hex_of (hex : list ascii) : list ascii :=
  match hex with
  | [] => []
  | c :: hex' =>
    if isxdigit c then toupper c :: clean_hex_of hex' else clean_hex_of hex'
  end.

(** The second loop of [HexStringToBytes], two characters at a time;
    [None] is the exception caught around [std::stoul]. *)
Fixpoint parse_hex_pairs (clean_hex : list ascii) : option (list byte) :=
  match clean_hex with
  | c1 :: c2 :: rest =>
    if (Ascii.eqb c1 "?" && Ascii.eqb c2 "?")%bool then
      bytes ← parse_hex_pairs rest; Some (x00 :: bytes)
    else
      match stoul16 [c1; c2] with
      | Some value => bytes ← parse_hex_pairs rest; Some (to_uint8 value :: bytes)
      | None => None
      end
  | _ => Some []
  end.

(** [HexStringToBytes]. *)
Definition HexStringToBytes (hex : string) : list byte :=
  let clean_hex := clean_hex_of (list_ascii_of_string hex) in
  if negb (Z.of_nat (length clean_hex) mod 2 =? 0) then []
  else
    match parse_hex_pairs clean_hex with
    | Some bytes => bytes
    | None => []
    end.

(** Upper-case hexadecimal digit of a value below 16, and the two digits a
    byte is printed with under [std::hex], [std::uppercase], [std::setw(2)]
    and [std::setfill('0')]. *)
Definition upper_hex_digit (n : N) : ascii :=
  if (n <? 10)%N then ascii_of_N (48 + n) else ascii_of_N (55 + n).

Definition two_hex_digits (b : byte) : list ascii :=
  let n := Byte.to_N b in
  [upper_hex_digit (n / 16); upper_hex_digit (n mod 16)].

(** The loop of [BytesToHexString] from index [i] on. *)
Fixpoint BytesToHexString_loop (i : nat) (bytes : list byte) : list ascii :=
  match bytes with
  | [] => []
  | b :: bytes' =>
    (if (0 <? i)%nat then [" "%char] else [])
      ++ two_hex_digits b ++ BytesToHexString_loop (S i) bytes'
  end.

(** [BytesToHexString]. *)
Definition BytesToHexString (bytes : list byte) : string :=
  string_of_list_ascii (BytesToHexString_loop 0 bytes).

(** ** Data structures of the readers

    Each C++ struct is a record in a module of its own, so that the field
    names of the source can be kept. *)

Module DotNetBigIntegerData.
Record t := mk {
  sign : Z;               (* int32_t *)
  bits_ptr : Z;           (* uint32_t*, as an address *)
  bits_length : Z;        (* uint32_t *)
  bits_data : list Z;     (* std::vector<uint32_t> *)
  is_valid : bool
}.

(** A default-constructed object: the scalar members without an
    initializer hold indeterminate values, the vector is empty and
    [is_valid] is [false]. *)
Definition default (junk_sign junk_ptr junk_length : Z) : t :=
  {| sign := junk_sign; bits_ptr := junk_ptr; bits_length := junk_length;
     bits_data := []; is_valid := false |}.
End DotNetBigIntegerData.

Module BigIntegerContents.
Record t := mk {
  sign : Z;               (* int32_t *)
  bits_ptr : Z;           (* uint32_t*, as an address *)
  bits_length : Z;        (* uint32_t *)
  bits_data : list Z      (* std::vector<uint32_t> *)
}.
End BigIntegerContents.

Module SerializableBigInteger.
Record t := mk {
  bigint_value : DotNetBigIntegerData.t;
  raw_contents : BigIntegerContents.t;
  is_valid : bool
}.
End SerializableBigInteger.

Module ObscuredBigIntegerData.
Record t := mk {
  hidden_value : SerializableBigInteger.t;
  fake_value : SerializableBigInteger.t;
  current_crypto_key : Z; (* uint32_t *)
  fake_value_active : bool;
  inited : bool;
  is_valid : bool
}.
End ObscuredBigIntegerData.

(** ** ProcessManager (process_manager.hpp, process_manager.cpp) *)

Module ProcessManager.
(** [process_handle_] is the handle ([0] is [nullptr]).  [ReadProcessMemory]
    is the operating system's call for that handle: given an address and a
    size it either fails ([None]) or reports the bytes it copied, whose
    number is the call's [bytes_read].  A value of this type is the target
    at one moment: two calls with the same arguments get the same answer.
    A target that changes between calls is a [Live.Target] below. *)
Record t := mk {
  process_handle_ : Z;
  ReadProcessMemory : Z -> Z -> option (list byte)
}.

Definition IsAttached (pm : t) : bool := negb (process_handle_ pm =? 0).

(** [ProcessManager::ReadMemory]; the callers modelled here never pass a
    null buffer.  The result is the content of the buffer on success. *)
Definition ReadMemory (pm : t) (address size : Z) : option (list byte) :=
  if negb (IsAttached pm) then None
  else if size =? 0 then None
  else if MAX_READ_SIZE <? size then None
  else
    match ReadProcessMemory pm address size with
    | None => None
    | Some bytes =>
      if negb (Z.of_nat (length bytes) =? size) then None else Some bytes
    end.
End ProcessManager.

(** ** MemoryScanner (memory_scanner.hpp, memory_scanner.cpp) *)

(** What an execution of the pattern scan can come to: it returns its
    result vector, it indexes a vector past its end (undefined behaviour of
    [operator[]]), or it is still running when the fuel of the model is
    spent. *)
Inductive ScanFault :=
| RegionIndexOutOfBounds (index : Z)
| MaskIndexOutOfBounds (index : Z).

Inductive ScanOutcome :=
| ScanReturns (results : list Z)
| ScanFaults (fault : ScanFault)
| ScanOutOfFuel.

Module MemoryScanner.
Record t := mk { process_mgr_ : ProcessManager.t }.

Definition SCAN_ALIGNMENT : Z := 4.
Definition MIN_VALID_POINTER : Z := 0x10000.
Definition MAX_VALID_POINTER : Z := 0x7FFFFFFFFFFF.

(** [ReadValue<T>]: [sizeof_T] bytes copied into an object of type [T]. *)
Definition ReadValue (sc : t) (address sizeof_T : Z) : option (list byte) :=
  ProcessManager.ReadMemory (process_mgr_ sc) address sizeof_T.

Definition ReadInt32 (sc : t) (address : Z) : option Z :=
  bytes ← ReadValue sc address 4; Some (to_int32 (le_decode bytes)).

Definition ReadUInt32 (sc : t) (address : Z) : option Z :=
  bytes ← ReadValue sc address 4; Some (le_decode bytes).

Definition ReadUInt64 (sc : t) (address : Z) : option Z :=
  bytes ← ReadValue sc address 8; Some (le_decode bytes).

(** A [bool] object read from one byte: [false] for the byte 0 and [true]
    for the byte 1.  The language gives no value to a [bool] object that
    holds another byte; the definition then says [true], and no statement
    about the value of a flag is made for such a byte. *)
Definition ReadBool (sc : t) (address : Z) : option bool :=
  bytes ← ReadValue sc address 1; Some (negb (le_decode bytes =? 0)).

(** The loop of [ReadUInt32Array]: [n] elements remain, [i] is the loop
    index and [result] the vector built so far. *)
Fixpoint ReadUInt32Array_loop (sc : t) (address : Z) (i : Z) (n : nat)
         (result : list Z) : option (list Z) :=
  match n with
  | O => Some result
  | S n' =>
    match ReadUInt32 sc (wrap64 (address + i * 4)) with
    | None => None
    | Some value => ReadUInt32Array_loop sc address (i + 1) n' (result ++ [value])
    end
  end.

(** [ReadUInt32Array]; [result.reserve(count)] is written out in
    [Allocating.ReadUInt32Array]. *)
Definition ReadUInt32Array (sc : t) (address count : Z) : option (list Z) :=
  if count =? 0 then Some []
  else ReadUInt32Array_loop sc address 0 (Z.to_nat count) [].

(** [ReadBytes]: the buffer on success, the empty vector on failure.  The
    allocation of the buffer, which comes first, is written out in
    [Allocating.ReadBytes]. *)
Definition ReadBytes (sc : t) (address size : Z) : list byte :=
  match ProcessManager.ReadMemory (process_mgr_ sc) address size with
  | Some buffer => buffer
  | None => []
  end.

Definition IsValidScanRegion (region : MemoryRegion) : bool :=
  (0 <? size region) && negb (base_address region =? 0).

(** The inner loop of [ScanRegionForPattern] at candidate offset [i]:
    [rest] is the part of the pattern from index [j] on.  The result is
    the final value of [match], or the fault of an index past the end. *)
Fixpoint match_loop (region_data mask : list byte) (i : Z)
         (rest : list byte) (j : Z) : ScanFault + bool :=
  match rest with
  | [] => inr true
  | pattern_j :: rest' =>
    let skip : ScanFault + bool :=
      match mask with
      | [] => inr false
      | _ =>
        match mask !! Z.to_nat j with
        | Some mask_j => inr (Byte.eqb mask_j x00)
        | None => inl (MaskIndexOutOfBounds j)
        end
      end in
    match skip with
    | inl fault => inl fault
    | inr true => match_loop region_data mask i rest' (j + 1)
    | inr false =>
      let index := wrap64 (i + j) in
      match region_data !! Z.to_nat index with
      | None => inl (RegionIndexOutOfBounds index)
      | Some data =>
        if Byte.eqb data pattern_j
        then match_loop region_data mask i rest' (j + 1)
        else inr false
      end
    end
  end.

(** The outer loop of [ScanRegionForPattern]: [bound] is the value of
    [region_data.size() - pattern.size()] in [size_t] arithmetic. *)
Fixpoint scan_loop (fuel : nat) (region : MemoryRegion)
         (region_data pattern mask : list byte) (bound i : Z)
         (results : list Z) : ScanOutcome :=
  match fuel with
  | O => ScanOutOfFuel
  | S fuel' =>
    if i <=? bound then
      match match_loop region_data mask i pattern 0 with
      | inl fault => ScanFaults fault
      | inr matched =>
        scan_loop fuel' region region_data pattern mask bound
                  (wrap64 (i + SCAN_ALIGNMENT))
                  (if matched then results ++ [wrap64 (base_address region + i)]
                   else results)
      end
    else ScanReturns results
  end.

(** [MemoryScanner::ScanRegionForPattern]; [fuel] bounds the number of
    evaluations of the outer loop's condition. *)
Definition ScanRegionForPattern (fuel : nat) (sc : t) (region : MemoryRegion)
           (pattern mask : list byte) : ScanOutcome :=
  match pattern with
  | [] => ScanReturns []
  | _ =>
    let region_data := ReadBytes sc (base_address region) (size region) in
    match region_data with
    | [] => ScanReturns []
    | _ =>
      scan_loop fuel region region_data pattern mask
                (wrap64 (Z.of_nat (length region_data) - Z.of_nat (length pattern)))
                0 []
    end
  end.
(** [FollowPointer]: [ReadValue<MemoryAddress>]. *)
Definition FollowPointer (sc : t) (ptr_address : Z) : option Z :=
  bytes ← ReadValue sc ptr_address 8; Some (le_decode bytes).

(** The loop of [FollowPointerChain]: [current] and [chain] are the
    variables of the source, and a failed read leaves the loop. *)
Fixpoint FollowPointerChain_loop (sc : t) (current : Z) (offsets : list Z)
         (chain : list Z) : list Z :=
  match offsets with
  | [] => chain
  | offset :: offsets' =>
    match FollowPointer sc (wrap64 (current + offset)) with
    | None => chain
    | Some next => FollowPointerChain_loop sc next offsets' (chain ++ [next])
    end
  end.

Definition FollowPointerChain (sc : t) (base : Z) (offsets : list Z) : list Z :=
  FollowPointerChain_loop sc base offsets [].

(** [std::find(buffer.begin(), buffer.end(), 0)] as the distance from
    [begin], [None] for [end]. *)
Fixpoint find_null (buffer : list byte) : option nat :=
  match buffer with
  | [] => None
  | b :: buffer' =>
    if Byte.eqb b x00 then Some O
    else null_pos ← find_null buffer'; Some (S null_pos)
  end.

(** [ReadString]; the [std::string] is given by its bytes. *)
Definition ReadString (sc : t) (address max_length : Z) : list byte :=
  let buffer := ReadBytes sc address max_length in
  match buffer with
  | [] => []
  | _ =>
    match find_null buffer with
    | Some null_pos => take null_pos buffer
    | None => buffer
    end
  end.

(** [SetScanRange]: the region list it leaves in [scan_regions_]. *)
Definition SetScanRange (start end_ : Z) : list MemoryRegion :=
  [ {| base_address := start; size := wrap64 (end_ - start);
       protection := 0x04; name := EmptyString |} ].

(** The loop of [ScanForPattern] over [scan_regions_], which is passed
    along with the scanner; each region is scanned with [fuel]. *)
Fixpoint ScanForPattern_loop (fuel : nat) (sc : t) (regions : list MemoryRegion)
         (pattern mask : list byte) (results : list Z) : ScanOutcome :=
  match regions with
  | [] => ScanReturns results
  | region :: regions' =>
    if negb (IsValidScanRegion region)
    then ScanForPattern_loop fuel sc regions' pattern mask results
    else
      match ScanRegionForPattern fuel sc region pattern mask with
      | ScanReturns region_results =>
        ScanForPattern_loop fuel sc regions' pattern mask (results ++ region_results)
      | outcome => outcome
      end
  end.

Definition ScanForPattern (fuel : nat) (sc : t) (scan_regions_ : list MemoryRegion)
           (pattern mask : list byte) : ScanOutcome :=
  ScanForPattern_loop fuel sc scan_regions_ pattern mask [].

(** [ScanForPattern(const std::string&)]: the mask is the default [{}]. *)
Definition ScanForPattern_hex (fuel : nat) (sc : t) (scan_regions_ : list MemoryRegion)
           (hex_pattern : string) : ScanOutcome :=
  let pattern := HexStringToBytes hex_pattern in
  ScanForPattern fuel sc scan_regions_ pattern [].
End MemoryScanner.

(** The loop shared by the readers that recovers the limb count: the probe
    is walked from index [n - 1] down to [0]; the first non-zero element at
    index [i] gives [i + 1], and [0] is left when there is none. *)
Fixpoint actual_length_loop (probe_array : list Z) (n : nat) : Z :=
  match n with
  | O => 0
  | S i =>
    if negb ((probe_array !!! i) =? 0) then Z.of_nat i + 1
    else actual_length_loop probe_array i
  end.

(** ** DotNetBigIntegerReader (dotnet_biginteger_reader.cpp) *)

Module DotNetBigIntegerReader.
Import DotNetBigIntegerData.

Record t := mk { scanner_ : option MemoryScanner.t }.

Definition MAX_REASONABLE_BITS_LENGTH : Z := 10000.
Definition MIN_VALID_POINTER : Z := 0x10000.
Definition MAX_VALID_POINTER : Z := 0x7FFFFFFFFFFF.

Definition IsValidPointer (address : Z) : bool :=
  (MIN_VALID_POINTER <=? address) && (address <=? MAX_VALID_POINTER).

Definition IsValidBitsLength (length : Z) : bool :=
  length <=? MAX_REASONABLE_BITS_LENGTH.

(** [DotNetBigIntegerReader::ReadBigInteger]. *)
Definition ReadBigInteger (r : t) (base_address : Z) : option DotNetBigIntegerData.t :=
  match scanner_ r with
  | None => None
  | Some sc =>
    if negb (IsValidPointer base_address) then None
    else
      sign_opt ← MemoryScanner.ReadInt32 sc base_address;
      let bits_ptr_address := wrap64 (base_address + 4) in
      bits_ptr_opt ← MemoryScanner.ReadUInt64 sc bits_ptr_address;
      if negb (IsValidPointer bits_ptr_opt) then None
      else
        let max_probe_length := 32 in
        let bits_address := bits_ptr_opt in
        probe_array ← MemoryScanner.ReadUInt32Array sc bits_address max_probe_length;
        let actual_length := actual_length_loop probe_array (length probe_array) in
        let actual_length :=
          if (actual_length =? 0) && negb (sign_opt =? 0) then 1 else actual_length in
        if negb (IsValidBitsLength actual_length) then None
        else
          bits_data_opt ←
            (if 0 <? actual_length
             then MemoryScanner.ReadUInt32Array sc bits_address actual_length
             else Some []);
          Some {| sign := sign_opt; bits_ptr := bits_ptr_opt;
                  bits_length := actual_length; bits_data := bits_data_opt;
                  is_valid := true |}
  end.

(** [DotNetBigIntegerReader::ReadBigIntegerVerbose]: the same steps, each
    in a logging scope of its own. *)
Definition ReadBigIntegerVerbose (r : t) (base_address : Z)
  : option DotNetBigIntegerData.t :=
  match scanner_ r with
  | None => None
  | Some sc =>
    if negb (IsValidPointer base_address) then None
    else
      sign_opt ← MemoryScanner.ReadInt32 sc base_address;
      bits_ptr_opt ← MemoryScanner.ReadUInt64 sc (wrap64 (base_address + 4));
      if negb (IsValidPointer bits_ptr_opt) then None
      else
        probe_array ← MemoryScanner.ReadUInt32Array sc bits_ptr_opt 32;
        let actual_length := actual_length_loop probe_array (length probe_array) in
        let actual_length :=
          if (actual_length =? 0) && negb (sign_opt =? 0) then 1 else actual_length in
        if negb (IsValidBitsLength actual_length) then None
        else
          bits_data_opt ←
            (if 0 <? actual_length
             then MemoryScanner.ReadUInt32Array sc bits_ptr_opt actual_length
             else Some []);
          Some {| sign := sign_opt; bits_ptr := bits_ptr_opt;
                  bits_length := actual_length; bits_data := bits_data_opt;
                  is_valid := true |}
  end.
(** [DotNetBigIntegerReader::IsValidBigInteger]. *)
Definition IsValidBigInteger (r : t) (base_address : Z) : bool :=
  match ReadBigInteger r base_address with
  | Some result => is_valid result
  | None => false
  end.
End DotNetBigIntegerReader.

(** ** ObscuredBigIntegerReader (obscured_biginteger_reader.cpp) *)

Module ObscuredBigIntegerReader.

Record t := mk {
  scanner_ : option MemoryScanner.t;
  bigint_reader_ : DotNetBigIntegerReader.t
}.

(** The constructor: the big-integer reader shares the scanner. *)
Definition make (scanner : option MemoryScanner.t) : t :=
  {| scanner_ := scanner; bigint_reader_ := DotNetBigIntegerReader.mk scanner |}.

Definition MAX_REASONABLE_BITS_LENGTH : Z := 10000.
Definition MIN_VALID_POINTER : Z := 0x10000.
Definition MAX_VALID_POINTER : Z := 0x7FFFFFFFFFFF.

Definition IsValidPointer (address : Z) : bool :=
  (MIN_VALID_POINTER <=? address) && (address <=? MAX_VALID_POINTER).

(** [ObscuredBigIntegerReader::ReadBigIntegerContents].  A private method
    that dereferences [scanner_] without a test; [sc] is the scanner it
    points to. *)
Definition ReadBigIntegerContents (sc : MemoryScanner.t) (address : Z)
  : option BigIntegerContents.t :=
  let current_offset := address in
  sign ← MemoryScanner.ReadInt32 sc current_offset;
  let current_offset := wrap64 (current_offset + 4) in
  bits_ptr ← MemoryScanner.ReadUInt64 sc current_offset;
  if bits_ptr =? 0 then
    Some {| BigIntegerContents.sign := sign; BigIntegerContents.bits_ptr := bits_ptr;
            BigIntegerContents.bits_length := 0; BigIntegerContents.bits_data := [] |}
  else if negb (IsValidPointer bits_ptr) then None
  else
    let bits_address := bits_ptr in
    let max_probe_length := 32 in
    probe_array ← MemoryScanner.ReadUInt32Array sc bits_address max_probe_length;
    let actual_length := actual_length_loop probe_array (length probe_array) in
    let actual_length :=
      if (actual_length =? 0) && negb (sign =? 0) then 1 else actual_length in
    bits_data ←
      (if 0 <? actual_length
       then MemoryScanner.ReadUInt32Array sc bits_address actual_length
       else Some []);
    Some {| BigIntegerContents.sign := sign; BigIntegerContents.bits_ptr := bits_ptr;
            BigIntegerContents.bits_length := actual_length;
            BigIntegerContents.bits_data := bits_data |}.

Section Reading.
(** What the scalar members of a default-constructed
    [DotNetBigIntegerData] hold, and the value of
    [sizeof(SerializableBigInteger)], which the compiler fixes. *)
Variables junk_sign junk_ptr junk_length : Z.
Variable sizeof_SerializableBigInteger : Z.

(** [ObscuredBigIntegerReader::ReadSerializableBigInteger]. *)
Definition ReadSerializableBigInteger (r : t) (sc : MemoryScanner.t) (address : Z)
  : option SerializableBigInteger.t :=
  let bigint_data :=
    DotNetBigIntegerReader.ReadBigIntegerVerbose (bigint_reader_ r) address in
  let bigint_value :=
    match bigint_data with
    | Some data => data
    | None => DotNetBigIntegerData.default junk_sign junk_ptr junk_length
    end in
  match ReadBigIntegerContents sc address with
  | Some raw_contents =>
    Some {| SerializableBigInteger.bigint_value := bigint_value;
            SerializableBigInteger.raw_contents := raw_contents;
            SerializableBigInteger.is_valid := true |}
  | None => None
  end.

(** [ObscuredBigIntegerReader::ReadObscuredBigInteger]. *)
Definition ReadObscuredBigInteger (r : t) (base_address : Z)
  : option ObscuredBigIntegerData.t :=
  match scanner_ r with
  | None => None
  | Some sc =>
    if negb (IsValidPointer base_address) then None
    else
      let current_offset := base_address in
      hidden_value ← ReadSerializableBigInteger r sc current_offset;
      let current_offset := wrap64 (current_offset + sizeof_SerializableBigInteger) in
      fake_value ← ReadSerializableBigInteger r sc current_offset;
      let current_offset := wrap64 (current_offset + sizeof_SerializableBigInteger) in
      crypto_key ← MemoryScanner.ReadUInt32 sc current_offset;
      let current_offset := wrap64 (current_offset + 4) in
      fake_active ← MemoryScanner.ReadBool sc current_offset;
      let current_offset := wrap64 (current_offset + 1) in
      inited ← MemoryScanner.ReadBool sc current_offset;
      Some {| ObscuredBigIntegerData.hidden_value := hidden_value;
              ObscuredBigIntegerData.fake_value := fake_value;
              ObscuredBigIntegerData.current_crypto_key := crypto_key;
              ObscuredBigIntegerData.fake_value_active := fake_active;
              ObscuredBigIntegerData.inited := inited;
              ObscuredBigIntegerData.is_valid := true |}
  end.
(** [ObscuredBigIntegerReader::IsValidObscuredBigInteger]. *)
Definition IsValidObscuredBigInteger (r : t) (base_address : Z) : bool :=
  match ReadObscuredBigInteger r base_address with
  | Some result => ObscuredBigIntegerData.is_valid result
  | None => false
  end.
End Reading.

(** *** The shuffle cipher *)

(** [ObscuredBigIntegerReader::DecryptBigIntegerContents].  The sign is an
  [int32_t] XOR-ed with the key cast to [int32_t]; the limbs are
  [uint32_t] XOR-ed with the key itself.  [operator[]] is only used at
  indices below [count], where the total lookup [!!!] agrees with it. *)
Definition DecryptBigIntegerContents (encrypted : BigIntegerContents.t) (key : Z)
: BigIntegerContents.t :=
let result := encrypted in
let sign' := Z.lxor (BigIntegerContents.sign result) (to_int32 key) in
let bits := BigIntegerContents.bits_data result in
let bits' :=
  match bits with
  | [] => bits
  | _ =>
    let count := length bits in
    if (count =? 1)%nat then
      <[0%nat := Z.lxor (bits !!! 0%nat) key]> bits
    else if (1 <? count)%nat then
      let first := bits !!! 0%nat in
      let last := bits !!! (count - 1)%nat in
      <[(count - 1)%nat := Z.lxor first key]> (<[0%nat := Z.lxor last key]> bits)
    else bits
  end in
{| BigIntegerContents.sign := sign';
   BigIntegerContents.bits_ptr := BigIntegerContents.bits_ptr result;
   BigIntegerContents.bits_length := BigIntegerContents.bits_length result;
   BigIntegerContents.bits_data := bits' |}.

(** [ObscuredBigIntegerReader::DecryptSerializableBigInteger]: only the raw
  view is decrypted, [bigint_value] is the copy of the encrypted one. *)
Definition DecryptSerializableBigInteger (encrypted : SerializableBigInteger.t) (key : Z)
: SerializableBigInteger.t :=
let result := encrypted in
{| SerializableBigInteger.bigint_value := SerializableBigInteger.bigint_value result;
   SerializableBigInteger.raw_contents :=
     DecryptBigIntegerContents (SerializableBigInteger.raw_contents encrypted) key;
   SerializableBigInteger.is_valid := SerializableBigInteger.is_valid result |}.

(** [ObscuredBigIntegerReader::DecryptHiddenValue]. *)
Definition DecryptHiddenValue (obscured : ObscuredBigIntegerData.t)
: option DotNetBigIntegerData.t :=
if negb (ObscuredBigIntegerData.is_valid obscured) then None
else
  let decrypted_serializable :=
    DecryptSerializableBigInteger (ObscuredBigIntegerData.hidden_value obscured)
                                  (ObscuredBigIntegerData.current_crypto_key obscured) in
  Some (SerializableBigInteger.bigint_value decrypted_serializable).

End ObscuredBigIntegerReader.

(** The two views an overlay read delivers to its caller: the raw tuple
    is present when the read returns a value, the big-integer view when
    moreover the [bigint_value] it carries was filled in by a successful
    read ([is_valid]; a default-constructed one has [is_valid = false]). *)
Definition asRaw (result : option SerializableBigInteger.t)
  : option BigIntegerContents.t :=
  s ← result; Some (SerializableBigInteger.raw_contents s).

Definition asValue (result : option SerializableBigInteger.t)
  : option DotNetBigIntegerData.t :=
  s ← result;
  if DotNetBigIntegerData.is_valid (SerializableBigInteger.bigint_value s)
  then Some (SerializableBigInteger.bigint_value s)
  else None.


(** Vocabulary for the pattern scan.  Position [j] of the pattern has to
    match when there is no mask or the mask byte at [j] is not zero; the
    window of the buffer at offset [i] matches when it agrees with the
    pattern at every such position. *)
Definition must_match (mask : list byte) (j : nat) : Prop :=
  mask = [] \/ exists mask_j, mask !! j = Some mask_j /\ mask_j <> x00.

Definition window_matches (region_data pattern mask : list byte) (i : Z) : Prop :=
  forall (j : nat) (pattern_j : byte),
    pattern !! j = Some pattern_j -> must_match mask j ->
    region_data !! (Z.to_nat i + j)%nat = Some pattern_j.

(** The value of [match] after the inner loop at offset [i], when the loop
    runs without a fault. *)
Definition matched_at (region_data pattern mask : list byte) (i : Z) : bool :=
  match MemoryScanner.match_loop region_data mask i pattern 0 with
  | inr true => true
  | _ => false
  end.

(** The values the loop variable [i] takes in [count] iterations from [i]. *)
Fixpoint offsets_from (i : Z) (count : nat) : list Z :=
  match count with
  | O => []
  | S count' => i :: offsets_from (i + MemoryScanner.SCAN_ALIGNMENT) count'
  end.

(** The number of iterations of the outer loop when the bound does not
    wrap around. *)
Definition iterations (region_data pattern : list byte) : nat :=
  S (Z.to_nat ((Z.of_nat (length region_data) - Z.of_nat (length pattern)) / 4)).

(** * Concrete inputs *)

(** A target process with one readable block of memory: [content] mapped
    at address [base].  A read succeeds when it lies inside the block. *)
Definition byte_of_Z (z : Z) : byte :=
  match Byte.of_N (Z.to_N (z mod 256)) with
  | Some b => b
  | None => x00
  end.

Fixpoint le_encode (n : nat) (z : Z) : list byte :=
  match n with
  | O => []
  | S n' => byte_of_Z z :: le_encode n' (z / 256)
  end.

Definition mapped_block (base : Z) (content : list byte) (address size : Z)
  : option (list byte) :=
  if (base <=? address) && (address + size <=? base + Z.of_nat (length content))
  then Some (take (Z.to_nat size) (drop (Z.to_nat (address - base)) content))
  else None.

Definition scanner_of_block (base : Z) (content : list byte) : MemoryScanner.t :=
  MemoryScanner.mk (ProcessManager.mk 1 (mapped_block base content)).

(** A big-integer structure at 0x10000 with sign word 0 and a null
    magnitude pointer. *)
Definition zero_structure : MemoryScanner.t :=
  scanner_of_block 0x10000 (le_encode 4 0 ++ le_encode 8 0).

(** A big-integer structure at 0x10000 with sign word 1 whose magnitude
    pointer 0x10010 leads to 32 zero limbs. *)
Definition all_zero_probe : MemoryScanner.t :=
  scanner_of_block 0x10000
    (le_encode 4 1 ++ le_encode 8 0x10010 ++ le_encode 4 0 ++ replicate 128 x00).

(** An obscured record at 0x10100 for [sizeof(SerializableBigInteger) = 112]:
    two limb arrays at 0x10000 and 0x10080, the hidden value (sign 1, limb 5),
    the decoy (sign 1, limb 7), the key 0xFF and the two flag bytes.
    [truncated_record_memory] is the same block without its last byte, the
    one that holds [inited]. *)
Definition record_memory : list byte :=
  le_encode 4 5 ++ replicate 124 x00
  ++ le_encode 4 7 ++ replicate 124 x00
  ++ le_encode 4 1 ++ le_encode 8 0x10000 ++ replicate 100 x00
  ++ le_encode 4 1 ++ le_encode 8 0x10080 ++ replicate 100 x00
  ++ le_encode 4 0xFF ++ [x01; x01].

Definition full_record : MemoryScanner.t := scanner_of_block 0x10000 record_memory.

Definition truncated_record : MemoryScanner.t :=
  scanner_of_block 0x10000 (take 485 record_memory).

(** Scenario F: a region of 72 bytes at 0x10000 whose only occurrence of
    DE AD BE EF is at offset 0x40. *)
Definition dead_beef : list byte := [xde; xad; xbe; xef].

Definition scenario_F_bytes : list byte :=
  replicate 64 x00 ++ dead_beef ++ replicate 4 x00.

Definition scenario_F : MemoryScanner.t := scanner_of_block 0x10000 scenario_F_bytes.

Definition scenario_F_region : MemoryRegion :=
  {| base_address := 0x10000; size := 72; protection := 4; name := EmptyString |}.

(** A region of 12 bytes whose window at offset 4 is DE 11 22 EF, and a mask
    that lets the two middle bytes of DE AD BE EF be anything. *)
Definition masked_bytes : list byte :=
  replicate 4 x00 ++ [xde; x11; x22; xef] ++ replicate 4 x00.

Definition masked_scanner : MemoryScanner.t := scanner_of_block 0x10000 masked_bytes.

Definition masked_region : MemoryRegion :=
  {| base_address := 0x10000; size := 12; protection := 4; name := EmptyString |}.

Definition first_and_last : list byte := [x01; x00; x00; x01].

(** A region of one byte, DE, at 0x10000. *)
Definition one_byte_scanner : MemoryScanner.t := scanner_of_block 0x10000 [xde].

Definition one_byte_region : MemoryRegion :=
  {| base_address := 0x10000; size := 1; protection := 4; name := EmptyString |}.

(** A record as [ReadObscuredBigInteger] builds it when both views of the
    hidden value read sign 1 and the single limb 5, under key 0xFF. *)
Definition encrypted_five : SerializableBigInteger.t :=
  {| SerializableBigInteger.bigint_value :=
       DotNetBigIntegerData.mk 1 0x20000 1 [5] true;
     SerializableBigInteger.raw_contents := BigIntegerContents.mk 1 0x20000 1 [5];
     SerializableBigInteger.is_valid := true |}.

Definition record_five : ObscuredBigIntegerData.t :=
  {| ObscuredBigIntegerData.hidden_value := encrypted_five;
     ObscuredBigIntegerData.fake_value := encrypted_five;
     ObscuredBigIntegerData.current_crypto_key := 0xFF;
     ObscuredBigIntegerData.fake_value_active := false;
     ObscuredBigIntegerData.inited := true;
     ObscuredBigIntegerData.is_valid := true |}.

(** The memory of [full_record] behind a null process handle: a scanner
    that is not attached to any process. *)
Definition detached_scanner : MemoryScanner.t :=
  MemoryScanner.mk (ProcessManager.mk 0 (mapped_block 0x10000 record_memory)).

(** The limb count the readers settle on for a sign word and a probe: the
    result of the backward walk, raised to 1 when it is 0 and the sign is
    not. *)
Definition recovered_length (sign : Z) (probe_array : list Z) : Z :=
  let actual_length := actual_length_loop probe_array (length probe_array) in
  if (actual_length =? 0) && negb (sign =? 0) then 1 else actual_length.

(** The hidden value of [full_record] as [ReadBigInteger] returns it at
    0x10100. *)
Definition hidden_five : DotNetBigIntegerData.t :=
  DotNetBigIntegerData.mk 1 0x10000 1 [5] true.

(** A region of 32 MiB at 0x10000, twice what [ReadMemory] accepts. *)
Definition oversized_region : MemoryRegion :=
  {| base_address := 0x10000; size := 0x2000000; protection := 4;
     name := EmptyString |}.

(** A region without a base address, as [SetScanRange(0, 72)] leaves it. *)
Definition null_based_region : MemoryRegion :=
  {| base_address := 0; size := 72; protection := 4; name := EmptyString |}.

(** A mask of two bytes, shorter than the pattern DE AD BE EF. *)
Definition short_mask : list byte := [x01; x00].

(** A chain of two pointers: 0x10000 holds 0x10010, 0x10018 (0x10010 + 8)
    holds 0x10020, and 0x10020 is the end of the mapped block. *)
Definition pointer_chain_memory : MemoryScanner.t :=
  scanner_of_block 0x10000
    (le_encode 8 0x10010 ++ replicate 16 x00 ++ le_encode 8 0x10020).

(** The text "Hi" followed by a terminator and two more bytes. *)
Definition text_memory : MemoryScanner.t :=
  scanner_of_block 0x10000 [x48; x69; x00; x41; x42].

(** * A target that changes while it is read

    The definitions above read the target through one [ProcessManager.t]: a
    read of one location gives the same answer each time it is made.  The
    target is a running process, so the answer of [ReadProcessMemory] may
    depend on when the call is made.  In this module every call of
    [ReadMemory] is counted, and the target is given by the process manager
    that the n-th call finds.  The readers of a big-integer structure are
    written out again over such a target, the number of calls made being
    threaded through them. *)

Module Live.

(** [target n] is the process manager as the call number [n] of
    [ReadMemory] finds it. *)
Definition Target : Type := nat -> ProcessManager.t.

(** A reading operation takes the number of calls made before it and
    gives its result, [None] for [std::nullopt], with the number of calls
    made after it. *)
Definition Read (A : Type) : Type := nat -> option A * nat.

Definition ret {A : Type} (a : A) : Read A := fun n => (Some a, n).

Definition nullopt {A : Type} : Read A := fun n => (None, n).

(** A step whose failure is returned at once. *)
Definition bind {A B : Type} (m : Read A) (f : A -> Read B) : Read B :=
  fun n =>
    match m n with
    | (Some a, n') => f a n'
    | (None, n') => (None, n')
    end.

(** [MemoryScanner::ReadValue<T>]: one call of [ReadMemory]. *)
Definition ReadValue (target : Target) (address sizeof_T : Z) : Read (list byte) :=
  fun n => (ProcessManager.ReadMemory (target n) address sizeof_T, S n).

Definition ReadInt32 (target : Target) (address : Z) : Read Z :=
  bind (ReadValue target address 4) (fun bytes => ret (to_int32 (le_decode bytes))).

Definition ReadUInt32 (target : Target) (address : Z) : Read Z :=
  bind (ReadValue target address 4) (fun bytes => ret (le_decode bytes)).

Definition ReadUInt64 (target : Target) (address : Z) : Read Z :=
  bind (ReadValue target address 8) (fun bytes => ret (le_decode bytes)).

Fixpoint ReadUInt32Array_loop (target : Target) (address : Z) (i : Z) (n : nat)
         (result : list Z) : Read (list Z) :=
  match n with
  | O => ret result
  | S n' =>
    bind (ReadUInt32 target (wrap64 (address + i * 4)))
         (fun value => ReadUInt32Array_loop target address (i + 1) n' (result ++ [value]))
  end.

Definition ReadUInt32Array (target : Target) (address count : Z) : Read (list Z) :=
  if count =? 0 then ret []
  else ReadUInt32Array_loop target address 0 (Z.to_nat count) [].

(** [DotNetBigIntegerReader::ReadBigInteger]; [scanner_] is the reader's
    scanner, null or the one attached to the target. *)
Definition ReadBigInteger (scanner_ : option Target) (base_address : Z)
  : Read DotNetBigIntegerData.t :=
  match scanner_ with
  | None => nullopt
  | Some target =>
    if negb (DotNetBigIntegerReader.IsValidPointer base_address) then nullopt
    else
      bind (ReadInt32 target base_address) (fun sign_opt =>
      let bits_ptr_address := wrap64 (base_address + 4) in
      bind (ReadUInt64 target bits_ptr_address) (fun bits_ptr_opt =>
      if negb (DotNetBigIntegerReader.IsValidPointer bits_ptr_opt) then nullopt
      else
        let max_probe_length := 32 in
        let bits_address := bits_ptr_opt in
        bind (ReadUInt32Array target bits_address max_probe_length) (fun probe_array =>
        let actual_length := actual_length_loop probe_array (length probe_array) in
        let actual_length :=
          if (actual_length =? 0) && negb (sign_opt =? 0) then 1 else actual_length in
        if negb (DotNetBigIntegerReader.IsValidBitsLength actual_length) then nullopt
        else
          bind (if 0 <? actual_length
                then ReadUInt32Array target bits_address actual_length
                else ret [])
               (fun bits_data_opt =>
                  ret (DotNetBigIntegerData.mk sign_opt bits_ptr_opt actual_length
                                               bits_data_opt true)))))
  end.

(** [DotNetBigIntegerReader::ReadBigIntegerVerbose]: the same steps, each
    in a logging scope of its own. *)
Definition ReadBigIntegerVerbose (scanner_ : option Target) (base_address : Z)
  : Read DotNetBigIntegerData.t :=
  match scanner_ with
  | None => nullopt
  | Some target =>
    if negb (DotNetBigIntegerReader.IsValidPointer base_address) then nullopt
    else
      bind (ReadInt32 target base_address) (fun sign_opt =>
      bind (ReadUInt64 target (wrap64 (base_address + 4))) (fun bits_ptr_opt =>
      if negb (DotNetBigIntegerReader.IsValidPointer bits_ptr_opt) then nullopt
      else
        bind (ReadUInt32Array target bits_ptr_opt 32) (fun probe_array =>
        let actual_length := actual_length_loop probe_array (length probe_array) in
        let actual_length :=
          if (actual_length =? 0) && negb (sign_opt =? 0) then 1 else actual_length in
        if negb (DotNetBigIntegerReader.IsValidBitsLength actual_length) then nullopt
        else
          bind (if 0 <? actual_length
                then ReadUInt32Array target bits_ptr_opt actual_length
                else ret [])
               (fun bits_data_opt =>
                  ret (DotNetBigIntegerData.mk sign_opt bits_ptr_opt actual_length
                                               bits_data_opt true)))))
  end.

(** [ObscuredBigIntegerReader::ReadBigIntegerContents]. *)
Definition ReadBigIntegerContents (target : Target) (address : Z)
  : Read BigIntegerContents.t :=
  bind (ReadInt32 target address) (fun sign =>
  bind (ReadUInt64 target (wrap64 (address + 4))) (fun bits_ptr =>
  if bits_ptr =? 0 then ret (BigIntegerContents.mk sign bits_ptr 0 [])
  else if negb (ObscuredBigIntegerReader.IsValidPointer bits_ptr) then nullopt
  else
    bind (ReadUInt32Array target bits_ptr 32) (fun probe_array =>
    let actual_length := actual_length_loop probe_array (length probe_array) in
    let actual_length :=
      if (actual_length =? 0) && negb (sign =? 0) then 1 else actual_length in
    bind (if 0 <? actual_length
          then ReadUInt32Array target bits_ptr actual_length
          else ret [])
         (fun bits_data =>
            ret (BigIntegerContents.mk sign bits_ptr actual_length bits_data))))).

(** [ObscuredBigIntegerReader::ReadSerializableBigInteger] for a reader made
    by the constructor, whose big-integer reader shares its scanner: the
    big-integer read comes first and its failure is only logged; the raw
    read follows, and its failure is returned. *)
Definition ReadSerializableBigInteger (junk_sign junk_ptr junk_length : Z)
           (target : Target) (address : Z) : Read SerializableBigInteger.t :=
  fun n =>
    let (bigint_data, n) := ReadBigIntegerVerbose (Some target) address n in
    let bigint_value :=
      match bigint_data with
      | Some data => data
      | None => DotNetBigIntegerData.default junk_sign junk_ptr junk_length
      end in
    match ReadBigIntegerContents target address n with
    | (Some raw_contents, n) =>
      (Some {| SerializableBigInteger.bigint_value := bigint_value;
               SerializableBigInteger.raw_contents := raw_contents;
               SerializableBigInteger.is_valid := true |}, n)
    | (None, n) => (None, n)
    end.

(** A target that answers every call as [pm] does. *)
Definition stable (target : Target) (pm : ProcessManager.t) : Prop :=
  forall n, target n = pm.

End Live.

(** * Allocation

    [std::vector]'s constructor and [reserve] throw ([std::length_error]
    above [max_size()], [std::bad_alloc] when the allocator refuses), and
    [ReadBytes] and [ReadUInt32Array] allocate before they read.  The
    definitions above leave the allocation out, which is right whenever it is
    granted.  Here it is written out for the buffers whose size the caller
    chooses: [grants bytes] says whether a request of [bytes] bytes is
    granted, and a function either [Throws] or [Returns] what the definition
    above returns.  The storage of what a function builds from the bytes it
    has read (the string of [ReadString], the matches of a scan) is bounded
    by [MAX_READ_SIZE] and is taken as granted. *)

Inductive Thrown (A : Type) : Type :=
| Throws
| Returns (a : A).

Arguments Throws {A}.
Arguments Returns {A} a.

Module Allocating.
Section Allocator.

Variable grants : Z -> bool.

(** [MemoryScanner::ReadBytes]: [ByteVector buffer(size)] comes before the
    call of [ReadMemory]; a buffer of size 0 needs no allocation. *)
Definition ReadBytes (sc : MemoryScanner.t) (address size : Z)
  : Thrown (list byte) :=
  if (size =? 0) || grants size
  then Returns (MemoryScanner.ReadBytes sc address size)
  else Throws.

(** [MemoryScanner::ReadString]. *)
Definition ReadString (sc : MemoryScanner.t) (address max_length : Z)
  : Thrown (list byte) :=
  match ReadBytes sc address max_length with
  | Throws => Throws
  | Returns _ => Returns (MemoryScanner.ReadString sc address max_length)
  end.

(** [MemoryScanner::ReadUInt32Array]: a count of 0 returns at once,
    otherwise [result.reserve(count)] asks for [4 * count] bytes before the
    first element is read. *)
Definition ReadUInt32Array (sc : MemoryScanner.t) (address count : Z)
  : Thrown (option (list Z)) :=
  if (count =? 0) || grants (4 * count)
  then Returns (MemoryScanner.ReadUInt32Array sc address count)
  else Throws.

(** [MemoryScanner::ScanRegionForPattern]: the test for an empty pattern
    comes before [ReadBytes]. *)
Definition ScanRegionForPattern (fuel : nat) (sc : MemoryScanner.t)
           (region : MemoryRegion) (pattern mask : list byte) : Thrown ScanOutcome :=
  match pattern with
  | [] => Returns (ScanReturns [])
  | _ =>
    match ReadBytes sc (base_address region) (size region) with
    | Throws => Throws
    | Returns _ =>
      Returns (MemoryScanner.ScanRegionForPattern fuel sc region pattern mask)
    end
  end.

(** The loop of [MemoryScanner::ScanForPattern]; an exception of a region
    scan leaves it. *)
Fixpoint ScanForPattern_loop (fuel : nat) (sc : MemoryScanner.t)
         (regions : list MemoryRegion) (pattern mask : list byte)
         (results : list Z) : Thrown ScanOutcome :=
  match regions with
  | [] => Returns (ScanReturns results)
  | region :: regions' =>
    if negb (MemoryScanner.IsValidScanRegion region)
    then ScanForPattern_loop fuel sc regions' pattern mask results
    else
      match ScanRegionForPattern fuel sc region pattern mask with
      | Returns (ScanReturns region_results) =>
        ScanForPattern_loop fuel sc regions' pattern mask (results ++ region_results)
      | outcome => outcome
      end
  end.

Definition ScanForPattern (fuel : nat) (sc : MemoryScanner.t)
           (scan_regions_ : list MemoryRegion) (pattern mask : list byte)
  : Thrown ScanOutcome :=
  ScanForPattern_loop fuel sc scan_regions_ pattern mask [].

End Allocator.
End Allocating.

(** A target that answers the first [calls] calls of [ReadMemory] as [pm]
    does and is gone afterwards: every later call fails. *)
Definition exits_after (calls : nat) (pm : ProcessManager.t) : Live.Target :=
  fun n =>
    if (n <? calls)%nat then pm
    else ProcessManager.mk (ProcessManager.process_handle_ pm) (fun _ _ => None).

(** The target of [full_record] for as long as the big-integer read of the
    hidden value at 0x10100 takes: the sign, the pointer, 32 limbs of the
    probe and one limb read again, 35 calls. *)
Definition exits_after_value_view : Live.Target :=
  exits_after 35 (MemoryScanner.process_mgr_ full_record).

(** The target of [full_record] at every call. *)
Definition steady_record : Live.Target :=
  fun _ => MemoryScanner.process_mgr_ full_record.

(** An allocator that grants requests of up to 1 GiB. *)
Definition grants_1GiB (bytes : Z) : bool :=
  (0 <=? bytes) && (bytes <=? 0x40000000).

(** Memory holding the flag bytes 00 and 01. *)
Definition flag_memory : MemoryScanner.t := scanner_of_block 0x10000 [x00; x01].

(** A big-integer structure below the range of valid pointers: the sign
    word -1 and a null magnitude pointer, mapped at 0x100. *)
Definition low_structure : MemoryScanner.t :=
  scanner_of_block 0x100 (le_encode 4 0xFFFFFFFF ++ le_encode 8 0).

(** The memory of [full_record] after the target has overwritten the limb
    of the hidden value: 9 where 5 was. *)
Definition rewritten_record_memory : list byte :=
  le_encode 4 9 ++ drop 4 record_memory.

(** A target that answers the first [calls] calls of [ReadMemory] from the
    memory of [full_record] and the later ones from the rewritten memory. *)
Definition rewritten_after (calls : nat) : Live.Target :=
  fun n =>
    if (n <? calls)%nat then MemoryScanner.process_mgr_ full_record
    else ProcessManager.mk 1 (mapped_block 0x10000 rewritten_record_memory).

(** The limb is overwritten after the probe of the first read of the
    hidden value (the sign, the pointer and 32 limbs: 34 calls), and after
    the whole of that read (35 calls). *)
Definition rewritten_after_probe : Live.Target := rewritten_after 34.

Definition rewritten_between_views : Live.Target := rewritten_after 35.

(** * Properties *)

(** ** Machine integers *)

Lemma wrap32_small z : is_uint32 z -> wrap32 z = z.
Proof. unfold is_uint32, wrap32. intros H. apply Z.mod_small. lia. Qed.

Lemma wrap64_small z : 0 <= z < 2 ^ 64 -> wrap64 z = z.
Proof. unfold wrap64. intros H. apply Z.mod_small. lia. Qed.

Lemma to_int32_range z : is_int32 (to_int32 z).
Proof.
  unfold is_int32, to_int32.
  pose proof (Z.mod_pos_bound (z + 2 ^ 31) (2 ^ 32) ltac:(lia)). lia.
Qed.

Lemma wrap32_to_int32 z : wrap32 (to_int32 z) = wrap32 z.
Proof.
  unfold wrap32, to_int32.
  rewrite Zminus_mod, Zmod_mod, <- Zminus_mod. f_equal. lia.
Qed.

Lemma wrap32_lxor a b : wrap32 (Z.lxor a b) = Z.lxor (wrap32 a) (wrap32 b).
Proof.
  unfold wrap32. apply Z.bits_inj'. intros n Hn.
  rewrite Z.lxor_spec.
  destruct (Z.lt_ge_cases n 32) as [Hlt | Hge].
  - rewrite !Z.mod_pow2_bits_low by lia. apply Z.lxor_spec.
  - rewrite !Z.mod_pow2_bits_high by lia. reflexivity.
Qed.

Lemma lxor_cancel a k : Z.lxor (Z.lxor a k) k = a.
Proof. rewrite Z.lxor_assoc, Z.lxor_nilpotent. apply Z.lxor_0_r. Qed.

(** ** The shuffle cipher *)

Section ShuffleCipher.
Import ObscuredBigIntegerReader.

Implicit Types (t : BigIntegerContents.t) (key : Z) (mid : list Z).

Lemma decrypt_sign t key :
  BigIntegerContents.sign (DecryptBigIntegerContents t key)
  = Z.lxor (BigIntegerContents.sign t) (to_int32 key).
Proof. reflexivity. Qed.

Lemma decrypt_bits_ptr t key :
  BigIntegerContents.bits_ptr (DecryptBigIntegerContents t key)
  = BigIntegerContents.bits_ptr t.
Proof. reflexivity. Qed.

Lemma decrypt_bits_length t key :
  BigIntegerContents.bits_length (DecryptBigIntegerContents t key)
  = BigIntegerContents.bits_length t.
Proof. reflexivity. Qed.

Lemma decrypt_limbs_empty t key :
  BigIntegerContents.bits_data t = [] ->
  BigIntegerContents.bits_data (DecryptBigIntegerContents t key) = [].
Proof. unfold DecryptBigIntegerContents. simpl. intros ->. reflexivity. Qed.

Lemma decrypt_limbs_single t key x :
  BigIntegerContents.bits_data t = [x] ->
  BigIntegerContents.bits_data (DecryptBigIntegerContents t key) = [Z.lxor x key].
Proof. unfold DecryptBigIntegerContents. simpl. intros ->. reflexivity. Qed.

Lemma decrypt_limbs_many t key first mid last :
  BigIntegerContents.bits_data t = first :: mid ++ [last] ->
  BigIntegerContents.bits_data (DecryptBigIntegerContents t key)
  = Z.lxor last key :: mid ++ [Z.lxor first key].
Proof.
  unfold DecryptBigIntegerContents. simpl. intros ->.
  assert (Hlen : length (first :: mid ++ [last]) = S (S (length mid))).
  { simpl. rewrite length_app. simpl. lia. }
  rewrite Hlen.
  replace (S (S (length mid)) =? 1)%nat with false
    by (symmetry; apply Nat.eqb_neq; lia).
  replace (1 <? S (S (length mid)))%nat with true
    by (symmetry; apply Nat.ltb_lt; lia).
  replace (S (S (length mid)) - 1)%nat with (S (length mid)) by lia.
  simpl.
  assert (Hlast : (first :: mid ++ [last]) !!! S (length mid) = last).
  { apply list_lookup_total_correct. simpl.
    rewrite lookup_app_r by lia. rewrite Nat.sub_diag. reflexivity. }
  change ((first :: mid ++ [last]) !!! S (length mid))
    with ((mid ++ [last]) !!! length mid) in Hlast.
  rewrite Hlast. f_equal.
  replace (length mid) with (length mid + 0)%nat at 1 by lia.
  rewrite insert_app_r. reflexivity.
Qed.

(** Every limb sequence has one of the three shapes of the case analysis. *)
Lemma limbs_shape (l : list Z) :
  l = [] \/ (exists x, l = [x]) \/ (exists first mid last, l = first :: mid ++ [last]).
Proof.
  destruct l as [| first l']; [left; reflexivity | right].
  destruct l' as [| last mid _] using rev_ind.
  - left. exists first. reflexivity.
  - right. exists first, mid, last. reflexivity.
Qed.

End ShuffleCipher.

Section ShuffleCipherLaws.
Import ObscuredBigIntegerReader.

Lemma contents_eq (a b : BigIntegerContents.t) :
  BigIntegerContents.sign a = BigIntegerContents.sign b ->
  BigIntegerContents.bits_ptr a = BigIntegerContents.bits_ptr b ->
  BigIntegerContents.bits_length a = BigIntegerContents.bits_length b ->
  BigIntegerContents.bits_data a = BigIntegerContents.bits_data b ->
  a = b.
Proof. destruct a, b. simpl. intros -> -> -> ->. reflexivity. Qed.

Lemma decrypt_limbs_twice (t : BigIntegerContents.t) (key : Z) :
  BigIntegerContents.bits_data
    (DecryptBigIntegerContents (DecryptBigIntegerContents t key) key)
  = BigIntegerContents.bits_data t.
Proof.
  destruct (limbs_shape (BigIntegerContents.bits_data t))
    as [Hnil | [[x Hone] | (first & mid & last & Hmany)]].
  - rewrite Hnil. apply decrypt_limbs_empty, decrypt_limbs_empty, Hnil.
  - rewrite Hone.
    rewrite (decrypt_limbs_single _ key (Z.lxor x key)).
    + f_equal. apply lxor_cancel.
    + apply decrypt_limbs_single, Hone.
  - rewrite Hmany.
    rewrite (decrypt_limbs_many _ key (Z.lxor last key) mid (Z.lxor first key)).
    + rewrite !lxor_cancel. reflexivity.
    + apply decrypt_limbs_many, Hmany.
Qed.

(** C1.  The shuffle cipher is an involution: decrypting twice with the
    same key gives back the raw field tuple, whatever its sign word, its
    limb sequence (of any length) and the key. *)
Theorem decrypt_involution (t : BigIntegerContents.t) (key : Z) :
  DecryptBigIntegerContents (DecryptBigIntegerContents t key) key = t.
Proof.
  apply contents_eq.
  - rewrite !decrypt_sign. apply lxor_cancel.
  - reflexivity.
  - reflexivity.
  - apply decrypt_limbs_twice.
Qed.

(** The decrypted sign is again an [int32_t] and the decrypted limbs are
    again [uint32_t] values, so no wrap-around is lost in the model. *)
Lemma int32_shiftr z : is_int32 z <-> Z.shiftr z 31 = 0 \/ Z.shiftr z 31 = -1.
Proof.
  unfold is_int32. rewrite Z.shiftr_div_pow2 by lia.
  pose proof (Z.div_mod z (2 ^ 31) ltac:(lia)) as Hdm.
  pose proof (Z.mod_pos_bound z (2 ^ 31) ltac:(lia)) as Hm.
  split; lia.
Qed.

Lemma lxor_int32 a b : is_int32 a -> is_int32 b -> is_int32 (Z.lxor a b).
Proof.
  rewrite !int32_shiftr, Z.shiftr_lxor.
  intros [-> | ->] [-> | ->]; simpl; auto.
Qed.

Lemma decrypt_sign_int32 (t : BigIntegerContents.t) (key : Z) :
  is_int32 (BigIntegerContents.sign t) ->
  is_int32 (BigIntegerContents.sign (DecryptBigIntegerContents t key)).
Proof. intros H. rewrite decrypt_sign. apply lxor_int32; [exact H | apply to_int32_range]. Qed.

End ShuffleCipherLaws.

Section ShuffleCipherCases.
Import ObscuredBigIntegerReader.

Lemma decrypt_limbs_length (t : BigIntegerContents.t) (key : Z) :
  length (BigIntegerContents.bits_data (DecryptBigIntegerContents t key))
  = length (BigIntegerContents.bits_data t).
Proof.
  destruct (limbs_shape (BigIntegerContents.bits_data t))
    as [Hnil | [[x Hone] | (first & mid & last & Hmany)]].
  - rewrite (decrypt_limbs_empty _ _ Hnil), Hnil. reflexivity.
  - rewrite (decrypt_limbs_single _ _ _ Hone), Hone. reflexivity.
  - rewrite (decrypt_limbs_many _ _ _ _ _ Hmany), Hmany.
    simpl. rewrite !length_app. reflexivity.
Qed.

(** C3.  The case analysis of the shuffle cipher.  The decrypted sign is
    the sign XOR the key on the 32-bit pattern.  An empty limb sequence
    stays empty; a single limb is XOR-ed with the key; with [n > 1] limbs
    the first output limb is the last input limb XOR the key, the last
    output limb is the first input limb XOR the key, and the limbs in
    between are unchanged.  Limbs [1, 2, 3] under key 0xFF become
    [0xFC, 0x02, 0xFE]. *)
Theorem decrypt_case_analysis (t : BigIntegerContents.t) (key : Z) :
  let limbs := BigIntegerContents.bits_data t in
  let limbs' := BigIntegerContents.bits_data (DecryptBigIntegerContents t key) in
  wrap32 (BigIntegerContents.sign (DecryptBigIntegerContents t key))
    = Z.lxor (wrap32 (BigIntegerContents.sign t)) (wrap32 key)
  /\ (limbs = [] -> limbs' = [])
  /\ (forall x, limbs = [x] -> limbs' = [Z.lxor x key])
  /\ (forall (n : nat) (first last : Z),
        length limbs = n -> (1 < n)%nat ->
        limbs !! 0%nat = Some first -> limbs !! (n - 1)%nat = Some last ->
        length limbs' = n
        /\ limbs' !! 0%nat = Some (Z.lxor last key)
        /\ limbs' !! (n - 1)%nat = Some (Z.lxor first key)
        /\ (forall i : nat, (0 < i < n - 1)%nat -> limbs' !! i = limbs !! i))
  /\ (forall s p len,
        BigIntegerContents.bits_data
          (DecryptBigIntegerContents (BigIntegerContents.mk s p len [1; 2; 3]) 0xFF)
        = [0xFC; 0x02; 0xFE]).
Proof.
  intros limbs limbs'. repeat split.
  - rewrite decrypt_sign, wrap32_lxor, wrap32_to_int32. reflexivity.
  - apply decrypt_limbs_empty.
  - apply decrypt_limbs_single.
  - subst limbs'. rewrite decrypt_limbs_length. assumption.
  - destruct (limbs_shape limbs)
      as [Hnil | [[x Hone] | (f & mid & l & Hmany)]].
    + rewrite Hnil in *. simpl in *. lia.
    + rewrite Hone in *. simpl in *. lia.
    + subst limbs'. rewrite (decrypt_limbs_many _ _ _ _ _ Hmany). simpl.
      rewrite Hmany in *. simpl in *.
      rewrite length_app in *. simpl in *.
      replace (n - 1)%nat with (S (length mid)) in * by lia. simpl in *.
      rewrite lookup_app_r in * by lia. rewrite Nat.sub_diag in *. simpl in *.
      congruence.
  - destruct (limbs_shape limbs)
      as [Hnil | [[x Hone] | (f & mid & l & Hmany)]].
    + rewrite Hnil in *. simpl in *. lia.
    + rewrite Hone in *. simpl in *. lia.
    + subst limbs'. rewrite (decrypt_limbs_many _ _ _ _ _ Hmany).
      rewrite Hmany in *. simpl in *.
      rewrite length_app in *. simpl in *.
      replace (n - 1)%nat with (S (length mid)) in * by lia. simpl in *.
      rewrite lookup_app_r by lia. rewrite Nat.sub_diag. simpl.
      congruence.
  - intros i Hi.
    destruct (limbs_shape limbs)
      as [Hnil | [[x Hone] | (f & mid & l & Hmany)]].
    + rewrite Hnil in *. simpl in *. lia.
    + rewrite Hone in *. simpl in *. lia.
    + subst limbs'. rewrite (decrypt_limbs_many _ _ _ _ _ Hmany).
      rewrite Hmany in *. simpl in *.
      rewrite length_app in *. simpl in *.
      destruct i as [| i']; [lia |]. simpl.
      rewrite !lookup_app_l by lia. reflexivity.
Qed.

Lemma decrypt_case_analysis_witness :
  let t := BigIntegerContents.mk 1 0x20000 3 [1; 2; 3] in
  let limbs' := BigIntegerContents.bits_data (DecryptBigIntegerContents t 0xFF) in
  (1 < length (BigIntegerContents.bits_data t))%nat
  /\ limbs' !! 0%nat = Some 0xFC
  /\ limbs' !! 2%nat = Some 0xFE
  /\ limbs' !! 1%nat = Some 2.
Proof.
  intros t limbs'.
  destruct (decrypt_case_analysis t 0xFF) as (_ & _ & _ & Hmany & _).
  destruct (Hmany 3%nat 1 3 eq_refl ltac:(lia) eq_refl eq_refl)
    as (_ & Hfirst & Hlast & Hmid).
  split; [simpl; lia |].
  split; [exact Hfirst |].
  split; [exact Hlast |].
  exact (Hmid 1%nat ltac:(lia)).
Defined.

(** [DecryptHiddenValue] on a valid record never fails and returns the
    [bigint_value] view of the hidden value as it was read: neither the
    key nor the decrypted raw tuple takes part in the result. *)
Lemma DecryptHiddenValue_valid (obscured : ObscuredBigIntegerData.t) :
  ObscuredBigIntegerData.is_valid obscured = true ->
  DecryptHiddenValue obscured
  = Some (SerializableBigInteger.bigint_value
            (ObscuredBigIntegerData.hidden_value obscured)).
Proof. unfold DecryptHiddenValue. intros ->. reflexivity. Qed.

(** C2.  On [record_five] the decrypted hidden tuple has sign 0xFE and the
    limb 0xFA, so the sign is outside {-1, 0, 1}; [DecryptHiddenValue]
    nevertheless succeeds, and the value it returns is the encrypted view
    (sign 1, limb 5), not the decrypted tuple. *)
Theorem DecryptHiddenValue_returns_encrypted_view :
  let decrypted :=
    DecryptBigIntegerContents
      (SerializableBigInteger.raw_contents
         (ObscuredBigIntegerData.hidden_value record_five))
      (ObscuredBigIntegerData.current_crypto_key record_five) in
  BigIntegerContents.sign decrypted = 0xFE
  /\ BigIntegerContents.bits_data decrypted = [0xFA]
  /\ DecryptHiddenValue record_five
     = Some (DotNetBigIntegerData.mk 1 0x20000 1 [5] true).
Proof. repeat split. Qed.

End ShuffleCipherCases.

(** ** The big-integer readers *)

Section Readers.
Import ObscuredBigIntegerReader.

Implicit Types (sc : MemoryScanner.t) (address base : Z).

(** C4.  At a structure whose sign word reads 0 and whose magnitude pointer
    reads null, [ReadBigInteger] fails: the null pointer is refused by
    [IsValidPointer] before any short-circuit.  [ReadBigIntegerContents]
    reads the same bytes as the zero value with no limbs. *)
Theorem ReadBigInteger_null_pointer_fails :
  MemoryScanner.ReadInt32 zero_structure 0x10000 = Some 0
  /\ MemoryScanner.ReadUInt64 zero_structure 0x10004 = Some 0
  /\ DotNetBigIntegerReader.ReadBigInteger
       (DotNetBigIntegerReader.mk (Some zero_structure)) 0x10000 = None
  /\ ReadBigIntegerContents zero_structure 0x10000
     = Some (BigIntegerContents.mk 0 0 0 []).
Proof. vm_compute. repeat split. Qed.

(** The failure does not depend on the memory otherwise: a null magnitude
    pointer always makes [ReadBigInteger] fail. *)
Lemma null_pointer_is_refused (r : DotNetBigIntegerReader.t) sc base :
  DotNetBigIntegerReader.scanner_ r = Some sc ->
  MemoryScanner.ReadUInt64 sc (wrap64 (base + 4)) = Some 0 ->
  DotNetBigIntegerReader.ReadBigInteger r base = None.
Proof.
  intros Hsc Hptr. unfold DotNetBigIntegerReader.ReadBigInteger. rewrite Hsc.
  destruct (negb (DotNetBigIntegerReader.IsValidPointer base)); [reflexivity |].
  destruct (MemoryScanner.ReadInt32 sc base) as [sign |]; [| reflexivity].
  simpl. rewrite Hptr. reflexivity.
Qed.

Lemma ReadBigIntegerVerbose_eq (r : DotNetBigIntegerReader.t) base :
  DotNetBigIntegerReader.ReadBigIntegerVerbose r base
  = DotNetBigIntegerReader.ReadBigInteger r base.
Proof. reflexivity. Qed.

(** *** Length recovery *)


(** What a successful run of the array loop has read. *)
Lemma ReadUInt32Array_loop_Some sc address (n : nat) :
  forall (i : Z) (acc result : list Z),
    MemoryScanner.ReadUInt32Array_loop sc address i n acc = Some result ->
    exists values,
      result = acc ++ values /\ length values = n
      /\ forall (k : nat) v, values !! k = Some v ->
           MemoryScanner.ReadUInt32 sc (wrap64 (address + (i + Z.of_nat k) * 4)) = Some v.
Proof.
  induction n as [| n IH]; intros i acc result Hrun; simpl in Hrun.
  - injection Hrun as <-. exists []. rewrite app_nil_r.
    repeat split. intros k v Hk. rewrite lookup_nil in Hk. discriminate.
  - destruct (MemoryScanner.ReadUInt32 sc (wrap64 (address + i * 4)))
      as [value |] eqn:Hread; [| discriminate].
    destruct (IH _ _ _ Hrun) as (values & -> & Hlen & Hall).
    exists (value :: values). rewrite <- app_assoc. simpl.
    repeat split; [lia |].
    intros [| k] v Hk; simpl in Hk.
    + injection Hk as <-. rewrite Z.add_0_r. exact Hread.
    + rewrite <- (Hall k v Hk). do 3 f_equal. lia.
Qed.

Lemma ReadUInt32Array_Some sc address (count : Z) (result : list Z) :
  0 <= count ->
  MemoryScanner.ReadUInt32Array sc address count = Some result ->
  length result = Z.to_nat count
  /\ forall (k : nat) v, result !! k = Some v ->
       MemoryScanner.ReadUInt32 sc (wrap64 (address + Z.of_nat k * 4)) = Some v.
Proof.
  intros Hcount. unfold MemoryScanner.ReadUInt32Array.
  destruct (Z.eqb_spec count 0) as [-> | Hne].
  - intros [= <-]. split; [reflexivity |].
    intros k v Hk. rewrite lookup_nil in Hk. discriminate.
  - intros Hrun.
    destruct (ReadUInt32Array_loop_Some _ _ _ _ _ _ Hrun) as (values & -> & Hlen & Hall).
    simpl. split; [exact Hlen | exact Hall].
Qed.


Lemma IsValidPointer_range address :
  IsValidPointer address = true -> 0x10000 <= address <= 0x7FFFFFFFFFFF.
Proof.
  unfold IsValidPointer, MIN_VALID_POINTER, MAX_VALID_POINTER.
  intros [H1 H2]%andb_prop. apply Z.leb_le in H1, H2. lia.
Qed.

Lemma IsValidPointer_same address :
  DotNetBigIntegerReader.IsValidPointer address = IsValidPointer address.
Proof. reflexivity. Qed.




End Readers.

(** ** The overlay reader and the record reader *)

Section Overlay.
Import ObscuredBigIntegerReader.

Variables junk_sign junk_ptr junk_length : Z.
Variable sizeof_SerializableBigInteger : Z.

Implicit Types (sc : MemoryScanner.t) (address base : Z).

Local Abbreviation ReadOverlay :=
  (ReadSerializableBigInteger junk_sign junk_ptr junk_length).
Local Abbreviation ReadRecord :=
  (ReadObscuredBigInteger junk_sign junk_ptr junk_length sizeof_SerializableBigInteger).

(** C6.  The record reader is all-or-nothing.  With the five fields read at
    their fixed offsets from [base], a failure of any one of the five reads
    makes [ReadObscuredBigInteger] fail, and a record that is returned has
    every field taken from its successful read (and is marked valid): no
    record with only a prefix of its fields read is ever returned. *)
Theorem ReadObscuredBigInteger_all_or_nothing sc base :
  let r := make (Some sc) in
  let hidden_at := base in
  let fake_at := wrap64 (hidden_at + sizeof_SerializableBigInteger) in
  let key_at := wrap64 (fake_at + sizeof_SerializableBigInteger) in
  let fake_active_at := wrap64 (key_at + 4) in
  let inited_at := wrap64 (fake_active_at + 1) in
  (ReadOverlay r sc hidden_at = None
   \/ ReadOverlay r sc fake_at = None
   \/ MemoryScanner.ReadUInt32 sc key_at = None
   \/ MemoryScanner.ReadBool sc fake_active_at = None
   \/ MemoryScanner.ReadBool sc inited_at = None ->
   ReadRecord r base = None)
  /\ (forall record,
        ReadRecord r base = Some record ->
        ReadOverlay r sc hidden_at = Some (ObscuredBigIntegerData.hidden_value record)
        /\ ReadOverlay r sc fake_at = Some (ObscuredBigIntegerData.fake_value record)
        /\ MemoryScanner.ReadUInt32 sc key_at
           = Some (ObscuredBigIntegerData.current_crypto_key record)
        /\ MemoryScanner.ReadBool sc fake_active_at
           = Some (ObscuredBigIntegerData.fake_value_active record)
        /\ MemoryScanner.ReadBool sc inited_at
           = Some (ObscuredBigIntegerData.inited record)
        /\ ObscuredBigIntegerData.is_valid record = true).
Proof.
  intros r hidden_at fake_at key_at fake_active_at inited_at.
  assert (Hall : forall record,
            ReadRecord r base = Some record ->
            ReadOverlay r sc hidden_at = Some (ObscuredBigIntegerData.hidden_value record)
            /\ ReadOverlay r sc fake_at = Some (ObscuredBigIntegerData.fake_value record)
            /\ MemoryScanner.ReadUInt32 sc key_at
               = Some (ObscuredBigIntegerData.current_crypto_key record)
            /\ MemoryScanner.ReadBool sc fake_active_at
               = Some (ObscuredBigIntegerData.fake_value_active record)
            /\ MemoryScanner.ReadBool sc inited_at
               = Some (ObscuredBigIntegerData.inited record)
            /\ ObscuredBigIntegerData.is_valid record = true).
  { intros record. unfold ReadObscuredBigInteger.
    change (scanner_ r) with (Some sc).
    fold hidden_at. destruct (negb _); [discriminate |].
    destruct (ReadOverlay r sc hidden_at) as [hidden |]; [| discriminate]. simpl.
    fold fake_at.
    destruct (ReadOverlay r sc fake_at) as [fake |]; [| discriminate]. simpl.
    fold key_at.
    destruct (MemoryScanner.ReadUInt32 sc key_at) as [key |]; [| discriminate]. simpl.
    fold fake_active_at.
    destruct (MemoryScanner.ReadBool sc fake_active_at) as [active |]; [| discriminate].
    simpl. fold inited_at.
    destruct (MemoryScanner.ReadBool sc inited_at) as [inited |]; [| discriminate].
    simpl. intros [= <-]. simpl. repeat split. }
  split; [| exact Hall].
  intros Hfail.
  destruct (ReadRecord r base) as [record |] eqn:Hrecord; [| reflexivity].
  destruct (Hall record eq_refl) as (H1 & H2 & H3 & H4 & H5 & _).
  destruct Hfail as [H | [H | [H | [H | H]]]]; congruence.
Qed.

End Overlay.

Lemma ReadObscuredBigInteger_all_or_nothing_witness :
  ObscuredBigIntegerReader.ReadObscuredBigInteger 0 0 0 112
    (ObscuredBigIntegerReader.make (Some truncated_record)) 0x10100 = None
  /\ MemoryScanner.ReadUInt32 full_record 0x101E0 = Some 0xFF
  /\ MemoryScanner.ReadBool full_record 0x101E5 = Some true.
Proof.
  destruct (ReadObscuredBigInteger_all_or_nothing 0 0 0 112 truncated_record 0x10100)
    as [Hfail _].
  destruct (ReadObscuredBigInteger_all_or_nothing 0 0 0 112 full_record 0x10100)
    as [_ Hfull].
  split.
  - apply Hfail. right. right. right. right. vm_compute. reflexivity.
  - destruct (Hfull
               {| ObscuredBigIntegerData.hidden_value :=
                    SerializableBigInteger.mk
                      (DotNetBigIntegerData.mk 1 0x10000 1 [5] true)
                      (BigIntegerContents.mk 1 0x10000 1 [5]) true;
                  ObscuredBigIntegerData.fake_value :=
                    SerializableBigInteger.mk
                      (DotNetBigIntegerData.mk 1 0x10080 1 [7] true)
                      (BigIntegerContents.mk 1 0x10080 1 [7]) true;
                  ObscuredBigIntegerData.current_crypto_key := 0xFF;
                  ObscuredBigIntegerData.fake_value_active := true;
                  ObscuredBigIntegerData.inited := true;
                  ObscuredBigIntegerData.is_valid := true |})
      as (_ & _ & Hkey & _ & Hinited & _).
    + vm_compute. reflexivity.
    + split; [exact Hkey | exact Hinited].
Defined.

(** ** The pattern scan *)

Section PatternScan.

Implicit Types (region_data pattern mask rest : list byte) (i j : Z).

Lemma byte_eqb_spec (a b : byte) : reflect (a = b) (Byte.eqb a b).
Proof.
  destruct (Byte.eqb a b) eqn:H; constructor.
  - apply Byte.byte_dec_bl, H.
  - apply Byte.eqb_false, H.
Qed.

(** The inner loop inside the buffer: no fault, and the flag it leaves says
    whether the rest of the pattern agrees with the buffer at every
    position that has to match. *)
Lemma match_loop_in_bounds region_data mask i rest :
  forall j,
    0 <= i -> 0 <= j ->
    i + j + Z.of_nat (length rest) <= Z.of_nat (length region_data) ->
    Z.of_nat (length region_data) < 2 ^ 64 ->
    mask = [] \/ j + Z.of_nat (length rest) <= Z.of_nat (length mask) ->
    exists matched,
      MemoryScanner.match_loop region_data mask i rest j = inr matched
      /\ (matched = true <->
          forall (k : nat) p, rest !! k = Some p ->
            must_match mask (Z.to_nat j + k) ->
            region_data !! (Z.to_nat i + (Z.to_nat j + k))%nat = Some p).
Proof.
  induction rest as [| pattern_j rest' IH]; intros j Hi Hj Hfit Hsize Hmask.
  - exists true. split; [reflexivity |]. split; [| reflexivity].
    intros _ k p Hk. rewrite lookup_nil in Hk. discriminate.
  - simpl length in *.
    assert (Hnext : exists matched,
              MemoryScanner.match_loop region_data mask i rest' (j + 1) = inr matched
              /\ (matched = true <->
                  forall (k : nat) p, rest' !! k = Some p ->
                    must_match mask (Z.to_nat j + S k) ->
                    region_data !! (Z.to_nat i + (Z.to_nat j + S k))%nat = Some p)).
    { destruct (IH (j + 1)) as (matched & Hrun & Hiff); try lia.
      - destruct Hmask as [-> | Hmask]; [left; reflexivity | right; lia].
      - exists matched. split; [exact Hrun |].
        rewrite Hiff. replace (Z.to_nat (j + 1)) with (S (Z.to_nat j)) by lia.
        split; intros H k p Hk Hm.
        + replace (Z.to_nat j + S k)%nat with (S (Z.to_nat j) + k)%nat in * by lia.
          apply H; assumption.
        + replace (S (Z.to_nat j) + k)%nat with (Z.to_nat j + S k)%nat in * by lia.
          apply H; assumption. }
    assert (Hdata : exists data,
              region_data !! Z.to_nat (wrap64 (i + j)) = Some data
              /\ region_data !! (Z.to_nat i + (Z.to_nat j + 0))%nat = Some data).
    { rewrite wrap64_small by lia.
      destruct (lookup_lt_is_Some_2 region_data (Z.to_nat (i + j)) ltac:(lia))
        as [data Hdata].
      exists data. split; [exact Hdata |].
      rewrite <- Hdata. f_equal. lia. }
    destruct Hdata as (data & Hdata & Hdata0).
    (* what the comparison of the byte at [j] contributes *)
    assert (Hcompare : must_match mask (Z.to_nat j + 0) ->
              exists matched,
                match region_data !! Z.to_nat (wrap64 (i + j)) with
                | None => inl (RegionIndexOutOfBounds (wrap64 (i + j)))
                | Some data =>
                  if Byte.eqb data pattern_j
                  then MemoryScanner.match_loop region_data mask i rest' (j + 1)
                  else inr false
                end = inr matched
                /\ (matched = true <->
                    forall (k : nat) p, (pattern_j :: rest') !! k = Some p ->
                      must_match mask (Z.to_nat j + k) ->
                      region_data !! (Z.to_nat i + (Z.to_nat j + k))%nat = Some p)).
    { intros Hmust. rewrite Hdata.
      destruct (byte_eqb_spec data pattern_j) as [-> | Hne].
      - destruct Hnext as (matched & Hrun & Hiff). exists matched.
        split; [exact Hrun |]. rewrite Hiff. split.
        + intros H [| k] p Hk Hm; simpl in Hk.
          * injection Hk as <-. exact Hdata0.
          * apply H; assumption.
        + intros H k p Hk Hm. apply (H (S k)); assumption.
      - exists false. split; [reflexivity |]. split; [discriminate |].
        intros H. exfalso. apply Hne.
        specialize (H 0%nat pattern_j eq_refl Hmust). congruence. }
    simpl MemoryScanner.match_loop.
    destruct mask as [| mask_0 mask'] eqn:Emask.
    + apply Hcompare. left. reflexivity.
    + rewrite <- Emask in *.
      assert (Hlen : (Z.to_nat j < length mask)%nat).
      { destruct Hmask as [Hnil | Hmask]; [congruence | lia]. }
      destruct (lookup_lt_is_Some_2 mask (Z.to_nat j) Hlen) as [mask_j Hmask_j].
      rewrite Hmask_j.
      destruct (byte_eqb_spec mask_j x00) as [-> | Hcare].
      * destruct Hnext as (matched & Hrun & Hiff). exists matched.
        split; [exact Hrun |]. rewrite Hiff. split.
        -- intros H [| k] p Hk Hm; simpl in Hk.
           ++ exfalso. destruct Hm as [Hm | (m & Hm & Hm0)]; [congruence |].
              rewrite Nat.add_0_r in Hm. congruence.
           ++ apply H; assumption.
        -- intros H k p Hk Hm. apply (H (S k)); assumption.
      * apply Hcompare. right. exists mask_j.
        rewrite Nat.add_0_r. split; assumption.
Qed.

Lemma matched_at_spec region_data pattern mask i :
  0 <= i ->
  i + Z.of_nat (length pattern) <= Z.of_nat (length region_data) ->
  Z.of_nat (length region_data) < 2 ^ 64 ->
  mask = [] \/ Z.of_nat (length pattern) <= Z.of_nat (length mask) ->
  MemoryScanner.match_loop region_data mask i pattern 0
  = inr (matched_at region_data pattern mask i)
  /\ (matched_at region_data pattern mask i = true
      <-> window_matches region_data pattern mask i).
Proof.
  intros Hi Hfit Hsize Hmask.
  destruct (match_loop_in_bounds region_data mask i pattern 0)
    as (matched & Hrun & Hiff); try lia.
  { destruct Hmask; [left | right]; [assumption | lia]. }
  unfold matched_at. rewrite Hrun. split.
  - destruct matched; reflexivity.
  - unfold window_matches. simpl in Hiff.
    destruct matched; [| split; [discriminate |]]; intuition.
Qed.

(** The outer loop when the bound did not wrap around: after [count]
    iterations it returns, having appended the address of every offset
    visited at which the window matched. *)
Lemma scan_loop_returns region region_data pattern mask bound :
  bound = Z.of_nat (length region_data) - Z.of_nat (length pattern) ->
  0 <= bound ->
  Z.of_nat (length region_data) <= MAX_READ_SIZE ->
  mask = [] \/ Z.of_nat (length pattern) <= Z.of_nat (length mask) ->
  forall (count : nat) i (results : list Z) (fuel : nat),
    0 <= i ->
    bound < i + 4 * Z.of_nat count <= bound + 4 ->
    (count < fuel)%nat ->
    MemoryScanner.scan_loop fuel region region_data pattern mask bound i results
    = ScanReturns
        (results
         ++ List.map (fun o => wrap64 (base_address region + o))
              (List.filter (matched_at region_data pattern mask)
                           (offsets_from i count))).
Proof.
  intros Hbound Hpos Hmax Hmask.
  unfold MAX_READ_SIZE in Hmax.
  induction count as [| count IH]; intros i results fuel Hi Hcount Hfuel;
    (destruct fuel as [| fuel]; [lia |]); simpl.
  - replace (i <=? bound) with false by (symmetry; apply Z.leb_gt; lia).
    rewrite app_nil_r. reflexivity.
  - replace (i <=? bound) with true by (symmetry; apply Z.leb_le; lia).
    destruct (matched_at_spec region_data pattern mask i) as [Hrun _]; try lia.
    { exact Hmask. }
    rewrite Hrun. unfold MemoryScanner.SCAN_ALIGNMENT.
    rewrite (wrap64_small (i + 4)) by lia.
    rewrite IH by lia.
    destruct (matched_at region_data pattern mask i); simpl.
    + rewrite <- app_assoc. reflexivity.
    + reflexivity.
Qed.

Lemma ReadMemory_Some (pm : ProcessManager.t) (address size : Z) (buffer : list byte) :
  ProcessManager.ReadMemory pm address size = Some buffer ->
  Z.of_nat (length buffer) = size /\ 0 < size <= MAX_READ_SIZE.
Proof.
  unfold ProcessManager.ReadMemory.
  destruct (negb (ProcessManager.IsAttached pm)); [discriminate |].
  destruct (Z.eqb_spec size 0); [discriminate |].
  destruct (Z.ltb_spec MAX_READ_SIZE size); [discriminate |].
  destruct (ProcessManager.ReadProcessMemory pm address size) as [bytes |];
    [| discriminate].
  destruct (Z.eqb_spec (Z.of_nat (length bytes)) size); simpl; [| discriminate].
  intros [= <-]. lia.
Qed.

(** The scan of a region that was read and is at least as long as the
    pattern: with enough fuel it returns, and its result is the list of the
    addresses of the matching offsets among 0, 4, 8, ... in that order. *)
Lemma ScanRegionForPattern_returns (fuel : nat) (sc : MemoryScanner.t)
      (region : MemoryRegion) pattern mask region_data :
  pattern <> [] ->
  ProcessManager.ReadMemory (MemoryScanner.process_mgr_ sc)
                            (base_address region) (size region) = Some region_data ->
  (length pattern <= length region_data)%nat ->
  mask = [] \/ length mask = length pattern ->
  (iterations region_data pattern < fuel)%nat ->
  MemoryScanner.ScanRegionForPattern fuel sc region pattern mask
  = ScanReturns
      (List.map (fun o => wrap64 (base_address region + o))
         (List.filter (matched_at region_data pattern mask)
                      (offsets_from 0 (iterations region_data pattern)))).
Proof.
  intros Hpattern Hread Hfit Hmask Hfuel.
  destruct (ReadMemory_Some _ _ _ _ Hread) as [Hlen Hsize].
  unfold MemoryScanner.ScanRegionForPattern, MemoryScanner.ReadBytes.
  rewrite Hread.
  destruct pattern as [| p0 pattern']; [congruence |].
  destruct region_data as [| d0 data']; [simpl in Hlen; lia |].
  set (pattern := p0 :: pattern') in *. set (region_data := d0 :: data') in *.
  unfold MAX_READ_SIZE in Hsize.
  rewrite wrap64_small by lia.
  rewrite (scan_loop_returns region region_data pattern mask _ eq_refl)
    with (count := iterations region_data pattern); try lia.
  - reflexivity.
  - unfold MAX_READ_SIZE. lia.
  - destruct Hmask as [-> | ->]; [left; reflexivity | right; lia].
  - unfold iterations.
    set (bound := Z.of_nat (length region_data) - Z.of_nat (length pattern)) in *.
    assert (0 <= bound) by lia.
    rewrite Nat2Z.inj_succ, Z2Nat.id by (apply Z.div_pos; lia).
    pose proof (Z.div_mod bound 4 ltac:(lia)).
    pose proof (Z.mod_pos_bound bound 4 ltac:(lia)). lia.
Qed.

(** The offsets visited. *)
Lemma In_offsets_from (count : nat) :
  forall i o, In o (offsets_from i count)
              <-> exists k : nat, (k < count)%nat /\ o = i + 4 * Z.of_nat k.
Proof.
  induction count as [| count IH]; intros i o; simpl.
  - split; [tauto | intros (k & Hk & _); lia].
  - rewrite IH. unfold MemoryScanner.SCAN_ALIGNMENT. split.
    + intros [<- | (k & Hk & ->)].
      * exists 0%nat. split; lia.
      * exists (S k). split; lia.
    + intros ([| k] & Hk & ->).
      * left. lia.
      * right. exists k. split; lia.
Qed.

Lemma offsets_from_sorted (count : nat) :
  forall i, StronglySorted Z.lt (offsets_from i count).
Proof.
  induction count as [| count IH]; intros i; simpl; constructor.
  - apply IH.
  - apply List.Forall_forall. intros o Ho.
    apply In_offsets_from in Ho as (k & _ & ->).
    unfold MemoryScanner.SCAN_ALIGNMENT. lia.
Qed.

Lemma filter_sorted (keep : Z -> bool) (l : list Z) :
  StronglySorted Z.lt l -> StronglySorted Z.lt (List.filter keep l).
Proof.
  induction 1 as [| a l Hsorted IH Hall]; simpl; [constructor |].
  destruct (keep a); [| exact IH].
  constructor; [exact IH |].
  apply List.Forall_forall. intros o Ho. apply List.filter_In in Ho as [Ho _].
  exact (proj1 (List.Forall_forall _ _) Hall o Ho).
Qed.

Lemma In_visited_offsets region_data pattern o :
  (length pattern <= length region_data)%nat ->
  In o (offsets_from 0 (iterations region_data pattern))
  <-> 0 <= o <= Z.of_nat (length region_data) - Z.of_nat (length pattern)
      /\ o mod 4 = 0.
Proof.
  intros Hfit. rewrite In_offsets_from. unfold iterations.
  set (bound := Z.of_nat (length region_data) - Z.of_nat (length pattern)).
  assert (0 <= bound) by lia.
  pose proof (Z.div_mod bound 4 ltac:(lia)).
  pose proof (Z.mod_pos_bound bound 4 ltac:(lia)).
  assert (0 <= bound / 4) by (apply Z.div_pos; lia).
  split.
  - intros (k & Hk & ->). split; [lia |].
    rewrite Z.add_0_l, Z.mul_comm. apply Z.mod_mul. lia.
  - intros [Hrange Hmod].
    pose proof (Z.div_mod o 4 ltac:(lia)).
    exists (Z.to_nat (o / 4)).
    assert (0 <= o / 4) by (apply Z.div_pos; lia).
    split; [| lia].
    assert (o / 4 <= bound / 4) by (apply Z.div_le_mono; lia). lia.
Qed.

Lemma sorted_singleton (l : list Z) (a : Z) :
  StronglySorted Z.lt l -> (forall o, In o l <-> o = a) -> l = [a].
Proof.
  intros Hsorted Hin.
  destruct l as [| x l']; [exfalso; apply (proj2 (Hin a) eq_refl) |].
  pose proof (proj1 (Hin x) (or_introl eq_refl)) as ->.
  f_equal. destruct l' as [| y l'']; [reflexivity | exfalso].
  apply StronglySorted_inv in Hsorted as [_ Hall].
  apply Forall_inv in Hall.
  pose proof (proj1 (Hin y) (or_intror (or_introl eq_refl))). lia.
Qed.

(** Membership in the result of the scan, in terms of the buffer. *)
Lemma In_matching_offsets region_data pattern mask o :
  (length pattern <= length region_data)%nat ->
  Z.of_nat (length region_data) <= MAX_READ_SIZE ->
  mask = [] \/ length mask = length pattern ->
  In o (List.filter (matched_at region_data pattern mask)
                    (offsets_from 0 (iterations region_data pattern)))
  <-> (0 <= o <= Z.of_nat (length region_data) - Z.of_nat (length pattern)
       /\ o mod 4 = 0)
      /\ window_matches region_data pattern mask o.
Proof.
  intros Hfit Hmax Hmask. unfold MAX_READ_SIZE in Hmax.
  rewrite List.filter_In, In_visited_offsets by exact Hfit.
  split; intros [Hvisited Hmatch]; (split; [exact Hvisited |]);
    (destruct (matched_at_spec region_data pattern mask o) as [_ Hiff];
     [lia | lia | lia | destruct Hmask as [-> | ->]; [left; reflexivity | right; lia] |]);
    apply Hiff; exact Hmatch.
Qed.

(** C8.  Mask semantics.  For a non-empty pattern with a mask of the same
    length, a 4-aligned offset [i] whose window lies inside the buffer read
    from the region, and a buffer that agrees with the pattern at every
    position of the window whose mask byte is not zero (whatever it holds
    at the positions whose mask byte is zero), the scan returns and the
    address [base + i] is among the matches reported. *)
Theorem mask_dont_care_still_matches (fuel : nat) (sc : MemoryScanner.t)
        (region : MemoryRegion) pattern mask region_data i :
  pattern <> [] ->
  length mask = length pattern ->
  ProcessManager.ReadMemory (MemoryScanner.process_mgr_ sc)
                            (base_address region) (size region) = Some region_data ->
  0 <= i -> i mod 4 = 0 ->
  i + Z.of_nat (length pattern) <= Z.of_nat (length region_data) ->
  (forall (j : nat) (pattern_j mask_j : byte),
      pattern !! j = Some pattern_j -> mask !! j = Some mask_j -> mask_j <> x00 ->
      region_data !! (Z.to_nat i + j)%nat = Some pattern_j) ->
  (iterations region_data pattern < fuel)%nat ->
  exists results,
    MemoryScanner.ScanRegionForPattern fuel sc region pattern mask = ScanReturns results
    /\ In (wrap64 (base_address region + i)) results.
Proof.
  intros Hpattern Hmask Hread Hi Haligned Hfit Hagree Hfuel.
  destruct (ReadMemory_Some _ _ _ _ Hread) as [Hlen Hsize].
  eexists. split.
  - apply (ScanRegionForPattern_returns fuel sc region pattern mask region_data);
      [assumption | assumption | lia | right; assumption | assumption].
  - apply List.in_map_iff. exists i. split; [reflexivity |].
    apply In_matching_offsets; [lia | lia | right; assumption |].
    split; [split; [lia | assumption] |].
    intros j pattern_j Hj [Hnil | (mask_j & Hmask_j & Hcare)].
    + exfalso. subst mask. symmetry in Hmask. apply length_zero_iff_nil in Hmask.
      contradiction.
    + exact (Hagree j pattern_j mask_j Hj Hmask_j Hcare).
Qed.

Lemma mask_dont_care_still_matches_witness :
  exists results,
    MemoryScanner.ScanRegionForPattern 4 masked_scanner masked_region
                                       dead_beef first_and_last
    = ScanReturns results
    /\ In 0x10004 results.
Proof.
  apply (mask_dont_care_still_matches 4 masked_scanner masked_region
           dead_beef first_and_last masked_bytes 4).
  - discriminate.
  - reflexivity.
  - vm_compute. reflexivity.
  - lia.
  - reflexivity.
  - simpl. lia.
  - intros [| [| [| [| j]]]] pattern_j mask_j Hp Hm Hcare; simpl in Hp, Hm;
      try discriminate.
    + injection Hp as <-. reflexivity.
    + injection Hm as <-. contradiction.
    + injection Hm as <-. contradiction.
    + injection Hp as <-. reflexivity.
  - vm_compute. lia.
Defined.

(** C9.  The scan visits the offsets 0, 4, 8, ... only.  When the region was
    read and is at least as long as the pattern, the scan returns the
    addresses [base + o] of a strictly ascending list of offsets [o], which
    are exactly the multiples of 4, with the window inside the buffer, at
    which the window matches; an occurrence at an offset that is not a
    multiple of 4 is not reported.  When the buffer contains the unmasked
    pattern DE AD BE EF at offset 0x40 and nowhere else, that list is
    [0x40] and the scan returns exactly [base + 0x40]. *)
Theorem scan_stride_is_four (fuel : nat) (sc : MemoryScanner.t)
        (region : MemoryRegion) pattern mask region_data :
  pattern <> [] ->
  ProcessManager.ReadMemory (MemoryScanner.process_mgr_ sc)
                            (base_address region) (size region) = Some region_data ->
  (length pattern <= length region_data)%nat ->
  mask = [] \/ length mask = length pattern ->
  (iterations region_data pattern < fuel)%nat ->
  exists offsets,
    MemoryScanner.ScanRegionForPattern fuel sc region pattern mask
    = ScanReturns (List.map (fun o => wrap64 (base_address region + o)) offsets)
    /\ StronglySorted Z.lt offsets
    /\ (forall o, In o offsets <->
          (0 <= o <= Z.of_nat (length region_data) - Z.of_nat (length pattern)
           /\ o mod 4 = 0)
          /\ window_matches region_data pattern mask o)
    /\ (forall o, o mod 4 <> 0 -> ~ In o offsets)
    /\ (pattern = [xde; xad; xbe; xef] -> mask = [] ->
        (forall o, 0 <= o -> window_matches region_data pattern mask o <-> o = 0x40) ->
        offsets = [0x40]
        /\ (0 <= base_address region -> base_address region + 0x40 < 2 ^ 64 ->
            MemoryScanner.ScanRegionForPattern fuel sc region pattern mask
            = ScanReturns [base_address region + 0x40])).
Proof.
  intros Hpattern Hread Hfit Hmask Hfuel.
  destruct (ReadMemory_Some _ _ _ _ Hread) as [Hlen Hsize].
  pose proof (ScanRegionForPattern_returns fuel sc region pattern mask region_data
                Hpattern Hread Hfit Hmask Hfuel) as Hscan.
  set (offsets := List.filter (matched_at region_data pattern mask)
                              (offsets_from 0 (iterations region_data pattern))) in *.
  assert (Hsorted : StronglySorted Z.lt offsets)
    by apply filter_sorted, offsets_from_sorted.
  assert (Hin : forall o, In o offsets <->
            (0 <= o <= Z.of_nat (length region_data) - Z.of_nat (length pattern)
             /\ o mod 4 = 0)
            /\ window_matches region_data pattern mask o).
  { intros o. apply In_matching_offsets; [assumption | lia | assumption]. }
  exists offsets. split; [exact Hscan |]. split; [exact Hsorted |].
  split; [exact Hin |]. split.
  - intros o Hmisaligned Ho. apply Hin in Ho. tauto.
  - intros Hdead_beef Hnomask Honce.
    assert (Hoffsets : offsets = [0x40]).
    { apply sorted_singleton; [exact Hsorted |].
      intros o. rewrite Hin. split.
      - intros [[Hrange _] Hmatch]. apply Honce; [lia | exact Hmatch].
      - intros ->.
        assert (Hmatch : window_matches region_data pattern mask 0x40)
          by (apply Honce; [lia | reflexivity]).
        split; [| exact Hmatch]. split; [| reflexivity].
        assert (Hlast : region_data !! (Z.to_nat 0x40 + 3)%nat = Some xef).
        { apply Hmatch; [subst pattern; reflexivity | left; exact Hnomask]. }
        apply lookup_lt_Some in Hlast. subst pattern. simpl length. lia. }
    split; [exact Hoffsets |].
    intros Hbase Hno_wrap. rewrite Hscan, Hoffsets. simpl.
    rewrite wrap64_small by lia. reflexivity.
Qed.

Lemma scenario_F_once :
  forall o, 0 <= o -> window_matches scenario_F_bytes dead_beef [] o <-> o = 0x40.
Proof.
  intros o Ho. split.
  - intros Hmatch.
    specialize (Hmatch 0%nat xde eq_refl (or_introl eq_refl)).
    rewrite Nat.add_0_r in Hmatch.
    assert (Hindex : forall n : nat, scenario_F_bytes !! n = Some xde -> n = 64%nat).
    { intros n. do 65 (destruct n as [| n]; [try discriminate; reflexivity |]).
      do 8 (destruct n as [| n]; [discriminate |]). discriminate. }
    apply Hindex in Hmatch. lia.
  - intros -> j pattern_j Hj _.
    destruct j as [| [| [| [| j]]]]; simpl in Hj; try discriminate;
      injection Hj as <-; reflexivity.
Qed.

Lemma scan_stride_is_four_witness :
  MemoryScanner.ScanRegionForPattern 20 scenario_F scenario_F_region dead_beef []
  = ScanReturns [0x10040].
Proof.
  destruct (scan_stride_is_four 20 scenario_F scenario_F_region dead_beef []
                                scenario_F_bytes)
    as (offsets & _ & _ & _ & _ & Hscenario).
  - discriminate.
  - vm_compute. reflexivity.
  - simpl. lia.
  - left. reflexivity.
  - vm_compute. lia.
  - destruct (Hscenario eq_refl eq_refl scenario_F_once) as [_ Hresult].
    apply Hresult; simpl; lia.
Defined.

(** C10.  A pattern longer than the region's buffer.  The buffer read from
    [one_byte_region] has the single byte DE, so for a pattern of two bytes
    the bound [region_data.size() - pattern.size()] wraps around to
    2^64 - 1 and the loop is entered.  With the pattern DE AD the first
    iteration compares [region_data[1]], past the end of the buffer; with
    the pattern AD DE the first iteration ends at the mismatch and the
    second one compares [region_data[4]].  Neither scan returns the empty
    result. *)
Theorem scan_pattern_longer_than_region_faults :
  MemoryScanner.ReadBytes one_byte_scanner 0x10000 1 = [xde]
  /\ wrap64 (Z.of_nat (length [xde]) - Z.of_nat (length [xde; xad])) = 2 ^ 64 - 1
  /\ (forall fuel : nat,
        MemoryScanner.ScanRegionForPattern (S fuel) one_byte_scanner one_byte_region
                                           [xde; xad] []
        = ScanFaults (RegionIndexOutOfBounds 1))
  /\ (forall fuel : nat,
        MemoryScanner.ScanRegionForPattern (S (S fuel)) one_byte_scanner one_byte_region
                                           [xad; xde] []
        = ScanFaults (RegionIndexOutOfBounds 4)).
Proof.
  split; [vm_compute; reflexivity |].
  split; [vm_compute; reflexivity |].
  split; intros fuel; vm_compute; reflexivity.
Qed.

End PatternScan.

(** * Further properties of the modelled code *)

(** ** Reading from the target process *)

Section MemoryReads.

Implicit Types (sc : MemoryScanner.t) (address : Z).

Lemma le_decode_range (bs : list byte) :
  0 <= le_decode bs < 256 ^ Z.of_nat (length bs).
Proof.
  induction bs as [| b bs IH]; simpl le_decode; [simpl; lia |].
  pose proof (Byte.to_N_bounded b) as Hb.
  replace (Z.of_nat (length (b :: bs))) with (Z.succ (Z.of_nat (length bs)))
    by (simpl length; lia).
  rewrite Z.pow_succ_r by lia. lia.
Qed.

Lemma ReadValue_length sc address (sizeof_T : Z) (bytes : list byte) :
  MemoryScanner.ReadValue sc address sizeof_T = Some bytes ->
  Z.of_nat (length bytes) = sizeof_T.
Proof.
  unfold MemoryScanner.ReadValue, ProcessManager.ReadMemory.
  destruct (negb _); [discriminate |].
  destruct (sizeof_T =? 0); [discriminate |].
  destruct (MAX_READ_SIZE <? sizeof_T); [discriminate |].
  destruct (ProcessManager.ReadProcessMemory _ _ _) as [buffer |]; [| discriminate].
  destruct (Z.eqb_spec (Z.of_nat (length buffer)) sizeof_T); simpl; [| discriminate].
  intros [= <-]. assumption.
Qed.

Lemma ReadUInt32_range sc address (u : Z) :
  MemoryScanner.ReadUInt32 sc address = Some u -> is_uint32 u.
Proof.
  unfold MemoryScanner.ReadUInt32. intros H.
  destruct (MemoryScanner.ReadValue sc address 4) as [bytes |] eqn:Hread;
    [| discriminate].
  injection H as <-. pose proof (le_decode_range bytes) as Hr.
  rewrite (ReadValue_length _ _ _ _ Hread) in Hr. unfold is_uint32. lia.
Qed.

(** X1.  The typed readers return values of their types: [ReadUInt32] a
    value below 2^32, [ReadUInt64] a value below 2^64, and [ReadInt32] the
    two's-complement reading of what [ReadUInt32] returns at the same
    address (so it lies in the [int32_t] range and has the same 32-bit
    pattern).  [ReadBool] reads one byte, and gives [false] for the byte 0
    and [true] for the byte 1. *)
Theorem typed_reads_in_range sc address :
  (forall u, MemoryScanner.ReadUInt32 sc address = Some u ->
     is_uint32 u
     /\ MemoryScanner.ReadInt32 sc address = Some (to_int32 u)
     /\ is_int32 (to_int32 u)
     /\ wrap32 (to_int32 u) = u)
  /\ (forall p, MemoryScanner.ReadUInt64 sc address = Some p -> 0 <= p < 2 ^ 64)
  /\ (forall flag, MemoryScanner.ReadBool sc address = Some flag ->
        exists b, MemoryScanner.ReadValue sc address 1 = Some [b])
  /\ (MemoryScanner.ReadValue sc address 1 = Some [x00] ->
      MemoryScanner.ReadBool sc address = Some false)
  /\ (MemoryScanner.ReadValue sc address 1 = Some [x01] ->
      MemoryScanner.ReadBool sc address = Some true).
Proof.
  split; [| split; [| split; [| split]]].
  - intros u Hu. pose proof (ReadUInt32_range sc address u Hu) as Hrange.
    split; [exact Hrange |]. split; [| split].
    + unfold MemoryScanner.ReadUInt32 in Hu. unfold MemoryScanner.ReadInt32.
      destruct (MemoryScanner.ReadValue sc address 4) as [bytes |]; [| discriminate].
      injection Hu as <-. reflexivity.
    + apply to_int32_range.
    + rewrite wrap32_to_int32. apply wrap32_small, Hrange.
  - intros p Hp. unfold MemoryScanner.ReadUInt64 in Hp.
    destruct (MemoryScanner.ReadValue sc address 8) as [bytes |] eqn:Hread;
      [| discriminate].
    injection Hp as <-. pose proof (le_decode_range bytes) as Hr.
    rewrite (ReadValue_length _ _ _ _ Hread) in Hr. lia.
  - intros flag Hflag. unfold MemoryScanner.ReadBool in Hflag.
    destruct (MemoryScanner.ReadValue sc address 1) as [bytes |] eqn:Hread;
      [| discriminate].
    pose proof (ReadValue_length _ _ _ _ Hread) as Hlen.
    destruct bytes as [| b [| b' bytes']]; simpl in Hlen; try lia.
    exists b. reflexivity.
  - intros Hread. unfold MemoryScanner.ReadBool. rewrite Hread. reflexivity.
  - intros Hread. unfold MemoryScanner.ReadBool. rewrite Hread. reflexivity.
Qed.

End MemoryReads.

Lemma typed_reads_in_range_witness :
  (is_uint32 1 /\ MemoryScanner.ReadInt32 all_zero_probe 0x10000 = Some (to_int32 1))
  /\ 0 <= 0x10010 < 2 ^ 64
  /\ MemoryScanner.ReadBool flag_memory 0x10000 = Some false
  /\ MemoryScanner.ReadBool flag_memory 0x10001 = Some true
  /\ exists b, MemoryScanner.ReadValue flag_memory 0x10001 1 = Some [b].
Proof.
  destruct (typed_reads_in_range all_zero_probe 0x10000) as (H32 & _).
  destruct (typed_reads_in_range all_zero_probe 0x10004) as (_ & H64 & _).
  destruct (typed_reads_in_range flag_memory 0x10000) as (_ & _ & _ & Hfalse & _).
  destruct (typed_reads_in_range flag_memory 0x10001) as (_ & _ & Hbyte & _ & Htrue).
  destruct (H32 1 ltac:(vm_compute; reflexivity)) as (Hu & Hs & _ & _).
  split; [split; [exact Hu | exact Hs] |].
  split; [apply H64; vm_compute; reflexivity |].
  split; [apply Hfalse; vm_compute; reflexivity |].
  split; [apply Htrue; vm_compute; reflexivity |].
  apply (Hbyte true). vm_compute. reflexivity.
Defined.

Section Detached.
Import ObscuredBigIntegerReader.

Implicit Types (sc : MemoryScanner.t) (address : Z).

Lemma ReadMemory_detached (pm : ProcessManager.t) (address size : Z) :
  ProcessManager.process_handle_ pm = 0 ->
  ProcessManager.ReadMemory pm address size = None.
Proof.
  intros Hnull. unfold ProcessManager.ReadMemory, ProcessManager.IsAttached.
  rewrite Hnull. reflexivity.
Qed.

(** X2.  A scanner whose process manager holds no process handle reads
    nothing: every typed read fails, both big-integer readers and the
    record reader fail, and a pointer chain is empty when it has an offset
    to follow.  Where a buffer is allocated before the read, and the
    allocator grants it, the result is empty as well: an array read of one
    element or more fails, [ReadBytes] and [ReadString] are empty and a
    pattern scan of a region returns no match. *)
Theorem detached_scanner_reads_nothing (grants : Z -> bool) sc :
  ProcessManager.process_handle_ (MemoryScanner.process_mgr_ sc) = 0 ->
  forall address,
    MemoryScanner.ReadInt32 sc address = None
    /\ MemoryScanner.ReadUInt32 sc address = None
    /\ MemoryScanner.ReadUInt64 sc address = None
    /\ MemoryScanner.ReadBool sc address = None
    /\ (forall count, 0 < count -> grants (4 * count) = true ->
          Allocating.ReadUInt32Array grants sc address count = Returns None)
    /\ DotNetBigIntegerReader.ReadBigInteger
         (DotNetBigIntegerReader.mk (Some sc)) address = None
    /\ ReadBigIntegerContents sc address = None
    /\ (forall js jp jl sizeof_S,
          ReadObscuredBigInteger js jp jl sizeof_S (make (Some sc)) address = None)
    /\ (forall size, grants size = true ->
          Allocating.ReadBytes grants sc address size = Returns [])
    /\ (forall max_length, grants max_length = true ->
          Allocating.ReadString grants sc address max_length = Returns [])
    /\ (forall offset offsets,
          MemoryScanner.FollowPointerChain sc address (offset :: offsets) = [])
    /\ (forall fuel region pattern mask, grants (size region) = true ->
          Allocating.ScanRegionForPattern grants fuel sc region pattern mask
          = Returns (ScanReturns [])).
Proof.
  intros Hnull address.
  assert (Hvalue : forall a n, MemoryScanner.ReadValue sc a n = None).
  { intros a n. apply ReadMemory_detached, Hnull. }
  assert (H32 : forall a, MemoryScanner.ReadUInt32 sc a = None).
  { intros a. unfold MemoryScanner.ReadUInt32. rewrite Hvalue. reflexivity. }
  assert (Hs32 : forall a, MemoryScanner.ReadInt32 sc a = None).
  { intros a. unfold MemoryScanner.ReadInt32. rewrite Hvalue. reflexivity. }
  assert (Hbytes : forall a n, MemoryScanner.ReadBytes sc a n = []).
  { intros a n. unfold MemoryScanner.ReadBytes.
    rewrite ReadMemory_detached by exact Hnull. reflexivity. }
  assert (Hraw : ReadBigIntegerContents sc address = None).
  { unfold ReadBigIntegerContents. rewrite Hs32. reflexivity. }
  split; [apply Hs32 |]. split; [apply H32 |].
  split; [unfold MemoryScanner.ReadUInt64; rewrite Hvalue; reflexivity |].
  split; [unfold MemoryScanner.ReadBool; rewrite Hvalue; reflexivity |].
  split.
  { intros count Hcount Hgrant. unfold Allocating.ReadUInt32Array.
    rewrite Hgrant, orb_true_r. f_equal.
    unfold MemoryScanner.ReadUInt32Array.
    replace (count =? 0) with false by (symmetry; apply Z.eqb_neq; lia).
    destruct (Z.to_nat count) as [| n] eqn:Hn; [lia |].
    simpl. rewrite H32. reflexivity. }
  split.
  { unfold DotNetBigIntegerReader.ReadBigInteger. simpl.
    destruct (negb _); [reflexivity |]. rewrite Hs32. reflexivity. }
  split; [exact Hraw |].
  split.
  { intros js jp jl sizeof_S. unfold ReadObscuredBigInteger. simpl.
    destruct (negb _); [reflexivity |].
    unfold ReadSerializableBigInteger. rewrite Hraw. reflexivity. }
  split.
  { intros size Hgrant. unfold Allocating.ReadBytes.
    rewrite Hgrant, orb_true_r, Hbytes. reflexivity. }
  split.
  { intros max_length Hgrant. unfold Allocating.ReadString, Allocating.ReadBytes.
    rewrite Hgrant, orb_true_r. unfold MemoryScanner.ReadString.
    rewrite Hbytes. reflexivity. }
  split.
  { intros offset offsets.
    unfold MemoryScanner.FollowPointerChain. simpl.
    unfold MemoryScanner.FollowPointer. rewrite Hvalue. reflexivity. }
  intros fuel region pattern mask Hgrant.
  unfold Allocating.ScanRegionForPattern, Allocating.ReadBytes.
  rewrite Hgrant, orb_true_r.
  unfold MemoryScanner.ScanRegionForPattern. rewrite Hbytes.
  destruct pattern; reflexivity.
Qed.

End Detached.

Lemma detached_scanner_reads_nothing_witness :
  MemoryScanner.ReadUInt32 detached_scanner 0x101E0 = None
  /\ MemoryScanner.ReadUInt32 full_record 0x101E0 = Some 0xFF
  /\ Allocating.ReadBytes grants_1GiB detached_scanner 0x10000 486 = Returns []
  /\ Allocating.ScanRegionForPattern grants_1GiB 20 detached_scanner
       scenario_F_region dead_beef [] = Returns (ScanReturns []).
Proof.
  destruct (detached_scanner_reads_nothing grants_1GiB detached_scanner eq_refl 0x101E0)
    as (_ & Hread & _).
  destruct (detached_scanner_reads_nothing grants_1GiB detached_scanner eq_refl 0x10000)
    as (_ & _ & _ & _ & _ & _ & _ & _ & Hbytes & _ & _ & Hscan).
  split; [exact Hread |].
  split; [vm_compute; reflexivity |].
  split; [apply Hbytes; reflexivity |].
  apply Hscan. reflexivity.
Defined.

(** ** Array reads *)

Section ArrayReads.

Implicit Types (sc : MemoryScanner.t) (address : Z).

(** The array loop succeeds when each of its element reads does. *)
Lemma ReadUInt32Array_loop_complete sc address (values : list Z) :
  forall (i : Z) (acc : list Z),
    (forall (k : nat) v, values !! k = Some v ->
       MemoryScanner.ReadUInt32 sc (wrap64 (address + (i + Z.of_nat k) * 4)) = Some v) ->
    MemoryScanner.ReadUInt32Array_loop sc address i (length values) acc
    = Some (acc ++ values).
Proof.
  induction values as [| value values IH]; intros i acc Hall; simpl.
  - rewrite app_nil_r. reflexivity.
  - pose proof (Hall 0%nat value eq_refl) as Hread.
    rewrite Z.add_0_r in Hread. rewrite Hread.
    rewrite IH.
    + rewrite <- app_assoc. reflexivity.
    + intros k v Hk. rewrite <- (Hall (S k) v Hk). do 3 f_equal. lia.
Qed.

Lemma ReadUInt32Array_complete sc address (count : Z) (result : list Z) :
  length result = Z.to_nat count ->
  (forall (k : nat) v, result !! k = Some v ->
     MemoryScanner.ReadUInt32 sc (wrap64 (address + Z.of_nat k * 4)) = Some v) ->
  MemoryScanner.ReadUInt32Array sc address count = Some result.
Proof.
  intros Hlen Hall. unfold MemoryScanner.ReadUInt32Array.
  destruct (Z.eqb_spec count 0) as [-> | Hne].
  - destruct result; [reflexivity | discriminate].
  - rewrite <- Hlen.
    apply (ReadUInt32Array_loop_complete sc address result 0 []).
    exact Hall.
Qed.

(** X3.  [ReadUInt32Array] is all-or-nothing and element-wise: for a
    count that is not negative it returns a vector exactly when that vector
    has [count] elements and element [k] is what [ReadUInt32] returns at
    [address + 4 k] (in address arithmetic); so it fails as soon as one
    element cannot be read, and a count of 0 succeeds with no read at
    all. *)
Theorem ReadUInt32Array_elementwise sc address (count : Z) (result : list Z) :
  0 <= count ->
  MemoryScanner.ReadUInt32Array sc address count = Some result
  <-> length result = Z.to_nat count
      /\ forall (k : nat) v, result !! k = Some v ->
           MemoryScanner.ReadUInt32 sc (wrap64 (address + Z.of_nat k * 4)) = Some v.
Proof.
  intros Hcount. split.
  - apply ReadUInt32Array_Some, Hcount.
  - intros [Hlen Hall]. apply ReadUInt32Array_complete; assumption.
Qed.

Lemma ReadUInt32Array_elementwise_witness :
  MemoryScanner.ReadUInt32Array full_record 0x10000 2 = Some [5; 0].
Proof.
  apply (ReadUInt32Array_elementwise full_record 0x10000 2 [5; 0]); [lia |].
  split; [reflexivity |].
  intros [| [| k]] v Hk; simpl in Hk; try discriminate;
    injection Hk as <-; vm_compute; reflexivity.
Defined.

End ArrayReads.

(** ** Results of the big-integer readers *)

Section ReaderResults.
Import ObscuredBigIntegerReader.

Implicit Types (sc : MemoryScanner.t) (address base : Z).

(** The backward walk over the first [n] elements of the probe. *)
Lemma actual_length_loop_spec (probe_array : list Z) (n : nat) :
  (n <= length probe_array)%nat ->
  0 <= actual_length_loop probe_array n <= Z.of_nat n
  /\ (forall k : nat,
        (Z.to_nat (actual_length_loop probe_array n) <= k < n)%nat ->
        probe_array !!! k = 0)
  /\ (0 < actual_length_loop probe_array n ->
      probe_array !!! Z.to_nat (actual_length_loop probe_array n - 1) <> 0).
Proof.
  induction n as [| i IH]; intros Hn; simpl.
  - split; [lia |]. split; [intros k Hk; lia | lia].
  - destruct (Z.eqb_spec (probe_array !!! i) 0) as [Hzero | Hnonzero]; simpl.
    + destruct (IH ltac:(lia)) as (Hrange & Hzeros & Htop).
      split; [lia |]. split; [| exact Htop].
      intros k Hk. destruct (Nat.eq_dec k i) as [-> | Hne]; [exact Hzero |].
      apply Hzeros. lia.
    + split; [lia |]. split; [intros k Hk; lia |].
      intros _. replace (Z.to_nat (Z.of_nat i + 1 - 1)) with i by lia.
      exact Hnonzero.
Qed.

(** After a successful probe of 32 limbs, reading [len <= 32] limbs at the
    same address succeeds and returns the first [len] limbs of the probe. *)
Lemma reread_is_probe_prefix sc ptr (probe_array : list Z) (len : Z) :
  MemoryScanner.ReadUInt32Array sc ptr 32 = Some probe_array ->
  0 <= len <= 32 ->
  MemoryScanner.ReadUInt32Array sc ptr len = Some (take (Z.to_nat len) probe_array).
Proof.
  intros Hprobe Hlen.
  destruct (ReadUInt32Array_Some sc ptr 32 probe_array ltac:(lia) Hprobe)
    as (Hsize & Hall).
  apply ReadUInt32Array_complete.
  - rewrite length_take_le; [reflexivity | lia].
  - intros k v [Hk _]%lookup_take_Some. apply Hall, Hk.
Qed.

Lemma recovered_length_range (sign : Z) (probe_array : list Z) :
  length probe_array = 32%nat ->
  0 <= recovered_length sign probe_array <= 32.
Proof.
  intros Hsize. unfold recovered_length.
  destruct (actual_length_loop_spec probe_array (length probe_array) ltac:(lia))
    as (Hrange & _ & _).
  destruct (_ && _); lia.
Qed.

(** What a successful [ReadBigInteger] has gone through. *)
Lemma ReadBigInteger_inv (r : DotNetBigIntegerReader.t) sc base
      (value : DotNetBigIntegerData.t) :
  DotNetBigIntegerReader.scanner_ r = Some sc ->
  DotNetBigIntegerReader.ReadBigInteger r base = Some value ->
  IsValidPointer base = true
  /\ MemoryScanner.ReadInt32 sc base = Some (DotNetBigIntegerData.sign value)
  /\ MemoryScanner.ReadUInt64 sc (wrap64 (base + 4))
     = Some (DotNetBigIntegerData.bits_ptr value)
  /\ IsValidPointer (DotNetBigIntegerData.bits_ptr value) = true
  /\ DotNetBigIntegerData.is_valid value = true
  /\ exists probe_array,
       MemoryScanner.ReadUInt32Array sc (DotNetBigIntegerData.bits_ptr value) 32
       = Some probe_array
       /\ DotNetBigIntegerData.bits_length value
          = recovered_length (DotNetBigIntegerData.sign value) probe_array
       /\ DotNetBigIntegerData.bits_data value
          = take (Z.to_nat (DotNetBigIntegerData.bits_length value)) probe_array.
Proof.
  intros Hsc. unfold DotNetBigIntegerReader.ReadBigInteger. rewrite Hsc.
  rewrite IsValidPointer_same.
  destruct (IsValidPointer base) eqn:Hbase; [| discriminate]. simpl.
  destruct (MemoryScanner.ReadInt32 sc base) as [sign |]; [| discriminate]. simpl.
  destruct (MemoryScanner.ReadUInt64 sc _) as [ptr |]; [| discriminate]. simpl.
  rewrite IsValidPointer_same.
  destruct (IsValidPointer ptr) eqn:Hptr; [| discriminate]. simpl.
  destruct (MemoryScanner.ReadUInt32Array sc ptr 32) as [probe_array |] eqn:Hprobe;
    [| discriminate]. simpl.
  fold (recovered_length sign probe_array).
  destruct (negb _); [discriminate |].
  destruct (ReadUInt32Array_Some sc ptr 32 probe_array ltac:(lia) Hprobe)
    as (Hsize & _).
  pose proof (recovered_length_range sign probe_array Hsize) as Hrange.
  pose proof (reread_is_probe_prefix sc ptr probe_array
                (recovered_length sign probe_array) Hprobe Hrange) as Hreread.
  destruct (Z.ltb_spec 0 (recovered_length sign probe_array)) as [Hpos | Hzero].
  - rewrite Hreread. simpl. intros [= <-]. simpl.
    do 5 (split; [first [reflexivity | assumption] |]). exists probe_array.
    split; [exact Hprobe |]. split; reflexivity.
  - simpl. intros [= <-]. simpl.
    do 5 (split; [first [reflexivity | assumption] |]). exists probe_array.
    split; [exact Hprobe |]. split; [reflexivity |].
    replace (recovered_length sign probe_array) with 0 by lia. reflexivity.
Qed.

(** X4.  Invariants of a value returned by [ReadBigInteger]: it is marked
    valid, its limb vector has exactly [bits_length] elements, at most 32
    (the size of the probe window, so the limit of 10000 is never reached),
    every limb is a 32-bit value, the sign is a 32-bit signed value, and
    both the base address and the magnitude pointer lie in the range
    accepted by [IsValidPointer]. *)
Theorem ReadBigInteger_result_invariants (r : DotNetBigIntegerReader.t) base
        (value : DotNetBigIntegerData.t) :
  DotNetBigIntegerReader.ReadBigInteger r base = Some value ->
  DotNetBigIntegerData.is_valid value = true
  /\ Z.of_nat (length (DotNetBigIntegerData.bits_data value))
     = DotNetBigIntegerData.bits_length value
  /\ 0 <= DotNetBigIntegerData.bits_length value <= 32
  /\ Forall is_uint32 (DotNetBigIntegerData.bits_data value)
  /\ is_int32 (DotNetBigIntegerData.sign value)
  /\ 0x10000 <= base <= 0x7FFFFFFFFFFF
  /\ 0x10000 <= DotNetBigIntegerData.bits_ptr value <= 0x7FFFFFFFFFFF.
Proof.
  intros Hread.
  destruct (DotNetBigIntegerReader.scanner_ r) as [sc |] eqn:Hsc.
  2: { unfold DotNetBigIntegerReader.ReadBigInteger in Hread.
       rewrite Hsc in Hread. discriminate. }
  destruct (ReadBigInteger_inv r sc base value Hsc Hread)
    as (Hbase & Hsign & Hptr & Hvalid & Hflag & probe_array & Hprobe & Hlen & Hdata).
  destruct (ReadUInt32Array_Some sc _ 32 probe_array ltac:(lia) Hprobe)
    as (Hsize & Hall).
  pose proof (recovered_length_range (DotNetBigIntegerData.sign value)
                                     probe_array Hsize) as Hrange.
  rewrite <- Hlen in Hrange.
  split; [exact Hflag |].
  split; [rewrite Hdata, length_take_le; lia |].
  split; [exact Hrange |].
  split.
  { rewrite Hdata. apply Forall_lookup. intros k v [Hk _]%lookup_take_Some.
    exact (ReadUInt32_range sc _ _ (Hall k v Hk)). }
  split.
  { unfold MemoryScanner.ReadInt32 in Hsign.
    destruct (MemoryScanner.ReadValue sc base 4); [| discriminate].
    injection Hsign as <-. apply to_int32_range. }
  split; apply IsValidPointer_range; assumption.
Qed.

(** What [ReadBigIntegerContents] returns once the sign, a valid pointer
    and the probe have been read from a memory that does not change. *)
Lemma ReadBigIntegerContents_compute sc address (sign ptr : Z) (probe_array : list Z) :
  MemoryScanner.ReadInt32 sc address = Some sign ->
  MemoryScanner.ReadUInt64 sc (wrap64 (address + 4)) = Some ptr ->
  IsValidPointer ptr = true ->
  MemoryScanner.ReadUInt32Array sc ptr 32 = Some probe_array ->
  ReadBigIntegerContents sc address
  = Some (BigIntegerContents.mk sign ptr (recovered_length sign probe_array)
            (take (Z.to_nat (recovered_length sign probe_array)) probe_array)).
Proof.
  intros Hsign Hptr Hvalid Hprobe.
  destruct (ReadUInt32Array_Some sc ptr 32 probe_array ltac:(lia) Hprobe)
    as (Hsize & _).
  pose proof (recovered_length_range sign probe_array Hsize) as Hrange.
  pose proof (reread_is_probe_prefix sc ptr probe_array
                (recovered_length sign probe_array) Hprobe Hrange) as Hreread.
  pose proof (IsValidPointer_range _ Hvalid) as Hptr_range.
  unfold ReadBigIntegerContents. rewrite Hsign. simpl. rewrite Hptr. simpl.
  replace (ptr =? 0) with false by (symmetry; apply Z.eqb_neq; lia).
  rewrite Hvalid. simpl. rewrite Hprobe. simpl.
  fold (recovered_length sign probe_array).
  destruct (Z.ltb_spec 0 (recovered_length sign probe_array)) as [Hpos | Hzero].
  - rewrite Hreread. reflexivity.
  - simpl. replace (recovered_length sign probe_array) with 0 by lia. reflexivity.
Qed.

(** X8.  [ReadBigIntegerContents] does not check its base address, and a
    null magnitude pointer is not a failure: when the sign word is read and
    the pointer read is null, it returns the sign as read with length 0 and
    no limbs, also for a sign that is not zero, and it reads nothing more.
    In every value it returns, the sign and the pointer are those read at
    the address and four bytes after it, and the pointer is either null,
    with length 0 and no limbs, or a valid pointer at which the probe of 32
    limbs could be read. *)
Theorem ReadBigIntegerContents_null_pointer sc address :
  (forall sign,
     MemoryScanner.ReadInt32 sc address = Some sign ->
     MemoryScanner.ReadUInt64 sc (wrap64 (address + 4)) = Some 0 ->
     ReadBigIntegerContents sc address = Some (BigIntegerContents.mk sign 0 0 []))
  /\ (forall raw,
        ReadBigIntegerContents sc address = Some raw ->
        MemoryScanner.ReadInt32 sc address = Some (BigIntegerContents.sign raw)
        /\ MemoryScanner.ReadUInt64 sc (wrap64 (address + 4))
           = Some (BigIntegerContents.bits_ptr raw)
        /\ ((BigIntegerContents.bits_ptr raw = 0
             /\ BigIntegerContents.bits_length raw = 0
             /\ BigIntegerContents.bits_data raw = [])
            \/ (IsValidPointer (BigIntegerContents.bits_ptr raw) = true
                /\ is_Some (MemoryScanner.ReadUInt32Array
                              sc (BigIntegerContents.bits_ptr raw) 32)))).
Proof.
  split.
  - intros sign Hsign Hptr. unfold ReadBigIntegerContents.
    rewrite Hsign. simpl. rewrite Hptr. reflexivity.
  - intros raw. unfold ReadBigIntegerContents.
    destruct (MemoryScanner.ReadInt32 sc address) as [sign |]; [| discriminate].
    simpl.
    destruct (MemoryScanner.ReadUInt64 sc _) as [ptr |]; [| discriminate].
    simpl.
    destruct (Z.eqb_spec ptr 0) as [-> | Hne].
    + intros [= <-]. simpl. do 2 (split; [reflexivity |]).
      left. repeat split.
    + destruct (IsValidPointer ptr) eqn:Hvalid; [| discriminate]. simpl.
      destruct (MemoryScanner.ReadUInt32Array sc ptr 32) as [probe_array |] eqn:Hprobe;
        [| discriminate].
      simpl.
      destruct (if 0 <? _ then _ else _) as [bits_data |]; [| discriminate].
      simpl. intros [= <-]. simpl. do 2 (split; [reflexivity |]).
      right. split; [exact Hvalid |]. rewrite Hprobe. eexists. reflexivity.
Qed.

End ReaderResults.

Lemma ReadBigIntegerContents_null_pointer_witness :
  ObscuredBigIntegerReader.ReadBigIntegerContents low_structure 0x100
  = Some (BigIntegerContents.mk (-1) 0 0 [])
  /\ MemoryScanner.ReadUInt64 full_record (wrap64 (0x10100 + 4)) = Some 0x10000
  /\ is_Some (MemoryScanner.ReadUInt32Array full_record 0x10000 32).
Proof.
  destruct (ReadBigIntegerContents_null_pointer low_structure 0x100) as [Hnull _].
  destruct (ReadBigIntegerContents_null_pointer full_record 0x10100) as [_ Hread].
  destruct (Hread (BigIntegerContents.mk 1 0x10000 1 [5]) ltac:(vm_compute; reflexivity))
    as (_ & Hptr & [(Hzero & _) | (_ & Hprobe)]); [discriminate Hzero |].
  split; [apply Hnull; vm_compute; reflexivity |].
  split; [exact Hptr | exact Hprobe].
Defined.

Lemma ReadBigInteger_result_invariants_witness :
  DotNetBigIntegerReader.ReadBigInteger
    (DotNetBigIntegerReader.mk (Some full_record)) 0x10100 = Some hidden_five
  /\ Z.of_nat (length (DotNetBigIntegerData.bits_data hidden_five)) = 1
  /\ Forall is_uint32 [5].
Proof.
  assert (Hread : DotNetBigIntegerReader.ReadBigInteger
                    (DotNetBigIntegerReader.mk (Some full_record)) 0x10100
                  = Some hidden_five) by (vm_compute; reflexivity).
  destruct (ReadBigInteger_result_invariants _ _ _ Hread)
    as (_ & Hlen & _ & Hlimbs & _).
  split; [exact Hread |]. split; [exact Hlen | exact Hlimbs].
Defined.

(** ** The validity predicates *)

Section Validity.
Import ObscuredBigIntegerReader.

(** X9.  The validity predicates say no more than that the read
    succeeds: [IsValidBigInteger] is [true] exactly when [ReadBigInteger]
    returns a value, and [IsValidObscuredBigInteger] exactly when
    [ReadObscuredBigInteger] returns a record. *)
Theorem validity_is_read_success (sc : MemoryScanner.t) (base : Z)
        (junk_sign junk_ptr junk_length sizeof_S : Z) :
  (DotNetBigIntegerReader.IsValidBigInteger
     (DotNetBigIntegerReader.mk (Some sc)) base = true
   <-> is_Some (DotNetBigIntegerReader.ReadBigInteger
                  (DotNetBigIntegerReader.mk (Some sc)) base))
  /\ (IsValidObscuredBigInteger junk_sign junk_ptr junk_length sizeof_S
        (make (Some sc)) base = true
      <-> is_Some (ReadObscuredBigInteger junk_sign junk_ptr junk_length sizeof_S
                     (make (Some sc)) base)).
Proof.
  split.
  - unfold DotNetBigIntegerReader.IsValidBigInteger.
    destruct (DotNetBigIntegerReader.ReadBigInteger _ base) as [value |] eqn:Hread.
    + destruct (ReadBigInteger_inv (DotNetBigIntegerReader.mk (Some sc)) sc base value
                  eq_refl Hread)
        as (_ & _ & _ & _ & Hflag & _).
      rewrite Hflag. split; [eexists; reflexivity | reflexivity].
    + split; [discriminate | intros [? [=]]].
  - unfold IsValidObscuredBigInteger.
    destruct (ReadObscuredBigInteger _ _ _ _ _ base) as [record |] eqn:Hread.
    + split; [eexists; reflexivity | intros _].
      revert Hread. unfold ReadObscuredBigInteger.
      change (scanner_ (make (Some sc))) with (Some sc).
      destruct (negb _); [discriminate |].
      do 5 (match goal with
            | |- (?e ≫= _) = _ -> _ => destruct e; [simpl | discriminate]
            end).
      intros [= <-]. reflexivity.
    + split; [discriminate | intros [? [=]]].
Qed.

End Validity.

Lemma validity_is_read_success_witness :
  DotNetBigIntegerReader.IsValidBigInteger
    (DotNetBigIntegerReader.mk (Some full_record)) 0x10100 = true
  /\ ObscuredBigIntegerReader.IsValidObscuredBigInteger 0 0 0 112
       (ObscuredBigIntegerReader.make (Some full_record)) 0x10100 = true.
Proof.
  destruct (validity_is_read_success full_record 0x10100 0 0 0 112)
    as [Hvalue Hrecord].
  split.
  - apply Hvalue. eexists. vm_compute. reflexivity.
  - apply Hrecord. eexists. vm_compute. reflexivity.
Defined.

(** ** More on the shuffle cipher *)

Section ShuffleCipherMore.
Import ObscuredBigIntegerReader.

Lemma lxor_uint32 a b : is_uint32 a -> is_uint32 b -> is_uint32 (Z.lxor a b).
Proof.
  intros Ha Hb. pose proof (wrap32_lxor a b) as H.
  rewrite (wrap32_small a Ha), (wrap32_small b Hb) in H.
  unfold is_uint32. rewrite <- H. unfold wrap32.
  pose proof (Z.mod_pos_bound (Z.lxor a b) (2 ^ 32) ltac:(lia)). lia.
Qed.

(** X10.  Decryption keeps the tuple well-typed and its shape: for a
    32-bit key, a sign in the [int32_t] range and limbs in the [uint32_t]
    range, the decrypted sign and limbs are again in those ranges, the
    number of limbs is unchanged, and the pointer and the recorded length
    are copied. *)
Theorem decrypt_preserves_types (t : BigIntegerContents.t) (key : Z) :
  is_uint32 key ->
  is_int32 (BigIntegerContents.sign t) ->
  Forall is_uint32 (BigIntegerContents.bits_data t) ->
  let t' := DecryptBigIntegerContents t key in
  is_int32 (BigIntegerContents.sign t')
  /\ Forall is_uint32 (BigIntegerContents.bits_data t')
  /\ length (BigIntegerContents.bits_data t') = length (BigIntegerContents.bits_data t)
  /\ BigIntegerContents.bits_ptr t' = BigIntegerContents.bits_ptr t
  /\ BigIntegerContents.bits_length t' = BigIntegerContents.bits_length t.
Proof.
  intros Hkey Hsign Hlimbs t'. subst t'.
  split; [apply decrypt_sign_int32, Hsign |].
  split; [| split; [apply decrypt_limbs_length | split; reflexivity]].
  destruct (limbs_shape (BigIntegerContents.bits_data t))
    as [Hnil | [[x Hone] | (first & mid & last & Hmany)]].
  - rewrite (decrypt_limbs_empty _ _ Hnil). constructor.
  - rewrite (decrypt_limbs_single _ _ _ Hone). rewrite Hone in Hlimbs.
    apply Forall_inv in Hlimbs.
    constructor; [apply lxor_uint32; assumption | constructor].
  - rewrite (decrypt_limbs_many _ _ _ _ _ Hmany). rewrite Hmany in Hlimbs.
    pose proof (Forall_inv Hlimbs) as Hfirst.
    pose proof (Forall_inv_tail Hlimbs) as Hrest.
    apply Forall_app in Hrest as [Hmid Hlast].
    apply Forall_inv in Hlast.
    constructor; [apply lxor_uint32; assumption |].
    apply Forall_app. split; [exact Hmid |].
    constructor; [apply lxor_uint32; assumption | constructor].
Qed.

Lemma decrypt_preserves_types_witness :
  Forall is_uint32
    (BigIntegerContents.bits_data
       (DecryptBigIntegerContents (BigIntegerContents.mk (-1) 0x20000 3 [1; 2; 3]) 0xFF)).
Proof.
  destruct (decrypt_preserves_types (BigIntegerContents.mk (-1) 0x20000 3 [1; 2; 3])
                                    0xFF) as (_ & Hlimbs & _).
  - unfold is_uint32. lia.
  - unfold is_int32. simpl. lia.
  - repeat constructor; unfold is_uint32; lia.
  - exact Hlimbs.
Defined.

(** X11.  [DecryptSerializableBigInteger] changes the raw view only: the
    big-integer view and the validity flag of its result are those of its
    argument, whatever the key, and applying it twice with one key gives
    back the argument. *)
Theorem DecryptSerializableBigInteger_raw_only (s : SerializableBigInteger.t) (key : Z) :
  SerializableBigInteger.bigint_value (DecryptSerializableBigInteger s key)
  = SerializableBigInteger.bigint_value s
  /\ SerializableBigInteger.is_valid (DecryptSerializableBigInteger s key)
     = SerializableBigInteger.is_valid s
  /\ SerializableBigInteger.raw_contents (DecryptSerializableBigInteger s key)
     = DecryptBigIntegerContents (SerializableBigInteger.raw_contents s) key
  /\ DecryptSerializableBigInteger (DecryptSerializableBigInteger s key) key = s.
Proof.
  repeat split.
  destruct s as [value raw valid]. unfold DecryptSerializableBigInteger. simpl.
  f_equal. apply contents_eq.
  - rewrite !decrypt_sign. apply lxor_cancel.
  - reflexivity.
  - reflexivity.
  - apply decrypt_limbs_twice.
Qed.

End ShuffleCipherMore.

(** ** More on the pattern scan *)

Section PatternScanMore.

Implicit Types (sc : MemoryScanner.t) (region : MemoryRegion)
         (region_data pattern mask rest : list byte).

Lemma ReadMemory_size_limits (pm : ProcessManager.t) (address size : Z) :
  size = 0 \/ MAX_READ_SIZE < size ->
  ProcessManager.ReadMemory pm address size = None.
Proof.
  intros Hsize. unfold ProcessManager.ReadMemory.
  destruct (negb _); [reflexivity |].
  destruct (Z.eqb_spec size 0); [reflexivity |].
  destruct (Z.ltb_spec MAX_READ_SIZE size); [reflexivity | lia].
Qed.

Lemma scan_of_unread_region fuel sc region pattern mask :
  ProcessManager.ReadMemory (MemoryScanner.process_mgr_ sc)
                            (base_address region) (size region) = None ->
  MemoryScanner.ScanRegionForPattern fuel sc region pattern mask = ScanReturns [].
Proof.
  intros Hread. unfold MemoryScanner.ScanRegionForPattern, MemoryScanner.ReadBytes.
  rewrite Hread. destruct pattern; reflexivity.
Qed.

(** X12.  A region that cannot be scanned gives no match and no error.
    For an empty pattern and for a region of size 0 [ScanRegionForPattern]
    returns the empty result without allocating.  Otherwise it first
    allocates a buffer of the size of the region: when the allocator refuses
    it the scan throws, and when the buffer is granted but the region is
    larger than [MAX_READ_SIZE] (16 MiB, which [ReadMemory] refuses to read
    in one piece) or its read fails, the scan returns the empty result,
    whatever the region holds. *)
Theorem unscannable_region_gives_no_match (grants : Z -> bool) fuel sc region
        pattern mask :
  (pattern = [] \/ size region = 0
   \/ (grants (size region) = true
       /\ (MAX_READ_SIZE < size region
           \/ ProcessManager.ReadMemory (MemoryScanner.process_mgr_ sc)
                                        (base_address region) (size region) = None)) ->
   Allocating.ScanRegionForPattern grants fuel sc region pattern mask
   = Returns (ScanReturns []))
  /\ (pattern <> [] -> size region <> 0 -> grants (size region) = false ->
      Allocating.ScanRegionForPattern grants fuel sc region pattern mask = Throws).
Proof.
  split.
  - intros Hcases. unfold Allocating.ScanRegionForPattern, Allocating.ReadBytes.
    destruct pattern as [| p0 pattern']; [reflexivity |].
    destruct Hcases as [Hempty | [Hzero | [Hgrant Hunread]]]; [discriminate | |].
    + replace (size region =? 0) with true by (symmetry; apply Z.eqb_eq; exact Hzero).
      cbn [orb].
      rewrite scan_of_unread_region; [reflexivity |].
      apply ReadMemory_size_limits. left. exact Hzero.
    + rewrite Hgrant, orb_true_r.
      rewrite scan_of_unread_region; [reflexivity |].
      destruct Hunread as [Hlarge | Hread]; [| exact Hread].
      apply ReadMemory_size_limits. right. exact Hlarge.
  - intros Hpattern Hsize Hrefused.
    unfold Allocating.ScanRegionForPattern, Allocating.ReadBytes.
    destruct pattern as [| p0 pattern']; [congruence |].
    rewrite Hrefused.
    replace (size region =? 0) with false by (symmetry; apply Z.eqb_neq; exact Hsize).
    reflexivity.
Qed.

(** The region loop of [ScanForPattern] with an accumulator. *)
Lemma ScanForPattern_loop_returns fuel sc pattern mask :
  forall (regions : list MemoryRegion) (per_region : list (list Z)) (results : list Z),
    Forall2 (fun region region_results =>
               MemoryScanner.ScanRegionForPattern fuel sc region pattern mask
               = ScanReturns region_results)
            (List.filter MemoryScanner.IsValidScanRegion regions) per_region ->
    MemoryScanner.ScanForPattern_loop fuel sc regions pattern mask results
    = ScanReturns (results ++ concat per_region).
Proof.
  induction regions as [| region regions IH]; intros per_region results Hall; simpl.
  - simpl in Hall. inversion Hall. simpl. rewrite app_nil_r. reflexivity.
  - simpl in Hall.
    destruct (MemoryScanner.IsValidScanRegion region); simpl.
    + inversion Hall as [| ? region_results ? per_region' Hscan Hrest]; subst.
      rewrite Hscan. rewrite (IH per_region' _ Hrest).
      simpl. rewrite app_assoc. reflexivity.
    + apply IH, Hall.
Qed.

(** X13.  [ScanForPattern] skips the regions that [IsValidScanRegion]
    rejects (size 0 or base address 0) and, when the scan of each remaining
    region returns, returns the concatenation of their results in the order
    of the region list. *)
Theorem ScanForPattern_concatenates fuel sc (regions : list MemoryRegion)
        pattern mask (per_region : list (list Z)) :
  Forall2 (fun region region_results =>
             MemoryScanner.ScanRegionForPattern fuel sc region pattern mask
             = ScanReturns region_results)
          (List.filter MemoryScanner.IsValidScanRegion regions) per_region ->
  MemoryScanner.ScanForPattern fuel sc regions pattern mask
  = ScanReturns (concat per_region).
Proof.
  intros Hall. unfold MemoryScanner.ScanForPattern.
  rewrite (ScanForPattern_loop_returns fuel sc pattern mask regions per_region []
             Hall).
  reflexivity.
Qed.

(** X14.  After [SetScanRange(start, end)] a scan finds nothing when
    [start] is 0, when the range is empty or when the pattern is empty: no
    buffer is then allocated.  For any other range the scan allocates a
    buffer as long as the range; when that buffer is granted and the range
    is longer than [MAX_READ_SIZE], the region cannot be read in one piece
    and the scan finds nothing, and when the buffer is refused the scan
    throws. *)
Theorem SetScanRange_scans_at_most_16MiB (grants : Z -> bool) fuel sc
        (start end_ : Z) pattern mask :
  0 <= start <= end_ -> end_ < 2 ^ 64 ->
  (start = 0 \/ end_ = start \/ pattern = []
   \/ (MAX_READ_SIZE < end_ - start /\ grants (end_ - start) = true) ->
   Allocating.ScanForPattern grants fuel sc (MemoryScanner.SetScanRange start end_)
                             pattern mask
   = Returns (ScanReturns []))
  /\ (start <> 0 -> end_ <> start -> pattern <> [] ->
      grants (end_ - start) = false ->
      Allocating.ScanForPattern grants fuel sc (MemoryScanner.SetScanRange start end_)
                                pattern mask
      = Throws).
Proof.
  intros Horder Hend.
  unfold Allocating.ScanForPattern, MemoryScanner.SetScanRange. simpl.
  unfold MemoryScanner.IsValidScanRegion. simpl.
  rewrite wrap64_small by lia.
  split.
  - intros Hcases.
    destruct (Z.ltb_spec 0 (end_ - start)) as [Hpos | Hempty]; simpl;
      [| reflexivity].
    destruct (Z.eqb_spec start 0) as [Hnull | Hbase]; simpl; [reflexivity |].
    unfold Allocating.ScanRegionForPattern, Allocating.ReadBytes. simpl.
    destruct pattern as [| p0 pattern']; [reflexivity |].
    destruct Hcases as [Hnull | [Hsame | [Hpattern | [Hlarge Hgrant]]]];
      [lia | lia | discriminate |].
    rewrite Hgrant, orb_true_r.
    rewrite scan_of_unread_region; [reflexivity |].
    apply ReadMemory_size_limits. simpl. right. exact Hlarge.
  - intros Hbase Hrange Hpattern Hrefused.
    destruct (Z.ltb_spec 0 (end_ - start)) as [Hpos | Hempty]; simpl; [| lia].
    destruct (Z.eqb_spec start 0) as [Hnull | _]; simpl; [contradiction |].
    unfold Allocating.ScanRegionForPattern, Allocating.ReadBytes. simpl.
    destruct pattern as [| p0 pattern']; [congruence |].
    rewrite Hrefused.
    replace (end_ - start =? 0) with false by (symmetry; apply Z.eqb_neq; lia).
    reflexivity.
Qed.

(** The inner loop under a mask that ends before the pattern does: while
    the buffer agrees with the pattern at the positions the mask makes
    significant, the loop reaches the first index past the mask and reads
    the mask there. *)
Lemma match_loop_short_mask region_data mask rest :
  Z.of_nat (length region_data) < 2 ^ 64 ->
  forall j : nat,
    mask <> [] ->
    (j <= length mask < j + length rest)%nat ->
    (forall (k : nat) pattern_k mask_k,
        rest !! k = Some pattern_k -> mask !! (j + k)%nat = Some mask_k ->
        mask_k <> x00 -> region_data !! (j + k)%nat = Some pattern_k) ->
    MemoryScanner.match_loop region_data mask 0 rest (Z.of_nat j)
    = inl (MaskIndexOutOfBounds (Z.of_nat (length mask))).
Proof.
  intros Hsize.
  induction rest as [| pattern_j rest' IH]; intros j Hmask Hj Hagree.
  - simpl in Hj. lia.
  - simpl MemoryScanner.match_loop.
    destruct mask as [| mask_0 mask'] eqn:Emask; [congruence |].
    rewrite <- Emask in *. rewrite Nat2Z.id.
    destruct (mask !! j) as [mask_j |] eqn:Hmask_j.
    + assert (Hlt : (j < length mask)%nat) by (apply lookup_lt_Some in Hmask_j; lia).
      assert (Hnext : MemoryScanner.match_loop region_data mask 0 rest'
                                               (Z.of_nat j + 1)
                      = inl (MaskIndexOutOfBounds (Z.of_nat (length mask)))).
      { replace (Z.of_nat j + 1) with (Z.of_nat (S j)) by lia.
        apply IH; [exact Hmask | simpl in Hj; lia |].
        intros k pattern_k mask_k Hk Hm Hcare.
        replace (S j + k)%nat with (j + S k)%nat in * by lia.
        apply (Hagree (S k) pattern_k mask_k); assumption. }
      destruct (byte_eqb_spec mask_j x00) as [-> | Hcare]; [exact Hnext |].
      pose proof (Hagree 0%nat pattern_j mask_j eq_refl) as Hdata.
      rewrite Nat.add_0_r in Hdata. specialize (Hdata Hmask_j Hcare).
      apply lookup_lt_Some in Hdata as Hbound.
      rewrite wrap64_small by lia.
      rewrite Z.add_0_l, Nat2Z.id, Hdata.
      destruct (byte_eqb_spec pattern_j pattern_j) as [_ | Hne]; [| congruence].
      exact Hnext.
    + apply lookup_ge_None in Hmask_j.
      replace j with (length mask) by lia. reflexivity.
Qed.

(** X15.  A non-empty mask shorter than the pattern makes the scan read the
    mask past its end: when the buffer read from the region agrees at
    offset 0 with the pattern wherever the mask has a non-zero byte, the
    first iteration indexes the mask at [mask.size()]. *)
Theorem short_mask_is_read_past_its_end (fuel : nat) sc region pattern mask
        region_data :
  mask <> [] ->
  (length mask < length pattern)%nat ->
  ProcessManager.ReadMemory (MemoryScanner.process_mgr_ sc)
                            (base_address region) (size region) = Some region_data ->
  (forall (k : nat) pattern_k mask_k,
      pattern !! k = Some pattern_k -> mask !! k = Some mask_k ->
      mask_k <> x00 -> region_data !! k = Some pattern_k) ->
  MemoryScanner.ScanRegionForPattern (S fuel) sc region pattern mask
  = ScanFaults (MaskIndexOutOfBounds (Z.of_nat (length mask))).
Proof.
  intros Hmask Hshort Hread Hagree.
  destruct (ReadMemory_Some _ _ _ _ Hread) as [Hlen Hsize].
  unfold MemoryScanner.ScanRegionForPattern, MemoryScanner.ReadBytes.
  rewrite Hread.
  destruct pattern as [| p0 pattern'] eqn:Epattern; [simpl in Hshort; lia |].
  rewrite <- Epattern in *.
  destruct region_data as [| d0 data'] eqn:Edata; [simpl in Hlen; lia |].
  rewrite <- Edata in *.
  simpl MemoryScanner.scan_loop.
  replace (0 <=? wrap64 _) with true.
  2: { symmetry. apply Z.leb_le. unfold wrap64.
       apply Z.mod_pos_bound. lia. }
  assert (Hloop : MemoryScanner.match_loop region_data mask 0 pattern (Z.of_nat 0)
                  = inl (MaskIndexOutOfBounds (Z.of_nat (length mask)))).
  { apply match_loop_short_mask;
      [unfold MAX_READ_SIZE in Hsize; lia | exact Hmask | lia |].
    intros k pattern_k mask_k Hk Hm Hcare. simpl.
    apply (Hagree k pattern_k mask_k); assumption. }
  change (Z.of_nat 0) with 0 in Hloop. rewrite Hloop. reflexivity.
Qed.

End PatternScanMore.

Lemma ScanForPattern_concatenates_witness :
  MemoryScanner.ScanForPattern 20 scenario_F
    [null_based_region; scenario_F_region; scenario_F_region] dead_beef []
  = ScanReturns [0x10040; 0x10040].
Proof.
  apply (ScanForPattern_concatenates 20 scenario_F
           [null_based_region; scenario_F_region; scenario_F_region]
           dead_beef [] [[0x10040]; [0x10040]]).
  simpl. repeat constructor; vm_compute; reflexivity.
Defined.

Lemma unscannable_region_gives_no_match_witness :
  Allocating.ScanRegionForPattern grants_1GiB 20 scenario_F oversized_region
    dead_beef [] = Returns (ScanReturns [])
  /\ Allocating.ScanRegionForPattern grants_1GiB 20 scenario_F
       {| base_address := 0x10000; size := 2 ^ 63; protection := 4;
          name := EmptyString |}
       dead_beef [] = Throws
  /\ Allocating.ScanRegionForPattern grants_1GiB 20 scenario_F scenario_F_region
       dead_beef [] = Returns (ScanReturns [0x10040]).
Proof.
  split; [| split].
  - apply (unscannable_region_gives_no_match grants_1GiB 20 scenario_F
             oversized_region dead_beef []).
    right. right. split; [reflexivity |]. left. reflexivity.
  - apply (unscannable_region_gives_no_match grants_1GiB 20 scenario_F
             {| base_address := 0x10000; size := 2 ^ 63; protection := 4;
                name := EmptyString |} dead_beef []).
    + discriminate.
    + discriminate.
    + reflexivity.
  - vm_compute. reflexivity.
Defined.

Lemma SetScanRange_scans_at_most_16MiB_witness :
  Allocating.ScanForPattern grants_1GiB 20 scenario_F
    (MemoryScanner.SetScanRange 0x10000 0x2010000) dead_beef []
  = Returns (ScanReturns [])
  /\ Allocating.ScanForPattern grants_1GiB 20 scenario_F
       (MemoryScanner.SetScanRange 0x10000 (2 ^ 64 - 1)) dead_beef []
     = Throws
  /\ Allocating.ScanForPattern grants_1GiB 20 scenario_F
       (MemoryScanner.SetScanRange 0x10000 0x10048) dead_beef []
     = Returns (ScanReturns [0x10040]).
Proof.
  split; [| split].
  - apply (SetScanRange_scans_at_most_16MiB grants_1GiB 20 scenario_F
             0x10000 0x2010000 dead_beef []); [lia | lia |].
    right. right. right. split; [reflexivity | reflexivity].
  - apply (SetScanRange_scans_at_most_16MiB grants_1GiB 20 scenario_F
             0x10000 (2 ^ 64 - 1) dead_beef []);
      [lia | lia | discriminate | discriminate | discriminate | reflexivity].
  - vm_compute. reflexivity.
Defined.

Lemma short_mask_is_read_past_its_end_witness :
  MemoryScanner.ScanRegionForPattern 1 masked_scanner
    {| base_address := 0x10004; size := 8; protection := 4; name := EmptyString |}
    dead_beef short_mask
  = ScanFaults (MaskIndexOutOfBounds 2).
Proof.
  apply (short_mask_is_read_past_its_end 0 masked_scanner _ dead_beef short_mask
           (drop 4 masked_bytes)).
  - discriminate.
  - simpl. lia.
  - vm_compute. reflexivity.
  - intros [| [| k]] pattern_k mask_k Hp Hm Hcare; simpl in Hp, Hm.
    + injection Hp as <-. reflexivity.
    + injection Hm as <-. contradiction.
    + discriminate.
Defined.

(** ** Hexadecimal strings (common.cpp) *)

Section HexStrings.

Implicit Types (hex : list ascii) (bytes : list byte) (c : ascii).

Lemma clean_hex_of_app hex1 hex2 :
  clean_hex_of (hex1 ++ hex2) = clean_hex_of hex1 ++ clean_hex_of hex2.
Proof.
  induction hex1 as [| c hex1 IH]; simpl; [reflexivity |].
  destruct (isxdigit c); simpl; rewrite IH; reflexivity.
Qed.

Lemma clean_hex_of_junk (junk : list ascii) :
  Forall (fun c => isxdigit c = false) junk -> clean_hex_of junk = [].
Proof.
  induction 1 as [| c junk Hc _ IH]; simpl; [reflexivity |].
  rewrite Hc. exact IH.
Qed.

Lemma length_clean_hex_of hex :
  length (clean_hex_of hex) = length (List.filter isxdigit hex).
Proof.
  induction hex as [| c hex IH]; simpl; [reflexivity |].
  destruct (isxdigit c); simpl; rewrite IH; reflexivity.
Qed.

(** The two digits printed for a byte are upper-case hexadecimal digits,
    are not the wildcard, and read back as the byte. *)
Lemma two_hex_digits_spec (b : byte) :
  exists high low,
    two_hex_digits b = [high; low]
    /\ isxdigit high = true /\ isxdigit low = true
    /\ toupper high = high /\ toupper low = low
    /\ (Ascii.eqb high "?" && Ascii.eqb low "?")%bool = false
    /\ option_map to_uint8 (stoul16 [high; low]) = Some b.
Proof.
  destruct b; do 2 eexists; (split; [reflexivity |]); vm_compute; repeat split.
Qed.

Lemma clean_hex_of_printed (i : nat) bytes :
  clean_hex_of (BytesToHexString_loop i bytes)
  = concat (List.map two_hex_digits bytes).
Proof.
  revert i. induction bytes as [| b bytes IH]; intros i; [reflexivity |].
  cbn [BytesToHexString_loop List.map concat].
  rewrite !clean_hex_of_app, IH.
  replace (clean_hex_of (if (0 <? i)%nat then [" "%char] else [])) with (@nil ascii)
    by (destruct (0 <? i)%nat; reflexivity).
  destruct (two_hex_digits_spec b)
    as (high & low & -> & Hhigh & Hlow & Hup_high & Hup_low & _).
  simpl. rewrite Hhigh, Hlow, Hup_high, Hup_low. reflexivity.
Qed.

Lemma parse_printed bytes :
  parse_hex_pairs (concat (List.map two_hex_digits bytes)) = Some bytes.
Proof.
  induction bytes as [| b bytes IH]; [reflexivity |].
  cbn [List.map concat].
  destruct (two_hex_digits_spec b)
    as (high & low & -> & _ & _ & _ & _ & Hwild & Hvalue).
  change (([high; low] ++ concat (List.map two_hex_digits bytes)))
    with (high :: low :: concat (List.map two_hex_digits bytes)).
  cbn [parse_hex_pairs]. rewrite Hwild, IH.
  destruct (stoul16 [high; low]) as [value |]; [| discriminate].
  simpl in Hvalue. injection Hvalue as ->. reflexivity.
Qed.

Lemma length_printed bytes :
  length (concat (List.map two_hex_digits bytes)) = (2 * length bytes)%nat.
Proof.
  induction bytes as [| b bytes IH]; [reflexivity |].
  cbn [List.map concat]. rewrite length_app, IH. simpl. lia.
Qed.

(** X16.  [HexStringToBytes] inverts [BytesToHexString]: the text printed
    for a byte vector reads back as that vector. *)
Theorem hex_string_round_trip bytes :
  HexStringToBytes (BytesToHexString bytes) = bytes.
Proof.
  unfold HexStringToBytes, BytesToHexString.
  rewrite list_ascii_of_string_of_list_ascii, clean_hex_of_printed.
  rewrite length_printed, parse_printed.
  replace (Z.of_nat (2 * length bytes) mod 2 =? 0) with true; [reflexivity |].
  symmetry. apply Z.eqb_eq.
  rewrite Nat2Z.inj_mul, Z.mul_comm. apply Z.mod_mul. lia.
Qed.

(** X17.  [HexStringToBytes] drops every character that is not a
    hexadecimal digit before it pairs the digits, so such characters can be
    removed from the input without changing the result; this includes the
    wildcard "??", which therefore never produces the placeholder byte. *)
Theorem HexStringToBytes_ignores_other_characters (before junk after : list ascii) :
  Forall (fun c => isxdigit c = false) junk ->
  HexStringToBytes (string_of_list_ascii (before ++ junk ++ after))
  = HexStringToBytes (string_of_list_ascii (before ++ after))
  /\ HexStringToBytes (string_of_list_ascii (before ++ ["?"; "?"]%char ++ after))
     = HexStringToBytes (string_of_list_ascii (before ++ after)).
Proof.
  assert (Hdrop : forall other : list ascii,
            Forall (fun c => isxdigit c = false) other ->
            HexStringToBytes (string_of_list_ascii (before ++ other ++ after))
            = HexStringToBytes (string_of_list_ascii (before ++ after))).
  { intros other Hother. unfold HexStringToBytes.
    rewrite !list_ascii_of_string_of_list_ascii, !clean_hex_of_app.
    rewrite (clean_hex_of_junk other Hother). reflexivity. }
  intros Hjunk. split; [apply Hdrop, Hjunk |].
  apply Hdrop. repeat constructor.
Qed.

Lemma hex_digit_value_toupper c :
  isxdigit c = true -> hex_digit_value (toupper c) <> None.
Proof.
  destruct c as [[] [] [] [] [] [] [] []]; vm_compute; congruence.
Qed.

Lemma clean_hex_of_digits hex :
  Forall (fun c => hex_digit_value c <> None) (clean_hex_of hex).
Proof.
  induction hex as [| c hex IH]; simpl; [constructor |].
  destruct (isxdigit c) eqn:Hc; [| exact IH].
  constructor; [apply hex_digit_value_toupper, Hc | exact IH].
Qed.

(** On a string of digits the pairing loop never meets the exception and
    produces one byte for every two characters. *)
Lemma parse_hex_pairs_digits (n : nat) :
  forall clean_hex : list ascii,
    (length clean_hex <= n)%nat ->
    Forall (fun c => hex_digit_value c <> None) clean_hex ->
    exists bytes,
      parse_hex_pairs clean_hex = Some bytes
      /\ length bytes = (length clean_hex / 2)%nat.
Proof.
  induction n as [| n IH]; intros clean_hex Hlen Hdigits.
  - destruct clean_hex; [| simpl length in Hlen; lia]. exists []. split; reflexivity.
  - destruct clean_hex as [| c1 [| c2 rest]].
    + exists []. split; reflexivity.
    + exists []. split; reflexivity.
    + pose proof (Forall_inv Hdigits) as Hc1.
      pose proof (Forall_inv_tail (Forall_inv_tail Hdigits)) as Hrest.
      assert (Hshorter : (length rest <= n)%nat) by (simpl length in Hlen; lia).
      destruct (IH rest Hshorter Hrest) as (bytes & Hparse & Hcount).
      assert (Hhalf : (length (c1 :: c2 :: rest) / 2 = S (length rest / 2))%nat).
      { change (length (c1 :: c2 :: rest)) with (1 * 2 + length rest)%nat.
        rewrite Nat.div_add_l by lia. lia. }
      cbn [parse_hex_pairs]. rewrite Hparse.
      destruct (Ascii.eqb c1 "?" && Ascii.eqb c2 "?")%bool.
      * eexists. split; [reflexivity |]. rewrite Hhalf. simpl length. lia.
      * unfold stoul16.
        destruct (hex_digit_value c1) as [digit |] eqn:Hvalue; [| congruence].
        eexists. split; [reflexivity |]. rewrite Hhalf. simpl length. lia.
Qed.

(** X18.  The number of bytes [HexStringToBytes] returns depends on the
    number of hexadecimal digits of its input only: none when that number
    is odd, half of it when it is even. *)
Theorem HexStringToBytes_length (hex : string) :
  let digits := length (List.filter isxdigit (list_ascii_of_string hex)) in
  ((digits mod 2 = 1)%nat -> HexStringToBytes hex = [])
  /\ ((digits mod 2 = 0)%nat -> length (HexStringToBytes hex) = (digits / 2)%nat).
Proof.
  intros digits. unfold HexStringToBytes.
  set (clean_hex := clean_hex_of (list_ascii_of_string hex)).
  assert (Hcount : length clean_hex = digits) by apply length_clean_hex_of.
  rewrite Hcount.
  assert (Hmod : Z.of_nat digits mod 2 = Z.of_nat (digits mod 2)).
  { rewrite Nat2Z.inj_mod. reflexivity. }
  rewrite Hmod. split; intros Hparity; rewrite Hparity; simpl; [reflexivity |].
  destruct (parse_hex_pairs_digits (length clean_hex) clean_hex (le_n _)
              (clean_hex_of_digits _)) as (bytes & -> & Hlen).
  rewrite Hlen, Hcount. reflexivity.
Qed.

End HexStrings.

Lemma HexStringToBytes_ignores_other_characters_witness :
  HexStringToBytes "DE ?? EF" = [xde; xef].
Proof.
  destruct (HexStringToBytes_ignores_other_characters
              ["D"; "E"; " "]%char [" "]%char ["E"; "F"]%char) as [_ Hwild].
  - repeat constructor.
  - change (HexStringToBytes "DE ?? EF" = HexStringToBytes "DE EF") in Hwild.
    rewrite Hwild. vm_compute. reflexivity.
Defined.

Lemma HexStringToBytes_length_witness :
  HexStringToBytes "DE AD B" = []
  /\ length (HexStringToBytes "de ad be ef") = 4%nat.
Proof.
  split.
  - apply (HexStringToBytes_length "DE AD B"). reflexivity.
  - apply (HexStringToBytes_length "de ad be ef"). reflexivity.
Defined.

(** ** Scanning for a textual pattern, pointer chains and strings *)

Section ScannerUtilities.

Implicit Types (sc : MemoryScanner.t) (address base : Z).

Lemma ScanForPattern_loop_empty_pattern fuel sc (regions : list MemoryRegion)
      (mask : list byte) (results : list Z) :
  MemoryScanner.ScanForPattern_loop fuel sc regions [] mask results
  = ScanReturns results.
Proof.
  revert results. induction regions as [| region regions IH]; intros results;
    simpl; [reflexivity |].
  destruct (negb _); [apply IH |]. rewrite IH, app_nil_r. reflexivity.
Qed.

(** X19.  A textual pattern without hexadecimal digits, or with an odd
    number of them, is turned into the empty pattern, and the scan for it
    reports no match in any region list, without an error. *)
Theorem ScanForPattern_hex_malformed fuel sc (regions : list MemoryRegion)
        (hex_pattern : string) :
  let digits := length (List.filter isxdigit (list_ascii_of_string hex_pattern)) in
  (digits mod 2 = 1)%nat \/ digits = 0%nat ->
  MemoryScanner.ScanForPattern_hex fuel sc regions hex_pattern = ScanReturns [].
Proof.
  intros digits Hdigits.
  assert (Hempty : HexStringToBytes hex_pattern = []).
  { unfold HexStringToBytes.
    pose proof (length_clean_hex_of (list_ascii_of_string hex_pattern)) as Hcount.
    fold digits in Hcount. rewrite Hcount.
    destruct Hdigits as [Hodd | Hnone].
    - assert (Hmod : Z.of_nat digits mod 2 = Z.of_nat (digits mod 2))
        by (rewrite Nat2Z.inj_mod; reflexivity).
      rewrite Hmod, Hodd. reflexivity.
    - rewrite Hnone in *.
      destruct (clean_hex_of (list_ascii_of_string hex_pattern));
        [reflexivity | discriminate]. }
  unfold MemoryScanner.ScanForPattern_hex, MemoryScanner.ScanForPattern.
  rewrite Hempty. apply ScanForPattern_loop_empty_pattern.
Qed.

(** The accumulator of the pointer-chain loop is a prefix of its result. *)
Lemma FollowPointerChain_loop_acc sc (offsets : list Z) :
  forall (current : Z) (chain : list Z),
    MemoryScanner.FollowPointerChain_loop sc current offsets chain
    = chain ++ MemoryScanner.FollowPointerChain_loop sc current offsets [].
Proof.
  induction offsets as [| offset offsets IH]; intros current chain; simpl.
  - rewrite app_nil_r. reflexivity.
  - destruct (MemoryScanner.FollowPointer sc _) as [next |].
    + rewrite (IH next (chain ++ [next])), (IH next [next]).
      rewrite <- app_assoc. reflexivity.
    + rewrite app_nil_r. reflexivity.
Qed.

Lemma FollowPointerChain_cons sc base (offset : Z) (offsets : list Z) :
  MemoryScanner.FollowPointerChain sc base (offset :: offsets)
  = match MemoryScanner.FollowPointer sc (wrap64 (base + offset)) with
    | Some next => next :: MemoryScanner.FollowPointerChain sc next offsets
    | None => []
    end.
Proof.
  unfold MemoryScanner.FollowPointerChain. simpl.
  destruct (MemoryScanner.FollowPointer sc _) as [next |]; [| reflexivity].
  rewrite FollowPointerChain_loop_acc. reflexivity.
Qed.

(** X20.  [FollowPointerChain] follows the offsets in order and stops at
    the first pointer it cannot read: the chain is never longer than the
    offset list, its element [k] is the pointer read at the previous
    element (the base for [k = 0]) plus offset [k], and when it is shorter
    than the offset list the read at the next hop fails. *)
Theorem FollowPointerChain_spec sc (offsets : list Z) :
  forall base,
    let chain := MemoryScanner.FollowPointerChain sc base offsets in
    let current (k : nat) :=
      match k with O => base | S k' => chain !!! k' end in
    (length chain <= length offsets)%nat
    /\ (forall (k : nat) next offset,
          chain !! k = Some next -> offsets !! k = Some offset ->
          MemoryScanner.FollowPointer sc (wrap64 (current k + offset)) = Some next)
    /\ (forall offset,
          offsets !! length chain = Some offset ->
          MemoryScanner.FollowPointer sc (wrap64 (current (length chain) + offset))
          = None).
Proof.
  induction offsets as [| offset0 offsets IH]; intros base chain current.
  - subst chain current.
    change (MemoryScanner.FollowPointerChain sc base []) with (@nil Z).
    split; [simpl; lia |]. split.
    + intros k next offset Hk. rewrite lookup_nil in Hk. discriminate.
    + intros offset Hk. rewrite lookup_nil in Hk. discriminate.
  - subst chain current. rewrite FollowPointerChain_cons.
    destruct (MemoryScanner.FollowPointer sc (wrap64 (base + offset0)))
      as [next0 |] eqn:Hfirst.
    + destruct (IH next0) as (Hlen & Hhops & Hstop).
      split; [simpl; lia |]. split.
      * intros [| k] next offset Hk Ho; simpl in Hk, Ho.
        -- injection Hk as <-. injection Ho as <-. exact Hfirst.
        -- pose proof (Hhops k next offset Hk Ho) as Hhop.
           destruct k as [| k']; exact Hhop.
      * intros offset Ho. simpl in Ho.
        pose proof (Hstop offset Ho) as Hfail.
        simpl length.
        destruct (length (MemoryScanner.FollowPointerChain sc next0 offsets));
          exact Hfail.
    + split; [simpl; lia |]. split.
      * intros k next offset Hk. rewrite lookup_nil in Hk. discriminate.
      * intros offset Ho. simpl in Ho. injection Ho as <-. exact Hfirst.
Qed.

(** The search for the terminator. *)
Lemma find_null_spec (buffer : list byte) :
  match MemoryScanner.find_null buffer with
  | Some null_pos =>
    buffer !! null_pos = Some x00
    /\ Forall (fun b => b <> x00) (take null_pos buffer)
  | None => Forall (fun b => b <> x00) buffer
  end.
Proof.
  induction buffer as [| b buffer IH]; simpl; [constructor |].
  destruct (byte_eqb_spec b x00) as [-> | Hb].
  - split; [reflexivity | constructor].
  - destruct (MemoryScanner.find_null buffer) as [null_pos |]; simpl.
    + destruct IH as [Hnull Hbefore]. split; [exact Hnull |].
      constructor; assumption.
    + constructor; assumption.
Qed.

(** X21.  [ReadString] first allocates a buffer of [max_length] bytes
    (none for a length of 0).  When the buffer is granted it returns the
    bytes that precede the first zero byte of the [max_length] bytes at the
    address: its result contains no zero byte, is a prefix of those bytes,
    and is followed by a zero byte when it is shorter than they are.  All
    [max_length] bytes have to be readable: when that read fails the result
    is empty, wherever the terminator may be. *)
Theorem ReadString_spec (grants : Z -> bool) sc address (max_length : Z) :
  max_length = 0 \/ grants max_length = true ->
  exists text buffer,
    Allocating.ReadString grants sc address max_length = Returns text
    /\ Allocating.ReadBytes grants sc address max_length = Returns buffer
    /\ Forall (fun b => b <> x00) text
    /\ text = take (length text) buffer
    /\ ((length text < length buffer)%nat -> buffer !! length text = Some x00)
    /\ (ProcessManager.ReadMemory (MemoryScanner.process_mgr_ sc) address max_length
        = None -> text = [])
    /\ (forall bytes,
          ProcessManager.ReadMemory (MemoryScanner.process_mgr_ sc) address max_length
          = Some bytes -> buffer = bytes).
Proof.
  intros Hgranted.
  assert (Hbuffer : Allocating.ReadBytes grants sc address max_length
                    = Returns (MemoryScanner.ReadBytes sc address max_length)).
  { unfold Allocating.ReadBytes.
    destruct Hgranted as [-> | ->]; [reflexivity | rewrite orb_true_r; reflexivity]. }
  exists (MemoryScanner.ReadString sc address max_length),
         (MemoryScanner.ReadBytes sc address max_length).
  split; [unfold Allocating.ReadString; rewrite Hbuffer; reflexivity |].
  split; [exact Hbuffer |].
  unfold MemoryScanner.ReadString.
  set (buffer := MemoryScanner.ReadBytes sc address max_length).
  assert (Hfail : ProcessManager.ReadMemory (MemoryScanner.process_mgr_ sc)
                                            address max_length = None ->
                  buffer = []).
  { intros Hread. subst buffer. unfold MemoryScanner.ReadBytes.
    rewrite Hread. reflexivity. }
  assert (Hgot : forall bytes,
             ProcessManager.ReadMemory (MemoryScanner.process_mgr_ sc) address max_length
             = Some bytes -> buffer = bytes).
  { intros bytes Hread. subst buffer. unfold MemoryScanner.ReadBytes.
    rewrite Hread. reflexivity. }
  destruct buffer as [| b0 buffer'] eqn:Ebuffer.
  { split; [constructor |]. split; [reflexivity |].
    split; [simpl; lia |]. split; [reflexivity | exact Hgot]. }
  rewrite <- Ebuffer in *.
  pose proof (find_null_spec buffer) as Hfind.
  destruct (MemoryScanner.find_null buffer) as [null_pos |].
  - destruct Hfind as [Hnull Hbefore].
    pose proof (lookup_lt_Some _ _ _ Hnull) as Hpos.
    rewrite length_take_le by lia.
    split; [exact Hbefore |]. split; [reflexivity |].
    split; [intros _; exact Hnull |].
    split; [| exact Hgot].
    intros Hread. rewrite (Hfail Hread) in Ebuffer. discriminate.
  - split; [exact Hfind |]. split; [rewrite take_ge; [reflexivity | lia] |].
    split; [lia |].
    split; [| exact Hgot].
    intros Hread. rewrite (Hfail Hread) in Ebuffer. discriminate.
Qed.

End ScannerUtilities.

Lemma ScanForPattern_hex_malformed_witness :
  MemoryScanner.ScanForPattern_hex 20 scenario_F [scenario_F_region] "DE AD BE E"
  = ScanReturns []
  /\ MemoryScanner.ScanForPattern_hex 20 scenario_F [scenario_F_region] "DE AD BE EF"
     = ScanReturns [0x10040].
Proof.
  split.
  - apply ScanForPattern_hex_malformed. left. reflexivity.
  - vm_compute. reflexivity.
Defined.

Lemma FollowPointerChain_spec_witness :
  MemoryScanner.FollowPointerChain pointer_chain_memory 0x10000 [0; 8; 0]
  = [0x10010; 0x10020]
  /\ MemoryScanner.FollowPointer pointer_chain_memory (wrap64 (0x10010 + 8))
     = Some 0x10020
  /\ MemoryScanner.FollowPointer pointer_chain_memory (wrap64 (0x10020 + 0)) = None.
Proof.
  assert (Hchain : MemoryScanner.FollowPointerChain pointer_chain_memory 0x10000
                                                    [0; 8; 0]
                   = [0x10010; 0x10020]) by (vm_compute; reflexivity).
  destruct (FollowPointerChain_spec pointer_chain_memory [0; 8; 0] 0x10000)
    as (_ & Hhops & Hstop).
  rewrite Hchain in Hhops, Hstop.
  split; [exact Hchain |]. split.
  - exact (Hhops 1%nat 0x10020 8 eq_refl eq_refl).
  - exact (Hstop 0 eq_refl).
Defined.

Lemma ReadString_spec_witness :
  Allocating.ReadString grants_1GiB text_memory 0x10000 5 = Returns [x48; x69]
  /\ Allocating.ReadString grants_1GiB text_memory 0x10000 6 = Returns [].
Proof.
  destruct (ReadString_spec grants_1GiB text_memory 0x10000 5)
    as (text & buffer & Htext & _ & _ & Hprefix & Hnull & _ & Hgot);
    [right; reflexivity |].
  destruct (ReadString_spec grants_1GiB text_memory 0x10000 6)
    as (text' & buffer' & Htext' & _ & _ & _ & _ & Hfail & _);
    [right; reflexivity |].
  split.
  - pose proof Htext as Hvalue. vm_compute in Hvalue.
    injection Hvalue as <-. exact Htext.
  - rewrite Htext'. f_equal. apply Hfail. vm_compute. reflexivity.
Defined.

(** ** A target that changes while it is read *)

Section LiveReads.
Import ObscuredBigIntegerReader.

Implicit Types (target : Live.Target) (pm : ProcessManager.t) (n : nat).

Lemma Live_bind_fst {A B : Type} (m : Live.Read A) (f : A -> Live.Read B) n :
  fst (Live.bind m f n)
  = match fst (m n) with
    | Some a => fst (f a (snd (m n)))
    | None => None
    end.
Proof. unfold Live.bind. destruct (m n) as [[a |] n']; reflexivity. Qed.

Lemma Live_bind_snd {A B : Type} (m : Live.Read A) (f : A -> Live.Read B) n :
  snd (Live.bind m f n)
  = match fst (m n) with
    | Some a => snd (f a (snd (m n)))
    | None => snd (m n)
    end.
Proof. unfold Live.bind. destruct (m n) as [[a |] n']; reflexivity. Qed.

Lemma Live_bind_Some {A B : Type} (m : Live.Read A) (f : A -> Live.Read B) n (b : B) :
  fst (Live.bind m f n) = Some b ->
  exists a, fst (m n) = Some a /\ fst (f a (snd (m n))) = Some b.
Proof.
  rewrite Live_bind_fst. destruct (fst (m n)) as [a |]; [| discriminate].
  intros Hrest. exists a. split; [reflexivity | exact Hrest].
Qed.

(** A typed read is one call of [ReadMemory], whether it succeeds or not. *)
Lemma Live_typed_read_calls target address n :
  snd (Live.ReadInt32 target address n) = S n
  /\ snd (Live.ReadUInt32 target address n) = S n
  /\ snd (Live.ReadUInt64 target address n) = S n.
Proof.
  unfold Live.ReadInt32, Live.ReadUInt32, Live.ReadUInt64, Live.bind, Live.ReadValue.
  repeat split; destruct (ProcessManager.ReadMemory _ _ _); reflexivity.
Qed.

(** What a successful run of the array loop has read, and at which calls. *)
Lemma Live_ReadUInt32Array_loop_Some target address (k : nat) :
  forall (i : Z) (acc : list Z) n (result : list Z),
    fst (Live.ReadUInt32Array_loop target address i k acc n) = Some result ->
    snd (Live.ReadUInt32Array_loop target address i k acc n) = (n + k)%nat
    /\ exists values,
         result = acc ++ values /\ length values = k
         /\ forall (j : nat) v, values !! j = Some v ->
              fst (Live.ReadUInt32 target (wrap64 (address + (i + Z.of_nat j) * 4))
                                   (n + j)%nat) = Some v.
Proof.
  induction k as [| k IH]; intros i acc n result Hrun.
  - simpl in Hrun. injection Hrun as <-. split; [simpl; lia |].
    exists []. rewrite app_nil_r. repeat split.
    intros j v Hj. rewrite lookup_nil in Hj. discriminate.
  - cbn [Live.ReadUInt32Array_loop] in *.
    rewrite Live_bind_snd.
    apply Live_bind_Some in Hrun as (value & Hread & Hrest).
    rewrite Hread.
    destruct (Live_typed_read_calls target (wrap64 (address + i * 4)) n)
      as (_ & Hcalls & _).
    rewrite Hcalls in *.
    destruct (IH _ _ _ _ Hrest) as (Hsnd & values & -> & Hlen & Hall).
    split; [rewrite Hsnd; lia |].
    exists (value :: values). rewrite <- app_assoc. simpl.
    repeat split; [lia |].
    intros [| j] v Hj; simpl in Hj.
    + injection Hj as <-. rewrite Z.add_0_r, Nat.add_0_r. exact Hread.
    + replace (i + Z.of_nat (S j)) with (i + 1 + Z.of_nat j) by lia.
      replace (n + S j)%nat with (S n + j)%nat by lia.
      exact (Hall j v Hj).
Qed.

Lemma Live_ReadUInt32Array_Some target address (count : Z) n (result : list Z) :
  0 <= count ->
  fst (Live.ReadUInt32Array target address count n) = Some result ->
  snd (Live.ReadUInt32Array target address count n) = (n + Z.to_nat count)%nat
  /\ length result = Z.to_nat count
  /\ forall (j : nat) v, result !! j = Some v ->
       fst (Live.ReadUInt32 target (wrap64 (address + Z.of_nat j * 4)) (n + j)%nat)
       = Some v.
Proof.
  intros Hcount. unfold Live.ReadUInt32Array.
  destruct (Z.eqb_spec count 0) as [-> | Hne].
  - simpl. intros [= <-]. split; [lia |]. split; [reflexivity |].
    intros j v Hj. rewrite lookup_nil in Hj. discriminate.
  - intros Hrun.
    destruct (Live_ReadUInt32Array_loop_Some _ _ _ _ _ _ _ Hrun)
      as (Hsnd & values & -> & Hlen & Hall).
    split; [exact Hsnd |]. split; [exact Hlen | exact Hall].
Qed.

(** The two big-integer readers go through the same steps. *)
Lemma Live_ReadBigIntegerVerbose_eq (scanner_ : option Live.Target) base n :
  Live.ReadBigIntegerVerbose scanner_ base n = Live.ReadBigInteger scanner_ base n.
Proof. reflexivity. Qed.

(** What a successful [ReadBigInteger] has gone through, call by call: the
    sign is call [n], the pointer call [n + 1], the probe the 32 calls from
    [n + 2] on, and the limbs are read again from call [n + 34] on. *)
Lemma Live_ReadBigInteger_inv target base n (value : DotNetBigIntegerData.t) :
  fst (Live.ReadBigInteger (Some target) base n) = Some value ->
  IsValidPointer base = true
  /\ fst (Live.ReadInt32 target base n) = Some (DotNetBigIntegerData.sign value)
  /\ fst (Live.ReadUInt64 target (wrap64 (base + 4)) (1 + n)%nat)
     = Some (DotNetBigIntegerData.bits_ptr value)
  /\ IsValidPointer (DotNetBigIntegerData.bits_ptr value) = true
  /\ DotNetBigIntegerData.is_valid value = true
  /\ exists probe_array,
       fst (Live.ReadUInt32Array target (DotNetBigIntegerData.bits_ptr value) 32
                                 (2 + n)%nat) = Some probe_array
       /\ length probe_array = 32%nat
       /\ DotNetBigIntegerData.bits_length value
          = recovered_length (DotNetBigIntegerData.sign value) probe_array
       /\ (if 0 <? DotNetBigIntegerData.bits_length value
           then fst (Live.ReadUInt32Array target (DotNetBigIntegerData.bits_ptr value)
                       (DotNetBigIntegerData.bits_length value) (34 + n)%nat)
                = Some (DotNetBigIntegerData.bits_data value)
           else DotNetBigIntegerData.bits_data value = []).
Proof.
  intros Hrun. unfold Live.ReadBigInteger in Hrun.
  rewrite IsValidPointer_same in Hrun.
  destruct (IsValidPointer base) eqn:Hbase; [| discriminate Hrun].
  cbn [negb] in Hrun.
  apply Live_bind_Some in Hrun as (sign & Hsign & Hrun).
  destruct (Live_typed_read_calls target base n) as (Hcalls & _ & _).
  rewrite Hcalls in Hrun. clear Hcalls.
  apply Live_bind_Some in Hrun as (ptr & Hptr & Hrun).
  destruct (Live_typed_read_calls target (wrap64 (base + 4)) (S n)) as (_ & _ & Hcalls).
  rewrite Hcalls in Hrun. clear Hcalls.
  rewrite IsValidPointer_same in Hrun.
  destruct (IsValidPointer ptr) eqn:Hvalid; [| discriminate Hrun].
  cbn [negb] in Hrun.
  apply Live_bind_Some in Hrun as (probe_array & Hprobe & Hrun).
  destruct (Live_ReadUInt32Array_Some target ptr 32 _ probe_array ltac:(lia) Hprobe)
    as (Hcalls & Hsize & _).
  rewrite Hcalls in Hrun. clear Hcalls.
  change (Z.to_nat 32) with 32%nat in *.
  fold (recovered_length sign probe_array) in Hrun.
  destruct (negb (DotNetBigIntegerReader.IsValidBitsLength _)); [discriminate Hrun |].
  apply Live_bind_Some in Hrun as (bits_data & Hdata & Hrun).
  simpl in Hrun. injection Hrun as <-.
  cbn [DotNetBigIntegerData.sign DotNetBigIntegerData.bits_ptr
       DotNetBigIntegerData.bits_length DotNetBigIntegerData.bits_data
       DotNetBigIntegerData.is_valid].
  do 5 (split; [first [reflexivity | assumption] |]).
  exists probe_array. split; [exact Hprobe |]. split; [exact Hsize |].
  split; [reflexivity |].
  replace (34 + n)%nat with (S (S n) + 32)%nat by lia.
  destruct (0 <? recovered_length sign probe_array).
  - exact Hdata.
  - simpl in Hdata. injection Hdata as <-. reflexivity.
Qed.

(** *** A target that does not change *)

Section Stable.
Variables (target : Live.Target) (pm : ProcessManager.t).
Hypothesis Hstable : Live.stable target pm.

Local Abbreviation sc := (MemoryScanner.mk pm).

Lemma Live_bind_stable {A B : Type} (m : Live.Read A) (f : A -> Live.Read B)
      (m' : option A) (f' : A -> option B) :
  (forall n, fst (m n) = m') -> (forall a n, fst (f a n) = f' a) ->
  forall n, fst (Live.bind m f n) = m' ≫= f'.
Proof.
  intros Hm Hf n. rewrite Live_bind_fst, Hm.
  destruct m' as [a |]; simpl; [apply Hf | reflexivity].
Qed.

Lemma Live_ReadValue_stable address sizeof_T n :
  fst (Live.ReadValue target address sizeof_T n)
  = MemoryScanner.ReadValue sc address sizeof_T.
Proof.
  unfold Live.ReadValue, MemoryScanner.ReadValue. simpl.
  rewrite Hstable. reflexivity.
Qed.

Lemma Live_ReadInt32_stable address n :
  fst (Live.ReadInt32 target address n) = MemoryScanner.ReadInt32 sc address.
Proof.
  unfold Live.ReadInt32, MemoryScanner.ReadInt32.
  apply Live_bind_stable; [intros; apply Live_ReadValue_stable | reflexivity].
Qed.

Lemma Live_ReadUInt32_stable address n :
  fst (Live.ReadUInt32 target address n) = MemoryScanner.ReadUInt32 sc address.
Proof.
  unfold Live.ReadUInt32, MemoryScanner.ReadUInt32.
  apply Live_bind_stable; [intros; apply Live_ReadValue_stable | reflexivity].
Qed.

Lemma Live_ReadUInt64_stable address n :
  fst (Live.ReadUInt64 target address n) = MemoryScanner.ReadUInt64 sc address.
Proof.
  unfold Live.ReadUInt64, MemoryScanner.ReadUInt64.
  apply Live_bind_stable; [intros; apply Live_ReadValue_stable | reflexivity].
Qed.

Lemma Live_ReadUInt32Array_loop_stable address (k : nat) :
  forall (i : Z) (acc : list Z) n,
    fst (Live.ReadUInt32Array_loop target address i k acc n)
    = MemoryScanner.ReadUInt32Array_loop sc address i k acc.
Proof.
  induction k as [| k IH]; intros i acc n; [reflexivity |].
  cbn [Live.ReadUInt32Array_loop MemoryScanner.ReadUInt32Array_loop].
  rewrite Live_bind_fst, Live_ReadUInt32_stable.
  destruct (MemoryScanner.ReadUInt32 sc _) as [value |]; [apply IH | reflexivity].
Qed.

Lemma Live_ReadUInt32Array_stable address (count : Z) n :
  fst (Live.ReadUInt32Array target address count n)
  = MemoryScanner.ReadUInt32Array sc address count.
Proof.
  unfold Live.ReadUInt32Array, MemoryScanner.ReadUInt32Array.
  destruct (count =? 0); [reflexivity | apply Live_ReadUInt32Array_loop_stable].
Qed.

Lemma Live_ReadBigInteger_stable base n :
  fst (Live.ReadBigInteger (Some target) base n)
  = DotNetBigIntegerReader.ReadBigInteger (DotNetBigIntegerReader.mk (Some sc)) base.
Proof.
  unfold Live.ReadBigInteger, DotNetBigIntegerReader.ReadBigInteger.
  cbn [DotNetBigIntegerReader.scanner_].
  destruct (negb (DotNetBigIntegerReader.IsValidPointer base)); [reflexivity |].
  apply Live_bind_stable; [intros; apply Live_ReadInt32_stable |].
  intros sign n1. cbv zeta.
  apply Live_bind_stable; [intros; apply Live_ReadUInt64_stable |].
  intros ptr n2.
  destruct (negb (DotNetBigIntegerReader.IsValidPointer ptr)); [reflexivity |].
  apply Live_bind_stable; [intros; apply Live_ReadUInt32Array_stable |].
  intros probe_array n3.
  destruct (negb (DotNetBigIntegerReader.IsValidBitsLength _)); [reflexivity |].
  apply Live_bind_stable; [| reflexivity].
  intros n4. destruct (0 <? _); [apply Live_ReadUInt32Array_stable | reflexivity].
Qed.

Lemma Live_ReadBigIntegerContents_stable address n :
  fst (Live.ReadBigIntegerContents target address n)
  = ReadBigIntegerContents sc address.
Proof.
  unfold Live.ReadBigIntegerContents, ReadBigIntegerContents.
  apply Live_bind_stable; [intros; apply Live_ReadInt32_stable |].
  intros sign n1. cbv zeta.
  apply Live_bind_stable; [intros; apply Live_ReadUInt64_stable |].
  intros ptr n2.
  destruct (ptr =? 0); [reflexivity |].
  destruct (negb (IsValidPointer ptr)); [reflexivity |].
  apply Live_bind_stable; [intros; apply Live_ReadUInt32Array_stable |].
  intros probe_array n3.
  apply Live_bind_stable; [| reflexivity].
  intros n4. destruct (0 <? _); [apply Live_ReadUInt32Array_stable | reflexivity].
Qed.

End Stable.

End LiveReads.

(** ** The overlay reader over a target that changes *)

Section LiveOverlay.
Import ObscuredBigIntegerReader.

Implicit Types (target : Live.Target) (pm : ProcessManager.t) (n : nat).

(** C5.  The overlay reader attempts the big-integer view first and the raw
    view second, whatever the first has given.  The raw view is delivered
    exactly as its own read produces it, so a failure of the big-integer
    view does not prevent it: the result then holds the raw view and a
    default-constructed big-integer view, which is not valid.  The raw view
    is required: when its read fails the reader returns no value, and a
    big-integer view that had been read is not delivered; when its read
    succeeds, the big-integer view is delivered exactly as its own read
    produced it. *)
Theorem overlay_raw_view_is_required (junk_sign junk_ptr junk_length : Z)
        target address n :
  let value_pass := Live.ReadBigIntegerVerbose (Some target) address n in
  let raw_pass := Live.ReadBigIntegerContents target address (snd value_pass) in
  let result :=
    fst (Live.ReadSerializableBigInteger junk_sign junk_ptr junk_length
                                         target address n) in
  asRaw result = fst raw_pass
  /\ (fst raw_pass = None -> result = None /\ asValue result = None)
  /\ (forall raw,
        fst raw_pass = Some raw ->
        asValue result = fst value_pass
        /\ exists s,
             result = Some s
             /\ SerializableBigInteger.raw_contents s = raw
             /\ SerializableBigInteger.is_valid s = true
             /\ SerializableBigInteger.bigint_value s
                = match fst value_pass with
                  | Some value => value
                  | None => DotNetBigIntegerData.default junk_sign junk_ptr junk_length
                  end).
Proof.
  intros value_pass raw_pass result. subst result raw_pass value_pass.
  unfold Live.ReadSerializableBigInteger.
  assert (Hflag : forall value,
             fst (Live.ReadBigIntegerVerbose (Some target) address n) = Some value ->
             DotNetBigIntegerData.is_valid value = true).
  { intros value Hvalue.
    rewrite Live_ReadBigIntegerVerbose_eq in Hvalue.
    apply Live_ReadBigInteger_inv in Hvalue. tauto. }
  destruct (Live.ReadBigIntegerVerbose (Some target) address n) as [bigint_data n1].
  cbn [fst snd] in *.
  destruct (Live.ReadBigIntegerContents target address n1) as [[raw |] n2];
    cbn [fst snd].
  - split; [reflexivity |]. split; [discriminate |].
    intros raw' [= <-]. split.
    + unfold asValue. simpl.
      destruct bigint_data as [value |]; [| reflexivity].
      rewrite (Hflag value eq_refl). reflexivity.
    + eexists. split; [reflexivity |]. repeat split.
  - split; [reflexivity |]. split; [split; reflexivity |].
    intros raw [=].
Qed.

(** X5.  The limb count that [ReadBigInteger] returns is taken from the
    probe of 32 limbs: every limb of the probe from that index on is zero
    and the limb before it is not, except for the count 1 given to an
    all-zero probe under a non-zero sign; the count is 0 only when the
    sign is zero, and then no limb is returned.  The limbs returned are not
    those of the probe: they are what a second array read of that many
    limbs at the magnitude pointer returns, made after the 34 calls of the
    sign, the pointer and the probe. *)
Theorem ReadBigInteger_limbs_are_read_again target base n
        (value : DotNetBigIntegerData.t) :
  fst (Live.ReadBigInteger (Some target) base n) = Some value ->
  exists probe_array,
    fst (Live.ReadUInt32Array target (DotNetBigIntegerData.bits_ptr value) 32
                              (2 + n)%nat) = Some probe_array
    /\ length probe_array = 32%nat
    /\ 0 <= DotNetBigIntegerData.bits_length value <= 32
    /\ (forall k : nat,
          (Z.to_nat (DotNetBigIntegerData.bits_length value) <= k < 32)%nat ->
          probe_array !! k = Some 0)
    /\ (forall top,
          0 < DotNetBigIntegerData.bits_length value ->
          probe_array !! Z.to_nat (DotNetBigIntegerData.bits_length value - 1)
          = Some top ->
          top <> 0
          \/ (DotNetBigIntegerData.bits_length value = 1
              /\ DotNetBigIntegerData.sign value <> 0))
    /\ (DotNetBigIntegerData.bits_length value = 0 ->
        DotNetBigIntegerData.sign value = 0
        /\ DotNetBigIntegerData.bits_data value = [])
    /\ (0 < DotNetBigIntegerData.bits_length value ->
        fst (Live.ReadUInt32Array target (DotNetBigIntegerData.bits_ptr value)
               (DotNetBigIntegerData.bits_length value) (34 + n)%nat)
        = Some (DotNetBigIntegerData.bits_data value))
    /\ Z.of_nat (length (DotNetBigIntegerData.bits_data value))
       = DotNetBigIntegerData.bits_length value.
Proof.
  intros Hread.
  destruct (Live_ReadBigInteger_inv target base n value Hread)
    as (_ & _ & _ & _ & _ & probe_array & Hprobe & Hsize & Hlen & Hdata).
  destruct (actual_length_loop_spec probe_array (length probe_array) ltac:(lia))
    as (Hrange & Hzeros & Htop).
  set (actual := actual_length_loop probe_array (length probe_array)) in *.
  set (sign := DotNetBigIntegerData.sign value) in *.
  set (len := DotNetBigIntegerData.bits_length value) in *.
  set (bits_data := DotNetBigIntegerData.bits_data value) in *.
  assert (Hcases : (actual = 0 /\ sign <> 0 /\ len = 1)
                   \/ (len = actual /\ (actual = 0 -> sign = 0))).
  { unfold recovered_length in Hlen. fold actual in Hlen.
    destruct (Z.eqb_spec actual 0) as [Hzero | Hpos];
      destruct (Z.eqb_spec sign 0) as [Hsign | Hsign]; simpl in Hlen;
      [right | left | right | right]; repeat split; try assumption; lia. }
  assert (Hlookup : forall k : nat, (k < 32)%nat ->
                      probe_array !! k = Some (probe_array !!! k)).
  { intros k Hk. apply list_lookup_lookup_total_lt. lia. }
  exists probe_array. split; [exact Hprobe |]. split; [exact Hsize |].
  split; [lia |].
  split.
  { intros k Hk. rewrite Hlookup by lia. f_equal. apply Hzeros. lia. }
  split.
  { intros top Hpos Hat. rewrite Hlookup in Hat by lia. injection Hat as <-.
    destruct Hcases as [(Hzero & Hsign & Hone) | (Hsame & _)].
    - right. split; assumption.
    - left. rewrite Hsame. apply Htop. lia. }
  split.
  { intros Hnone.
    destruct Hcases as [(_ & _ & Hone) | (Hsame & Hsign)]; [lia |].
    split; [apply Hsign; lia |].
    replace (0 <? len) with false in Hdata by (symmetry; apply Z.ltb_ge; lia).
    exact Hdata. }
  split.
  { intros Hpos.
    replace (0 <? len) with true in Hdata by (symmetry; apply Z.ltb_lt; lia).
    exact Hdata. }
  destruct (Z.ltb_spec 0 len) as [Hpos | Hnone].
  - destruct (Live_ReadUInt32Array_Some target _ len _ bits_data ltac:(lia) Hdata)
      as (_ & Hcount & _).
    lia.
  - rewrite Hdata. simpl. lia.
Qed.

(** X7.  Over a target that does not change, the two views of one
    structure agree: when [ReadBigInteger] returns a value at an address,
    [ReadBigIntegerContents] at that address, whenever it is called,
    returns the same sign, pointer, length and limbs. *)
Theorem raw_view_agrees_with_value_view target pm address n n'
        (value : DotNetBigIntegerData.t) :
  Live.stable target pm ->
  fst (Live.ReadBigInteger (Some target) address n) = Some value ->
  fst (Live.ReadBigIntegerContents target address n')
  = Some (BigIntegerContents.mk (DotNetBigIntegerData.sign value)
            (DotNetBigIntegerData.bits_ptr value)
            (DotNetBigIntegerData.bits_length value)
            (DotNetBigIntegerData.bits_data value)).
Proof.
  intros Hstable Hread.
  rewrite (Live_ReadBigInteger_stable target pm Hstable) in Hread.
  rewrite (Live_ReadBigIntegerContents_stable target pm Hstable).
  destruct (ReadBigInteger_inv (DotNetBigIntegerReader.mk (Some (MemoryScanner.mk pm)))
              (MemoryScanner.mk pm) address value eq_refl Hread)
    as (_ & Hsign & Hptr & Hvalid & _ & probe_array & Hprobe & Hlen & Hdata).
  rewrite (ReadBigIntegerContents_compute _ address _ _ _ Hsign Hptr Hvalid Hprobe).
  rewrite <- Hlen, <- Hdata. reflexivity.
Qed.

(** X22.  A value returned by the overlay reader is marked valid, and its
    big-integer view is either a valid one or the default-constructed one,
    which has no limbs.  Over a target that does not change, a valid
    big-integer view and the raw view have the same sign, pointer, length
    and limbs. *)
Theorem overlay_views_consistent (junk_sign junk_ptr junk_length : Z)
        target address n (s : SerializableBigInteger.t) :
  fst (Live.ReadSerializableBigInteger junk_sign junk_ptr junk_length target address n)
  = Some s ->
  SerializableBigInteger.is_valid s = true
  /\ (DotNetBigIntegerData.is_valid (SerializableBigInteger.bigint_value s) = false ->
      SerializableBigInteger.bigint_value s
      = DotNetBigIntegerData.default junk_sign junk_ptr junk_length)
  /\ (forall pm,
        Live.stable target pm ->
        DotNetBigIntegerData.is_valid (SerializableBigInteger.bigint_value s) = true ->
        SerializableBigInteger.raw_contents s
        = BigIntegerContents.mk
            (DotNetBigIntegerData.sign (SerializableBigInteger.bigint_value s))
            (DotNetBigIntegerData.bits_ptr (SerializableBigInteger.bigint_value s))
            (DotNetBigIntegerData.bits_length (SerializableBigInteger.bigint_value s))
            (DotNetBigIntegerData.bits_data (SerializableBigInteger.bigint_value s))).
Proof.
  unfold Live.ReadSerializableBigInteger.
  destruct (Live.ReadBigIntegerVerbose (Some target) address n)
    as [bigint_data n1] eqn:Hvalue.
  destruct (Live.ReadBigIntegerContents target address n1) as [[raw |] n2] eqn:Hraw;
    [| discriminate].
  cbn [fst]. intros [= <-]. cbn [SerializableBigInteger.is_valid
    SerializableBigInteger.bigint_value SerializableBigInteger.raw_contents].
  split; [reflexivity |].
  destruct bigint_data as [value |].
  - assert (Hread : fst (Live.ReadBigInteger (Some target) address n) = Some value).
    { rewrite <- Live_ReadBigIntegerVerbose_eq, Hvalue. reflexivity. }
    split.
    + destruct (Live_ReadBigInteger_inv target address n value Hread)
        as (_ & _ & _ & _ & Hflag & _).
      rewrite Hflag. discriminate.
    + intros pm Hstable _.
      rewrite (Live_ReadBigInteger_stable target pm Hstable) in Hread.
      assert (Hcontents : fst (Live.ReadBigIntegerContents target address n1)
                          = Some raw) by (rewrite Hraw; reflexivity).
      rewrite (Live_ReadBigIntegerContents_stable target pm Hstable) in Hcontents.
      destruct (ReadBigInteger_inv
                  (DotNetBigIntegerReader.mk (Some (MemoryScanner.mk pm)))
                  (MemoryScanner.mk pm) address value eq_refl Hread)
        as (_ & Hsign & Hptr & Hvalid & _ & probe_array & Hprobe & Hlen & Hdata).
      rewrite (ReadBigIntegerContents_compute _ address _ _ _ Hsign Hptr Hvalid Hprobe)
        in Hcontents.
      injection Hcontents as <-. rewrite <- Hlen, <- Hdata. reflexivity.
  - split; [reflexivity |]. intros pm _. discriminate.
Qed.

End LiveOverlay.

Lemma overlay_raw_view_is_required_witness :
  fst (Live.ReadSerializableBigInteger 0 0 0 steady_record 0x10100 0%nat)
  = Some (SerializableBigInteger.mk hidden_five
            (BigIntegerContents.mk 1 0x10000 1 [5]) true)
  /\ asValue (fst (Live.ReadSerializableBigInteger 0 0 0 steady_record 0x10100 0%nat))
     = Some hidden_five
  /\ asRaw (fst (Live.ReadSerializableBigInteger 0 0 0
                   (fun _ => MemoryScanner.process_mgr_ zero_structure) 0x10000 0%nat))
     = Some (BigIntegerContents.mk 0 0 0 [])
  /\ asValue (fst (Live.ReadSerializableBigInteger 0 0 0
                     (fun _ => MemoryScanner.process_mgr_ zero_structure) 0x10000 0%nat))
     = None
  /\ fst (Live.ReadSerializableBigInteger 0 0 0 exits_after_value_view 0x10100 0%nat)
     = None.
Proof.
  destruct (overlay_raw_view_is_required 0 0 0 steady_record 0x10100 0)
    as (_ & _ & Hboth).
  destruct (Hboth (BigIntegerContents.mk 1 0x10000 1 [5]) ltac:(vm_compute; reflexivity))
    as (Hvalue & s & Hresult & Hraw & Hflag & Hbigint).
  destruct (overlay_raw_view_is_required 0 0 0
              (fun _ => MemoryScanner.process_mgr_ zero_structure) 0x10000 0)
    as (Hraw_only & _ & Hvalue_fails).
  destruct (Hvalue_fails (BigIntegerContents.mk 0 0 0 []) ltac:(vm_compute; reflexivity))
    as (Hno_value & _).
  destruct (overlay_raw_view_is_required 0 0 0 exits_after_value_view 0x10100 0)
    as (_ & Hnone & _).
  split.
  { rewrite Hresult. f_equal. destruct s as [bigint raw flag].
    simpl in Hraw, Hflag, Hbigint. subst raw flag. f_equal.
    rewrite Hbigint. vm_compute. reflexivity. }
  split; [rewrite Hvalue; vm_compute; reflexivity |].
  split; [rewrite Hraw_only; vm_compute; reflexivity |].
  split; [rewrite Hno_value; vm_compute; reflexivity |].
  apply Hnone. vm_compute. reflexivity.
Defined.

(** The target exits after the big-integer view of the hidden value has
    been read: that view is read in full, the raw read that follows fails,
    and the overlay reader returns no value, so that the view that was read
    is not delivered. *)
Lemma raw_failure_drops_value_view :
  fst (Live.ReadBigIntegerVerbose (Some exits_after_value_view) 0x10100 0%nat)
  = Some hidden_five
  /\ snd (Live.ReadBigIntegerVerbose (Some exits_after_value_view) 0x10100 0%nat)
     = 35%nat
  /\ fst (Live.ReadBigIntegerContents exits_after_value_view 0x10100 35%nat) = None
  /\ fst (Live.ReadSerializableBigInteger 0 0 0 exits_after_value_view 0x10100 0%nat)
     = None
  /\ asValue (fst (Live.ReadSerializableBigInteger 0 0 0 exits_after_value_view
                     0x10100 0%nat))
     <> fst (Live.ReadBigIntegerVerbose (Some exits_after_value_view) 0x10100 0%nat).
Proof.
  vm_compute. repeat split; discriminate.
Qed.

Lemma ReadBigInteger_limbs_are_read_again_witness :
  fst (Live.ReadBigInteger (Some rewritten_after_probe) 0x10100 0%nat)
  = Some (DotNetBigIntegerData.mk 1 0x10000 1 [9] true)
  /\ exists probe_array,
       fst (Live.ReadUInt32Array rewritten_after_probe 0x10000 32 2%nat) = Some probe_array
       /\ probe_array !! 0%nat = Some 5
       /\ probe_array !! 31%nat = Some 0
       /\ fst (Live.ReadUInt32Array rewritten_after_probe 0x10000 1 34%nat) = Some [9].
Proof.
  assert (Hread : fst (Live.ReadBigInteger (Some rewritten_after_probe) 0x10100 0%nat)
                  = Some (DotNetBigIntegerData.mk 1 0x10000 1 [9] true))
    by (vm_compute; reflexivity).
  split; [exact Hread |].
  destruct (ReadBigInteger_limbs_are_read_again rewritten_after_probe 0x10100 0 _ Hread)
    as (probe_array & Hprobe & _ & _ & Hzeros & _ & _ & Hagain & _).
  exists probe_array. split; [exact Hprobe |].
  split.
  { pose proof Hprobe as Hvalue. vm_compute in Hvalue. injection Hvalue as <-.
    reflexivity. }
  split; [apply Hzeros; simpl; lia |].
  apply Hagain. simpl. lia.
Defined.

Lemma raw_view_agrees_with_value_view_witness :
  fst (Live.ReadBigIntegerContents steady_record 0x10100 35%nat)
  = Some (BigIntegerContents.mk 1 0x10000 1 [5])
  /\ fst (Live.ReadBigInteger (Some rewritten_between_views) 0x10100 0%nat)
     = Some hidden_five
  /\ fst (Live.ReadBigIntegerContents rewritten_between_views 0x10100 35%nat)
     = Some (BigIntegerContents.mk 1 0x10000 1 [9]).
Proof.
  split; [| split; vm_compute; reflexivity].
  apply (raw_view_agrees_with_value_view steady_record
           (MemoryScanner.process_mgr_ full_record) 0x10100 0 35 hidden_five).
  - intros n. reflexivity.
  - vm_compute. reflexivity.
Defined.

Lemma overlay_views_consistent_witness :
  exists s,
    fst (Live.ReadSerializableBigInteger 0 0 0 steady_record 0x10100 0%nat) = Some s
    /\ SerializableBigInteger.bigint_value s = hidden_five
    /\ SerializableBigInteger.raw_contents s = BigIntegerContents.mk 1 0x10000 1 [5]
    /\ SerializableBigInteger.is_valid s = true.
Proof.
  destruct (fst (Live.ReadSerializableBigInteger 0 0 0 steady_record 0x10100 0%nat))
    as [s |] eqn:Hread; [| vm_compute in Hread; discriminate].
  destruct (overlay_views_consistent 0 0 0 steady_record 0x10100 0 s Hread)
    as (Hflag & _ & Hagree).
  assert (Hvalue : SerializableBigInteger.bigint_value s = hidden_five).
  { vm_compute in Hread. injection Hread as <-. reflexivity. }
  exists s. split; [reflexivity |]. split; [exact Hvalue |].
  split; [| exact Hflag].
  rewrite (Hagree (MemoryScanner.process_mgr_ full_record)).
  - rewrite Hvalue. reflexivity.
  - intros n. reflexivity.
  - rewrite Hvalue. reflexivity.
Defined.

(** ** A pattern longer than the buffer *)

Section LongPattern.

Implicit Types (sc : MemoryScanner.t) (region : MemoryRegion)
         (region_data pattern rest : list byte).


(** Without a mask, a window that reaches past the end of the buffer either
    ends at a mismatch or reads the buffer past its end. *)
Lemma match_loop_overlong region_data (i : Z) rest :
  forall j : Z,
    0 <= i -> 0 <= j -> rest <> [] ->
    Z.of_nat (length region_data) < i + j + Z.of_nat (length rest) ->
    i + j + Z.of_nat (length rest) < 2 ^ 64 ->
    MemoryScanner.match_loop region_data [] i rest j = inr false
    \/ exists index,
         Z.of_nat (length region_data) <= index
         /\ MemoryScanner.match_loop region_data [] i rest j
            = inl (RegionIndexOutOfBounds index).
Proof.
  induction rest as [| pattern_j rest' IH]; intros j Hi Hj Hrest Hlong Hsmall;
    [congruence |].
  simpl length in *. cbn [MemoryScanner.match_loop].
  rewrite wrap64_small by lia.
  destruct (region_data !! Z.to_nat (i + j)) as [data |] eqn:Hdata.
  - apply lookup_lt_Some in Hdata.
    destruct (Byte.eqb data pattern_j); [| left; reflexivity].
    apply IH; try lia.
    destruct rest'; [simpl length in *; lia | discriminate].
  - apply lookup_ge_None in Hdata. right. exists (i + j). split; [lia | reflexivity].
Qed.

Lemma scan_loop_overlong region region_data pattern (bound : Z) :
  pattern <> [] ->
  Z.of_nat (length region_data) < Z.of_nat (length pattern) ->
  Z.of_nat (length pattern) < 2 ^ 62 ->
  Z.of_nat (length region_data) + 3 <= bound ->
  forall (k : nat) (i : Z) (results : list Z) (fuel : nat),
    0 <= i <= Z.of_nat (length region_data) + 3 ->
    Z.of_nat (length region_data) <= i + 4 * Z.of_nat k ->
    (k < fuel)%nat ->
    exists index,
      Z.of_nat (length region_data) <= index
      /\ MemoryScanner.scan_loop fuel region region_data pattern [] bound i results
         = ScanFaults (RegionIndexOutOfBounds index).
Proof.
  intros Hpattern Hlong Hsmall Hbound.
  assert (Hwindow : forall i, 0 <= i <= Z.of_nat (length region_data) + 3 ->
            MemoryScanner.match_loop region_data [] i pattern 0 = inr false
            \/ exists index,
                 Z.of_nat (length region_data) <= index
                 /\ MemoryScanner.match_loop region_data [] i pattern 0
                    = inl (RegionIndexOutOfBounds index)).
  { intros i Hi.
    apply match_loop_overlong; [lia | lia | exact Hpattern | lia | lia]. }
  assert (Hpast : forall i, 0 <= i <= Z.of_nat (length region_data) + 3 ->
            Z.of_nat (length region_data) <= i ->
            MemoryScanner.match_loop region_data [] i pattern 0 <> inr false).
  { intros i Hi Hout. destruct pattern as [| p0 pattern']; [congruence |].
    cbn [MemoryScanner.match_loop]. rewrite wrap64_small by lia.
    rewrite (lookup_ge_None_2 region_data (Z.to_nat (i + 0))) by lia.
    discriminate. }
  induction k as [| k IH]; intros i results fuel Hi Hreach Hfuel;
    (destruct fuel as [| fuel]; [lia |]); cbn [MemoryScanner.scan_loop];
    (replace (i <=? bound) with true by (symmetry; apply Z.leb_le; lia)).
  - destruct (Hwindow i Hi) as [Hmismatch | (index & Hindex & Hfault)].
    + exfalso. apply (Hpast i Hi); [lia | exact Hmismatch].
    + rewrite Hfault. exists index. split; [exact Hindex | reflexivity].
  - destruct (Hwindow i Hi) as [Hmismatch | (index & Hindex & Hfault)].
    + rewrite Hmismatch. unfold MemoryScanner.SCAN_ALIGNMENT.
      rewrite wrap64_small by lia.
      destruct (Z.le_gt_cases (Z.of_nat (length region_data)) i) as [Hout | Hinside].
      * exfalso. apply (Hpast i Hi); [lia | exact Hmismatch].
      * apply IH; lia.
    + rewrite Hfault. exists index. split; [exact Hindex | reflexivity].
Qed.

(** X23.  Without a mask, a pattern longer than the buffer read from the
    region always ends in a read of the buffer past its end: the loop bound
    wraps around, and with fuel for [region_data.size() / 4 + 2] iterations
    the scan reaches an index at or beyond [region_data.size()]; it never
    returns a result. *)
Theorem overlong_pattern_reads_past_the_end (fuel : nat) sc region pattern
        region_data :
  ProcessManager.ReadMemory (MemoryScanner.process_mgr_ sc)
                            (base_address region) (size region) = Some region_data ->
  (length region_data < length pattern)%nat ->
  Z.of_nat (length pattern) < 2 ^ 62 ->
  (length region_data / 4 + 2 <= fuel)%nat ->
  exists index,
    Z.of_nat (length region_data) <= index
    /\ MemoryScanner.ScanRegionForPattern fuel sc region pattern []
       = ScanFaults (RegionIndexOutOfBounds index).
Proof.
  intros Hread Hlong Hsmall Hfuel.
  destruct (ReadMemory_Some _ _ _ _ Hread) as [Hlen Hsize].
  unfold MAX_READ_SIZE in Hsize.
  unfold MemoryScanner.ScanRegionForPattern, MemoryScanner.ReadBytes.
  rewrite Hread.
  destruct pattern as [| p0 pattern'] eqn:Epattern; [simpl in Hlong; lia |].
  rewrite <- Epattern in *.
  destruct region_data as [| d0 data'] eqn:Edata; [simpl in Hlen; lia |].
  rewrite <- Edata in *.
  assert (Hwrap : wrap64 (Z.of_nat (length region_data) - Z.of_nat (length pattern))
                  = 2 ^ 64 + Z.of_nat (length region_data)
                    - Z.of_nat (length pattern)).
  { unfold wrap64.
    replace (Z.of_nat (length region_data) - Z.of_nat (length pattern))
      with (2 ^ 64 + Z.of_nat (length region_data) - Z.of_nat (length pattern)
            + (-1) * 2 ^ 64) by lia.
    rewrite Z.mod_add by lia. apply Z.mod_small. lia. }
  rewrite Hwrap.
  apply (scan_loop_overlong region region_data pattern
           (2 ^ 64 + Z.of_nat (length region_data) - Z.of_nat (length pattern))
           ltac:(rewrite Epattern; discriminate) ltac:(lia) Hsmall ltac:(lia)
           (S (length region_data / 4))); [lia | | lia].
  pose proof (Nat.div_mod_eq (length region_data) 4) as Hdiv.
  pose proof (Nat.mod_upper_bound (length region_data) 4 ltac:(lia)). lia.
Qed.

End LongPattern.

Lemma overlong_pattern_reads_past_the_end_witness :
  exists index,
    1 <= index
    /\ MemoryScanner.ScanRegionForPattern 2 one_byte_scanner one_byte_region
                                          [xad; xde] []
       = ScanFaults (RegionIndexOutOfBounds index).
Proof.
  apply (overlong_pattern_reads_past_the_end 2 one_byte_scanner one_byte_region
           [xad; xde] [xde]).
  - vm_compute. reflexivity.
  - simpl. lia.
  - simpl. lia.
  - simpl. lia.
Defined.
